(** * Homey: the retrying, rate-limit-aware generation orchestrator

    A shallow embedding of [src/services/geminiService.ts] and of the plan
    orchestration of [src/App.tsx].

    Asynchronous functions are computations of the monad [M]: they read and
    update the state [W] of the outside world (the remote generation
    service, or the counter of a fake operation), end by returning a value
    or by throwing a JavaScript error, and leave a trace of the effects the
    source performs ([wait], [console.warn], [console.error], requests to
    the service, and the invocations of the operation wrapped by
    [retryOperation]).  [await] is sequencing, and waiting lets time pass
    in the world.  Numbers that the source uses as counts and millisecond
    delays are integers ([Z], [nat]); the doubling of a delay is exact on
    them, as it is on IEEE doubles below overflow.  A thrown value is an
    object, of which the source reads [status], [code] and [message]. *)

From Equations Require Import Equations.
From Stdlib Require Import ZArith List String Ascii Bool Arith Lia QArith.
Import ListNotations.
Open Scope string_scope.
Open Scope list_scope.
Open Scope Z_scope.

#[local] Set Warnings "-register-all".

(* ===================================================================== *)
(** * JavaScript values that the service module handles *)
(* ===================================================================== *)

(** A thrown value.  The source reads [status], [code] and [message] of a
    caught error and tests [instanceof Error]; [None] is [undefined] (or a
    value of another type, which no comparison with [429] accepts). *)
Record JsError : Type := mkError {
  instanceofError : bool;
  status : option Z;
  code : option Z;
  message : option string
}.

(** [new Error(msg)] *)
Definition newError (msg : string) : JsError :=
  mkError true None None (Some msg).

(** Truthiness of a string that may be [undefined]. *)
Definition truthy (s : option string) : bool :=
  match s with
  | None => false
  | Some EmptyString => false
  | Some _ => true
  end.

(** A string where the source tests it ([if (s)], [s || d], [s && e]):
    itself when it is truthy. *)
Definition whenTruthy (s : option string) : option string :=
  if truthy s then s else None.

(** [s.includes(sub)] *)
Fixpoint includes (s sub : string) : bool :=
  prefix sub s ||
  match s with
  | EmptyString => false
  | String _ rest => includes rest sub
  end.

Definition is429 (v : option Z) : bool :=
  match v with
  | Some n => n =? 429
  | None => false
  end.

(** The test of [retryOperation], lines 16-18. *)
Definition isRateLimit (error : JsError) : bool :=
  is429 (status error) ||
  is429 (code error) ||
  match whenTruthy (message error) with
  | Some m => includes m "429" || includes m "quota"
  | None => false
  end.

(* ===================================================================== *)
(** * The monad of asynchronous computations *)
(* ===================================================================== *)

Inductive Outcome (A : Type) : Type :=
| Return (a : A)
| Throw (e : JsError).
Arguments Return {A} a.
Arguments Throw {A} e.

Inductive LogLevel : Type := LogWarn | LogError.

(** What a request to the service is made of is declared below; the trace
    only records that one was sent, to which model. *)
Inductive Event : Type :=
| EvWait (ms : Z)                 (* await wait(ms) *)
| EvConsole (level : LogLevel)    (* console.warn / console.error *)
| EvRequest (model : string)      (* ai.models.generateContent *)
| EvCall (inner : list Event).    (* operation(), with what it did *)

Definition M (W A : Type) : Type := W -> Outcome A * W * list Event.

(** The passing of time: the state of the world [ms] milliseconds later. *)
Class Timer (W : Type) : Type := {
  elapse : Z -> W -> W
}.

Section Monad.
Context {W : Type} `{Timer W}.

Definition ret {A} (a : A) : M W A := fun w => (Return a, w, []).

Definition throw {A} (e : JsError) : M W A := fun w => (Throw e, w, []).

Definition bind {A B} (m : M W A) (k : A -> M W B) : M W B := fun w =>
  match m w with
  | (Return a, w1, t1) => let '(o, w2, t2) := k a w1 in (o, w2, t1 ++ t2)
  | (Throw e, w1, t1) => (Throw e, w1, t1)
  end.

(** [try { m } catch (error) { handler error }] *)
Definition try_catch {A} (m : M W A) (handler : JsError -> M W A) : M W A :=
  fun w =>
  match m w with
  | (Return a, w1, t1) => (Return a, w1, t1)
  | (Throw e, w1, t1) =>
      let '(o, w2, t2) := handler e w1 in (o, w2, t1 ++ t2)
  end.

Definition emit (e : Event) : M W unit := fun w => (Return tt, w, [e]).

(** [const wait = (ms) => new Promise(resolve => setTimeout(resolve, ms))] *)
Definition wait (ms : Z) : M W unit := fun w =>
  (Return tt, elapse ms w, [EvWait ms]).

Definition console_warn : M W unit := emit (EvConsole LogWarn).
Definition console_error : M W unit := emit (EvConsole LogError).

(** [operation()]: the call is one event of the caller's trace, which
    holds the trace of the callee. *)
Definition invoke {A} (operation : M W A) : M W A := fun w =>
  let '(o, w1, t1) := operation w in (o, w1, [EvCall t1]).
End Monad.

Notation "x <- m ;; k" := (bind m (fun x => k))
  (at level 61, m at next level, right associativity).
Notation "m ;; k" := (bind m (fun _ => k))
  (at level 61, right associativity).

Definition outcome {W A} (r : Outcome A * W * list Event) : Outcome A :=
  fst (fst r).
Definition world {W A} (r : Outcome A * W * list Event) : W := snd (fst r).
Definition trace {W A} (r : Outcome A * W * list Event) : list Event := snd r.

(** The delays waited by a computation itself, in order (what an operation
    it invoked waited is inside that [EvCall]). *)
Fixpoint waits (t : list Event) : list Z :=
  match t with
  | [] => []
  | EvWait ms :: rest => ms :: waits rest
  | _ :: rest => waits rest
  end.

(** How many times a computation invoked its operation. *)
Fixpoint invocations (t : list Event) : nat :=
  match t with
  | [] => 0%nat
  | EvCall _ :: rest => S (invocations rest)
  | _ :: rest => invocations rest
  end.

(* ===================================================================== *)
(** * The Backoff Retrier *)
(* ===================================================================== *)

(** [retryOperation], lines 12-27.  The recursion is the source's:
    [retries - 1] and [baseDelay * 2], under [retries > 0]. *)
Equations? retryOperation {W T} `{Timer W} (operation : M W T)
    (retries baseDelay : Z)
  : M W T by wf (Z.to_nat retries) lt :=
retryOperation operation retries baseDelay :=
  try_catch (invoke operation) (fun error =>
    match Z_lt_dec 0 retries with
    | left _ =>
        if isRateLimit error then
          console_warn ;;
          wait baseDelay ;;
          retryOperation operation (retries - 1) (baseDelay * 2)
        else throw error
    | right _ => throw error
    end).
Proof. lia. Qed.

(** The defaults of the signature: [retries = 3, baseDelay = 2000]. *)
Definition retryDefault {W T} `{Timer W} (operation : M W T) : M W T :=
  retryOperation operation 3 2000.

(* ===================================================================== *)
(** * JSON values and [JSON.parse] *)
(* ===================================================================== *)

(** The value [JSON.parse] builds.  A number keeps its lexeme (the plan
    and surprise schemas hold none); the members of an object are in the
    order of the text, and a later member of the same name wins. *)
Inductive Json : Type :=
| JNull
| JBool (b : bool)
| JNumber (lexeme : string)
| JString (s : string)
| JArray (items : list Json)
| JObject (members : list (string * Json)).

Definition dquote : ascii := "034"%char.
Definition backslash : ascii := "092"%char.

Module JSON.

Definition eqc (c d : ascii) : bool := Ascii.eqb c d.

Definition whitespace (c : ascii) : bool :=
  eqc c " " || eqc c "009" || eqc c "010" || eqc c "013".

Fixpoint skip_ws (s : list ascii) : list ascii :=
  match s with
  | c :: rest => if whitespace c then skip_ws rest else s
  | [] => []
  end.

Definition digit (c : ascii) : bool :=
  ((48 <=? nat_of_ascii c) && (nat_of_ascii c <=? 57))%nat.

Definition hex (c : ascii) : option nat :=
  let n := nat_of_ascii c in
  if ((48 <=? n) && (n <=? 57))%nat then Some (n - 48)%nat
  else if ((65 <=? n) && (n <=? 70))%nat then Some (n - 55)%nat
  else if ((97 <=? n) && (n <=? 102))%nat then Some (n - 87)%nat
  else None.

(** The UTF-8 bytes of the code unit of a [\uXXXX] escape. *)
Definition utf8 (cp : nat) : list ascii :=
  if (cp <? 128)%nat then [ascii_of_nat cp]
  else if (cp <? 2048)%nat then
    [ascii_of_nat (192 + cp / 64); ascii_of_nat (128 + cp mod 64)]
  else
    [ascii_of_nat (224 + cp / 4096);
     ascii_of_nat (128 + (cp / 64) mod 64);
     ascii_of_nat (128 + cp mod 64)].

Definition escape (c : ascii) : option ascii :=
  if eqc c dquote then Some dquote
  else if eqc c backslash then Some backslash
  else if eqc c "/" then Some "/"%char
  else if eqc c "b" then Some "008"%char
  else if eqc c "f" then Some "012"%char
  else if eqc c "n" then Some "010"%char
  else if eqc c "r" then Some "013"%char
  else if eqc c "t" then Some "009"%char
  else None.

(** The characters of a string literal after its opening quote, up to
    the closing one. *)
Fixpoint chars (s : list ascii) (acc : list ascii)
  : option (string * list ascii) :=
  match s with
  | [] => None
  | c :: rest =>
      if eqc c dquote then
        Some (string_of_list_ascii (rev acc), rest)
      else if eqc c backslash then
        match rest with
        | e :: rest1 =>
            if eqc e "u" then
              match rest1 with
              | h1 :: h2 :: h3 :: h4 :: rest2 =>
                  match hex h1, hex h2, hex h3, hex h4 with
                  | Some a, Some b, Some c', Some d =>
                      chars rest2
                        (rev (utf8 (((a * 16 + b) * 16 + c') * 16 + d))
                         ++ acc)
                  | _, _, _, _ => None
                  end
              | _ => None
              end
            else
              match escape e with
              | Some x => chars rest1 (x :: acc)
              | None => None
              end
        | [] => None
        end
      else if (nat_of_ascii c <? 32)%nat then None
      else chars rest (c :: acc)
  end.

Fixpoint digits (s : list ascii) : list ascii * list ascii :=
  match s with
  | c :: rest =>
      if digit c then let '(ds, r) := digits rest in (c :: ds, r)
      else ([], s)
  | [] => ([], [])
  end.

(** A number: an optional minus sign, an integer part with no leading
    zero, an optional fraction, an optional exponent. *)
Definition sign (s : list ascii) : list ascii * list ascii :=
  match s with
  | c :: r => if eqc c "-" then ([c], r) else ([], s)
  | [] => ([], s)
  end.

Definition integer (s : list ascii) : option (list ascii * list ascii) :=
  match s with
  | c :: r =>
      if eqc c "0" then Some ([c], r)
      else if digit c then let '(ds, r') := digits r in Some (c :: ds, r')
      else None
  | [] => None
  end.

Definition fraction (s : list ascii) : option (list ascii * list ascii) :=
  match s with
  | p :: r =>
      if eqc p "." then
        match digits r with
        | ([], _) => None
        | (ds, r') => Some (p :: ds, r')
        end
      else Some ([], s)
  | [] => Some ([], s)
  end.

Definition exponent (s : list ascii) : option (list ascii * list ascii) :=
  match s with
  | e :: r =>
      if eqc e "e" || eqc e "E" then
        let '(sg, r1) :=
          match r with
          | g :: r2 => if eqc g "+" || eqc g "-" then ([g], r2) else ([], r)
          | [] => ([], r)
          end in
        match digits r1 with
        | ([], _) => None
        | (ds, r2) => Some (e :: sg ++ ds, r2)
        end
      else Some ([], s)
  | [] => Some ([], s)
  end.

Definition number (s : list ascii) : option (list ascii * list ascii) :=
  let '(sg, s1) := sign s in
  match integer s1 with
  | None => None
  | Some (int, s2) =>
      match fraction s2 with
      | None => None
      | Some (fr, s3) =>
          match exponent s3 with
          | None => None
          | Some (ex, s4) => Some (sg ++ int ++ fr ++ ex, s4)
          end
      end
  end.

Fixpoint strip (lit s : list ascii) : option (list ascii) :=
  match lit, s with
  | [], _ => Some s
  | a :: lit', b :: s' => if eqc a b then strip lit' s' else None
  | _ :: _, [] => None
  end.

Definition literal (lit : string) (v : Json) (s : list ascii)
  : option (Json * list ascii) :=
  match strip (list_ascii_of_string lit) s with
  | Some rest => Some (v, rest)
  | None => None
  end.

(** Recursive descent on fuel.  A parse never needs more fuel than the
    characters it consumes ([fuel_adequate] below), so that the fuel that
    [parse] gives, the length of the text and one, is never what makes it
    fail. *)
Fixpoint value (fuel : nat) (s : list ascii) : option (Json * list ascii) :=
  match fuel with
  | O => None
  | S fuel' =>
      match skip_ws s with
      | [] => None
      | c :: rest =>
          if eqc c "{" then
            match skip_ws rest with
            | c1 :: rest1 =>
                if eqc c1 "}" then Some (JObject [], rest1)
                else members fuel' rest []
            | [] => None
            end
          else if eqc c "[" then
            match skip_ws rest with
            | c1 :: rest1 =>
                if eqc c1 "]" then Some (JArray [], rest1)
                else elements fuel' rest []
            | [] => None
            end
          else if eqc c dquote then
            match chars rest [] with
            | Some (str, rest1) => Some (JString str, rest1)
            | None => None
            end
          else if eqc c "t" then literal "true" (JBool true) (c :: rest)
          else if eqc c "f" then literal "false" (JBool false) (c :: rest)
          else if eqc c "n" then literal "null" JNull (c :: rest)
          else
            match number (c :: rest) with
            | Some (lex, rest1) =>
                Some (JNumber (string_of_list_ascii lex), rest1)
            | None => None
            end
      end
  end
with members (fuel : nat) (s : list ascii) (acc : list (string * Json))
  : option (Json * list ascii) :=
  match fuel with
  | O => None
  | S fuel' =>
      match skip_ws s with
      | q :: rest =>
          if negb (eqc q dquote) then None else
          match chars rest [] with
          | None => None
          | Some (key, rest1) =>
              match skip_ws rest1 with
              | colon :: rest2 =>
                  if negb (eqc colon ":") then None else
                  match value fuel' rest2 with
                  | None => None
                  | Some (v, rest3) =>
                      match skip_ws rest3 with
                      | sep :: rest4 =>
                          if eqc sep "," then
                            members fuel' rest4 ((key, v) :: acc)
                          else if eqc sep "}" then
                            Some (JObject (rev ((key, v) :: acc)), rest4)
                          else None
                      | [] => None
                      end
                  end
              | [] => None
              end
          end
      | [] => None
      end
  end
with elements (fuel : nat) (s : list ascii) (acc : list Json)
  : option (Json * list ascii) :=
  match fuel with
  | O => None
  | S fuel' =>
      match value fuel' s with
      | None => None
      | Some (v, rest) =>
          match skip_ws rest with
          | sep :: rest1 =>
              if eqc sep "," then elements fuel' rest1 (v :: acc)
              else if eqc sep "]" then Some (JArray (rev (v :: acc)), rest1)
              else None
          | [] => None
          end
      end
  end.

(** [JSON.parse(text)]; [None] is the [SyntaxError] it throws. *)
Definition parse (text : string) : option Json :=
  let s := list_ascii_of_string text in
  match value (S (List.length s)) s with
  | Some (v, rest) =>
      match skip_ws rest with
      | [] => Some v
      | _ :: _ => None
      end
  | None => None
  end.

End JSON.

(** Writes a JSON text with apostrophes where the text has quotation
    marks. *)
Fixpoint quoted (s : string) : string :=
  match s with
  | EmptyString => EmptyString
  | String c rest =>
      String (if Ascii.eqb c "'" then dquote else c) (quoted rest)
  end.

(** [obj[key]] on the own members of a parsed object; [None] is
    [undefined]. *)
Fixpoint member (key : string) (members : list (string * Json))
  : option Json :=
  match members with
  | [] => None
  | (k, v) :: rest =>
      match member key rest with
      | Some later => Some later
      | None => if String.eqb k key then Some v else None
      end
  end.

(** [v.key] for the name [key] of a member of an interface of the data
    model, on a value other than [null]: the member of an object,
    [undefined] on a value that has no members of its own. *)
Definition valueOf (v : Json) (key : string) : option Json :=
  match v with
  | JObject members => member key members
  | _ => None
  end.

(* ===================================================================== *)
(** * Data model ([src/types.ts]) and the plan schema *)
(* ===================================================================== *)

Inductive CategoryOption : Type := FurnitureFlipping | RoomRefresh.

Definition CategoryOption_eqb (a b : CategoryOption) : bool :=
  match a, b with
  | FurnitureFlipping, FurnitureFlipping => true
  | RoomRefresh, RoomRefresh => true
  | _, _ => false
  end.

Record ProjectPlan : Type := mkPlan {
  styleSummary : string;
  steps : list string;
  costEstimate : string;
  timeEstimate : string;
  materials : list string;
  tools : list string;
  safety : list string;
  itemDescription : string
}.

Inductive Role : Type := RoleUser | RoleModel.

Record ChatMessage : Type := mkMessage {
  role : Role;
  msgText : string
}.

Record Suggestion : Type := mkSuggestion {
  suggestionStyle : string;
  suggestionImage : string
}.

(** [Schema] of the SDK, as far as [PLAN_SCHEMA] uses it. *)
Inductive Schema : Type :=
| SchemaString (description : option string)
| SchemaArray (items : Schema) (description : string)
| SchemaObject (properties : list (string * Schema)) (required : list string).

(** [PLAN_SCHEMA], lines 29-70. *)
Definition PLAN_SCHEMA : Schema :=
  SchemaObject
    [ ("styleSummary",
       SchemaString (Some "A 1-2 sentence evocative summary of the design vibe/style (e.g., 'A warm, grounded aesthetic featuring raw oak textures and matte black hardware to create a serene focal point.')."));
      ("steps",
       SchemaArray (SchemaString None)
         "Detailed step-by-step execution instructions. Must strictly follow the VIBE format with **TOOL:** and **MATERIAL:** callouts and [Image of: ...] placeholders.");
      ("costEstimate",
       SchemaString (Some "Estimated cost range in USD (e.g., '$50 - $100')."));
      ("timeEstimate",
       SchemaString (Some "Estimated time to complete (e.g., '3-4 hours')."));
      ("materials",
       SchemaArray (SchemaString None)
         "Summary list of materials (for shopping list purposes).");
      ("tools",
       SchemaArray (SchemaString None) "Summary list of tools required.");
      ("safety",
       SchemaArray (SchemaString None) "Important safety warnings.");
      ("itemDescription",
       SchemaString (Some "A concise visual description of the furniture or room found in the image, capturing shape, material, and key features.")) ]
    [ "styleSummary"; "steps"; "costEstimate"; "timeEstimate"; "materials";
      "tools"; "safety"; "itemDescription" ].

(** What it is for a value to match a schema: the type of the value, the
    type of every element of an array, the presence of every required
    member and the type of every declared member that is present.  The
    service module never evaluates this; it is what the schema asks of
    the remote service. *)
Fixpoint conforms (schema : Schema) (j : Json) : bool :=
  match schema, j with
  | SchemaString _, JString _ => true
  | SchemaArray items _, JArray elements => forallb (conforms items) elements
  | SchemaObject properties required, JObject members =>
      forallb (fun key =>
                 match member key members with
                 | Some _ => true
                 | None => false
                 end) required &&
      forallb (fun property =>
                 match member (fst property) members with
                 | Some v => conforms (snd property) v
                 | None => true
                 end) properties
  | _, _ => false
  end.

Definition asString (j : option Json) : option string :=
  match j with
  | Some (JString s) => Some s
  | _ => None
  end.

Fixpoint asStrings (items : list Json) : option (list string) :=
  match items with
  | [] => Some []
  | JString s :: rest =>
      match asStrings rest with
      | Some l => Some (s :: l)
      | None => None
      end
  | _ :: _ => None
  end.

Definition asStringArray (j : option Json) : option (list string) :=
  match j with
  | Some (JArray items) => asStrings items
  | _ => None
  end.

(** The [ProjectPlan] that a parsed value is, when each of the eight
    members of the interface is there with its type. *)
Definition asProjectPlan (j : Json) : option ProjectPlan :=
  match j with
  | JObject m =>
      match asString (member "styleSummary" m),
            asStringArray (member "steps" m),
            asString (member "costEstimate" m),
            asString (member "timeEstimate" m),
            asStringArray (member "materials" m),
            asStringArray (member "tools" m),
            asStringArray (member "safety" m),
            asString (member "itemDescription" m) with
      | Some a, Some b, Some c, Some d, Some e, Some f, Some g, Some h =>
          Some (mkPlan a b c d e f g h)
      | _, _, _, _, _, _, _, _ => None
      end
  | _ => None
  end.

(* ===================================================================== *)
(** * The remote generation service *)
(* ===================================================================== *)

Inductive Part : Type :=
| InlineData (mimeType data : string)
| Text (prompt : string).

Record Config : Type := mkConfig {
  responseMimeType : option string;
  responseSchema : option Schema;
  systemInstruction : option string;
  temperature : option Q;
  aspectRatio : option string;      (* imageConfig.aspectRatio *)
  googleSearch : bool               (* tools: [{ googleSearch: {} }] *)
}.

Record Request : Type := mkRequest {
  model : string;
  contents : list Part;
  config : Config
}.

Record Blob : Type := mkBlob {
  blobMimeType : option string;
  blobData : option string
}.

Record ResponsePart : Type := mkPart {
  partText : option string;
  inlineData : option Blob
}.

Record Chunk : Type := mkChunk {
  webUri : option (option string)   (* chunk.web, then web.uri *)
}.

Record Candidate : Type := mkCandidate {
  contentParts : option (list ResponsePart);     (* content?.parts *)
  groundingChunks : option (list Chunk)  (* groundingMetadata?.groundingChunks *)
}.

Record Response : Type := mkResponse {
  text : option string;
  candidates : list Candidate
}.

(** The client [ai]: what the service answers to a request, in a state of
    the world, and the state it leaves. *)
Class GenAI (W : Type) : Type := {
  generateContent : Request -> W -> Outcome Response * W
}.

(** [await ai.models.generateContent(request)] *)
Definition ai_generateContent {W} `{GenAI W} (request : Request)
  : M W Response := fun w =>
  let '(o, w1) := generateContent request w in
  (o, w1, [EvRequest (model request)]).

(** The template literals of the prompts, each as a function of the values
    it interpolates; no property below reads their text. *)
Class Prompts : Type := {
  planPrompt : CategoryOption -> string -> string;
    (* category, style *)
  furniturePrompt : string -> string -> string -> string -> string;
    (* description, refContext, style, viewContext *)
  roomPrompt : string -> string -> string -> string -> string;
    (* description, style, refContext, viewContext *)
  referencesPrompt : nat -> CategoryOption -> string -> string -> string;
    (* count, category, description, style *)
  chatPrompt : string -> string -> string -> string
    (* JSON.stringify(plan, null, 2), historyText, newMessage *)
}.

(** What the JavaScript engine decides: the messages of the errors it
    throws, [JSON.stringify(v, null, 2)], and the string a value has when
    it stands where a string is expected. *)
Class Engine : Type := {
  syntaxErrorMessage : string -> string;   (* of JSON.parse(text) *)
  nullPropertyMessage : string -> string;  (* of null.key *)
  JSON_stringify : Json -> string;
  toString : option Json -> string
}.

Definition SyntaxError `{Engine} (text' : string) : JsError :=
  newError (syntaxErrorMessage text').

Definition TypeError `{Engine} (key : string) : JsError :=
  newError (nullPropertyMessage key).

Definition newline : string := String "010" EmptyString.

Section Service.
Context {W : Type} `{Timer W} `{GenAI W} `{Prompts} `{Engine}.

(** The request of lines 136-150. *)
Definition planRequest (imageBase64 style : string)
    (category : CategoryOption) : Request :=
  let prompt := planPrompt category style in
  mkRequest "gemini-2.5-flash"
    [InlineData "image/jpeg" imageBase64; Text prompt]
    (mkConfig (Some "application/json") (Some PLAN_SCHEMA)
       (Some "You are a helpful, warm, and safety-conscious DIY expert. You strictly adhere to the VIBE formatting rules.")
       (Some (4 # 10)%Q) None false).

(** The operation of [generateProjectPlan], lines 98-162. *)
Definition planOperation (imageBase64 style : string)
    (category : CategoryOption) : M W Json :=
  try_catch
    (response <- ai_generateContent
       (planRequest imageBase64 style category) ;;
     match whenTruthy (text response) with
     | None => throw (newError "No text response received from Gemini.")
     | Some t =>
         match JSON.parse t with
         | Some plan => ret plan
         | None => throw (SyntaxError t)
         end
     end)
    (fun error => console_error ;; throw error).

(** [generateProjectPlan], lines 93-163. *)
Definition generateProjectPlan (imageBase64 style : string)
    (category : CategoryOption) : M W Json :=
  retryDefault (planOperation imageBase64 style category).

(** The scan of lines 334-338: the first part that carries image data. *)
Fixpoint firstImage (parts : list ResponsePart) : option string :=
  match parts with
  | [] => None
  | part :: rest =>
      match inlineData part with
      | Some blob =>
          match whenTruthy (blobData blob) with
          | Some data => Some data
          | None => firstImage rest
          end
      | None => firstImage rest
      end
  end.

(** [response.candidates?.[0]] *)
Definition firstCandidate (response : Response) : option Candidate :=
  match candidates response with
  | c :: _ => Some c
  | [] => None
  end.

(** The test of line 345. *)
Definition rethrown (error : JsError) : bool :=
  instanceofError error && is429 (status error).

(** The prompt and the request of lines 271-330. *)
Definition imageRequest (style : string) (category : CategoryOption)
    (description viewContext : string) (referenceUrl : option string)
  : Request :=
  let refContext :=
    match whenTruthy referenceUrl with
    | Some url =>
        (newline ++ "Reference this real-world product style: "
           ++ url ++ newline)%string
    | None => ""
    end in
  let prompt :=
    if CategoryOption_eqb category FurnitureFlipping
    then furniturePrompt description refContext style viewContext
    else roomPrompt description style refContext viewContext in
  mkRequest "gemini-2.5-flash-image" [Text prompt]
    (mkConfig None None None None (Some "1:1") false).

(** The operation of [generateSingleImage], lines 269-348. *)
Definition singleImageOperation (style : string) (category : CategoryOption)
    (description viewContext : string) (referenceUrl : option string)
  : M W (option string) :=
  try_catch
    (response <- ai_generateContent
       (imageRequest style category description viewContext referenceUrl) ;;
     match firstCandidate response with
     | Some candidate =>
         match contentParts candidate with
         | Some parts => ret (firstImage parts)
         | None => ret None
         end
     | None => ret None
     end)
    (fun error =>
       console_error ;;
       if rethrown error then throw error else ret None).

(** [generateSingleImage], lines 262-349. *)
Definition generateSingleImage (style : string) (category : CategoryOption)
    (description viewContext : string) (referenceUrl : option string)
  : M W (option string) :=
  retryDefault
    (singleImageOperation style category description viewContext
       referenceUrl).

(** Lines 427-433: the [uri] of every chunk that has one. *)
Fixpoint pushUris (chunks : list Chunk) (urls : list string) : list string :=
  match chunks with
  | [] => urls
  | chunk :: rest =>
      match webUri chunk with
      | Some uri =>
          match whenTruthy uri with
          | Some u => pushUris rest (urls ++ [u])
          | None => pushUris rest urls
          end
      | None => pushUris rest urls
      end
  end.

(** Lines 424-433: the URLs of the grounding metadata. *)
Definition groundingUrls (response : Response) : list string :=
  let chunks :=
    match firstCandidate response with
    | Some candidate => groundingChunks candidate
    | None => None
    end in
  match chunks with
  | Some cs => pushUris cs []
  | None => []
  end.

(** The request of lines 412-422. *)
Definition referencesRequest (style : string) (category : CategoryOption)
    (description : string) (count : nat) : Request :=
  mkRequest "gemini-2.5-flash"
    [Text (referencesPrompt count category description style)]
    (mkConfig None None None None None true).
End Service.

(** Lines 435-437: [while (urls.length < count) urls.push("")]. *)
Equations? padUrls (urls : list string) (count : nat) : list string
  by wf (count - List.length urls)%nat lt :=
padUrls urls count with lt_dec (List.length urls) count := {
  | left _ => padUrls (urls ++ [""]) count
  | right _ => urls }.
Proof. rewrite length_app; simpl; lia. Qed.

Section Orchestrators.
Context {W : Type} `{Timer W} `{GenAI W} `{Prompts} `{Engine}.

(** The operation of [getRealWorldReferences], lines 410-443. *)
Definition referencesOperation (style : string)
    (category : CategoryOption) (description : string) (count : nat)
  : M W (list string) :=
  try_catch
    (response <- ai_generateContent
       (referencesRequest style category description count) ;;
     let urls := groundingUrls response in
     let urls := padUrls urls count in
     ret (firstn count urls))
    (fun e => ret (repeat "" count)).

(** [getRealWorldReferences], lines 404-444.  [count] is a count: the
    function is private to the module and its two callers pass [3] and
    [1]. *)
Definition getRealWorldReferences (style : string)
    (category : CategoryOption) (description : string) (count : nat)
  : M W (list string) :=
  retryDefault (referencesOperation style category description count).

Definition defaultViews : list string :=
  ["straight on view"; "slightly angled view"; "detail focused view"].

(** The loop of lines 463-477, from index [i] on, over the views that
    remain; [results.push] appends.  With no reference at all,
    [i % references.length] is [NaN] and the reference [undefined]. *)
Fixpoint inspirationLoop (style : string) (category : CategoryOption)
    (description : string) (references : list string)
    (i : nat) (views : list string) (results : list string)
  : M W (list string) :=
  match views with
  | [] => ret results
  | view :: rest =>
      let ref := nth_error references (i mod List.length references) in
      (if (0 <? i)%nat then wait 2000 else ret tt) ;;
      results <- try_catch
        (img <- generateSingleImage style category description view ref ;;
         ret (match whenTruthy img with
              | Some data => results ++ [data]
              | None => results
              end))
        (fun e => console_error ;; ret results) ;;
      inspirationLoop style category description references (S i) rest
        results
  end.

(** [generateInspirationImages], lines 450-480. *)
Definition generateInspirationImages (style : string)
    (category : CategoryOption) (description : string)
    (customViews : option (list string)) : M W (list string) :=
  references <- getRealWorldReferences style category description 3 ;;
  let views :=
    match customViews with
    | Some vs => vs
    | None => defaultViews
    end in
  inspirationLoop style category description references 0 views [].

(** The loop of lines 494-513. *)
Fixpoint surpriseLoop (category : CategoryOption) (description : string)
    (i : nat) (styles : list string) (results : list Suggestion)
  : M W (list Suggestion) :=
  match styles with
  | [] => ret results
  | style :: rest =>
      (if (0 <? i)%nat then wait 3000 else ret tt) ;;
      results <- try_catch
        (refs <- getRealWorldReferences style category description 1 ;;
         image <- generateSingleImage style category description
                    "straight on view, photorealistic" (nth_error refs 0) ;;
         ret (match whenTruthy image with
              | Some data => results ++ [mkSuggestion style data]
              | None => results
              end))
        (fun e => console_error ;; ret results) ;;
      surpriseLoop category description (S i) rest results
  end.

(** [generateSurpriseImages], lines 486-516. *)
Definition generateSurpriseImages (styles : list string)
    (category : CategoryOption) (description : string)
  : M W (list Suggestion) :=
  surpriseLoop category description 0 styles [].

Definition chatFallback : string :=
  "I'm having a little trouble connecting right now. Could you ask that again?".

(** Line 528. *)
Definition historyText (history : list ChatMessage) : string :=
  String.concat newline
    (map (fun msg =>
            ((match role msg with
              | RoleUser => "User"
              | RoleModel => "Homey"
              end) ++ ": " ++ msgText msg)%string) history).

(** The prompt and the request of lines 528-557. *)
Definition chatRequest (plan : Json) (history : list ChatMessage)
    (newMessage : string) : Request :=
  let prompt :=
    chatPrompt (JSON_stringify plan) (historyText history) newMessage in
  mkRequest "gemini-2.5-flash" [Text prompt]
    (mkConfig None None None (Some (5 # 10)%Q) None false).

(** The operation of [sendProjectChat], lines 526-564. *)
Definition chatOperation (plan : Json) (history : list ChatMessage)
    (newMessage : string) : M W string :=
  try_catch
    (response <- ai_generateContent
       (chatRequest plan history newMessage) ;;
     ret (match whenTruthy (text response) with
          | Some t => t
          | None => chatFallback
          end))
    (fun error => console_error ;; throw error).

(** [sendProjectChat], lines 521-565.  The plan is the value that
    [generateProjectPlan] returned. *)
Definition sendProjectChat (plan : Json) (history : list ChatMessage)
    (newMessage : string) : M W string :=
  retryDefault (chatOperation plan history newMessage).

(* ------------------------------------------------------------------- *)
(** ** The plan orchestration of [src/App.tsx] *)
(* ------------------------------------------------------------------- *)

Inductive AppState : Type := Upload | Analyzing | Results | ErrorState.

Inductive ResultData : Type :=
| Standard (plan : Json) (inspirationImages : list string)
| Surprise (description : string) (suggestions : list Suggestion).

(** The state of the component that [generateFullPlan] reads and sets. *)
Record App : Type := mkApp {
  selectedImage : option string;
  selectedCategory : CategoryOption;
  step : AppState;
  errorMessage : string;
  resultData : option ResultData
}.

Definition setStep (s : AppState) (app : App) : App :=
  mkApp (selectedImage app) (selectedCategory app) s (errorMessage app)
    (resultData app).

Definition setErrorMessage (msg : string) (app : App) : App :=
  mkApp (selectedImage app) (selectedCategory app) (step app) msg
    (resultData app).

Definition setResultData (r : ResultData) (app : App) : App :=
  mkApp (selectedImage app) (selectedCategory app) (step app)
    (errorMessage app) (Some r).

(** [plan.key]: a [TypeError] on [null], and what [valueOf] reads on
    another value. *)
Definition property (plan : Json) (key : string) : M W (option Json) :=
  match plan with
  | JNull => throw (TypeError key)
  | _ => ret (valueOf plan key)
  end.

(** [generateFullPlan], lines 306-331; the scrolling of the page after
    the result is set is left out. *)
Definition generateFullPlan (style : string) (initialImage : option string)
    (app : App) : M W App :=
  match whenTruthy (selectedImage app) with
  | Some selected =>
      let app := setErrorMessage "" (setStep Analyzing app) in
      try_catch
        (plan <- generateProjectPlan selected style (selectedCategory app) ;;
         images <-
           match whenTruthy initialImage with
           | Some initial =>
               description <- property plan "itemDescription" ;;
               additionalImages <-
                 generateInspirationImages style (selectedCategory app)
                   (toString description)
                   (Some ["slightly angled view"; "detail focused view"]) ;;
               ret (initial :: additionalImages)
           | None =>
               description <- property plan "itemDescription" ;;
               generateInspirationImages style (selectedCategory app)
                 (toString description) None
           end ;;
         ret (setStep Results (setResultData (Standard plan images) app)))
        (fun error =>
           console_error ;;
           let msg :=
             match whenTruthy (message error) with
             | Some m => m
             | None => "Something went wrong."
             end in
           ret (setStep ErrorState (setErrorMessage msg app)))
  | None => ret app
  end.
End Orchestrators.

(* ===================================================================== *)
(** * What the properties speak of *)
(* ===================================================================== *)

Section Behaviours.
Context {W T : Type} `{Timer W}.

(** The operation, invoked from the world [w] on and again after each
    failure once the delay has elapsed ([baseDelay], then its double, and
    so on), fails with a rate-limit signal exactly [k] times and then
    succeeds with [v], leaving [w']. *)
Inductive FailsThenSucceeds (operation : M W T)
  : nat -> Z -> W -> T -> W -> Prop :=
| FTS_succeeds baseDelay w v w' t :
    operation w = (Return v, w', t) ->
    FailsThenSucceeds operation 0 baseDelay w v w'
| FTS_fails k baseDelay w e w1 t v w' :
    operation w = (Throw e, w1, t) ->
    isRateLimit e = true ->
    FailsThenSucceeds operation k (baseDelay * 2) (elapse baseDelay w1) v w' ->
    FailsThenSucceeds operation (S k) baseDelay w v w'.

(** The operation, invoked in the same way, fails with a rate-limit signal
    [n + 1] times in a row; [e] is the last of these errors and [w'] the
    world it leaves. *)
Inductive KeepsFailing (operation : M W T)
  : nat -> Z -> W -> JsError -> W -> Prop :=
| KF_last baseDelay w e w' t :
    operation w = (Throw e, w', t) ->
    isRateLimit e = true ->
    KeepsFailing operation 0 baseDelay w e w'
| KF_again n baseDelay w e1 w1 t e w' :
    operation w = (Throw e1, w1, t) ->
    isRateLimit e1 = true ->
    KeepsFailing operation n (baseDelay * 2) (elapse baseDelay w1) e w' ->
    KeepsFailing operation (S n) baseDelay w e w'.
End Behaviours.

(** A parser that runs on fuel does not depend on it: a parse that
    succeeds with the fuel [f'] consumes some of the text and succeeds the
    same with any fuel that is at least the number of characters
    consumed. *)
Definition adequate {A} (run : nat -> list ascii -> option (A * list ascii))
    (f' : nat) : Prop :=
  forall s v rest,
    run f' s = Some (v, rest) ->
    (List.length rest < List.length s)%nat /\
    forall f, (List.length s - List.length rest <= f)%nat ->
              run f s = Some (v, rest).

(** The URLs that a list of grounding chunks holds: of each chunk that has
    a [web] with a non-empty [uri], that [uri]. *)
Definition usableUrls (chunks : list Chunk) : list string :=
  flat_map (fun chunk =>
              match webUri chunk with
              | Some uri =>
                  match whenTruthy uri with
                  | Some u => [u]
                  | None => []
                  end
              | None => []
              end) chunks.

(** The delays of [k] retries in a row that start from [baseDelay]. *)
Fixpoint backoff (baseDelay : Z) (k : nat) : list Z :=
  match k with
  | O => []
  | S k' => baseDelay :: backoff (baseDelay * 2) k'
  end.

Section BatchOutcomes.
Context {W : Type} `{Timer W} `{GenAI W} `{Prompts} `{Engine}.

(** The world in which the item of index [i] of a batch starts: every
    item but the first comes [ms] milliseconds after the one before. *)
Definition afterDelay (ms : Z) (i : nat) (w : W) : W :=
  if (0 <? i)%nat then elapse ms w else w.

(** What each view of a batch gives, one after the other: the outcome of
    its call of [generateSingleImage], in the world the calls before it
    have left, two seconds later. *)
Fixpoint viewOutcomes (style : string) (category : CategoryOption)
    (description : string) (references : list string)
    (i : nat) (views : list string) (w : W)
  : list (Outcome (option string)) :=
  match views with
  | [] => []
  | view :: rest =>
      let r := generateSingleImage style category description view
                 (nth_error references (i mod List.length references))
                 (afterDelay 2000 i w) in
      outcome r ::
      viewOutcomes style category description references (S i) rest (world r)
  end.

(** The image of a view that succeeded. *)
Definition successfulImage (o : Outcome (option string)) : list string :=
  match o with
  | Return (Some image) => [image]
  | Return None => []
  | Throw _ => []
  end.


(** What each style of a surprise batch gives: the outcome of its
    reference lookup followed by its image generation. *)
Fixpoint styleOutcomes (category : CategoryOption) (description : string)
    (i : nat) (styles : list string) (w : W)
  : list (string * Outcome (option string)) :=
  match styles with
  | [] => []
  | style :: rest =>
      let r := (refs <- getRealWorldReferences style category description 1 ;;
                generateSingleImage style category description
                  "straight on view, photorealistic" (nth_error refs 0))
                 (afterDelay 3000 i w) in
      (style, outcome r) ::
      styleOutcomes category description (S i) rest (world r)
  end.

(** The pair of a style that succeeded. *)
Definition successfulStyle (so : string * Outcome (option string))
  : list Suggestion :=
  match snd so with
  | Return (Some image) => [mkSuggestion (fst so) image]
  | Return None => []
  | Throw _ => []
  end.
End BatchOutcomes.

(* ===================================================================== *)
(** * Fake operations and a scripted service *)
(* ===================================================================== *)

Definition tooManyRequests : JsError :=
  mkError true (Some 429) None (Some "Too Many Requests").

Definition quotaExhausted : JsError :=
  newError "You exceeded your current quota, please check your plan.".

Definition badRequest : JsError :=
  mkError true (Some 400) None (Some "Invalid argument").

(** A world on which the passing of time has no effect. *)
Definition timeless {W : Type} : Timer W := {| elapse := fun _ w => w |}.

(** A world that is a clock, in milliseconds, and an operation that is
    refused until the clock reaches [deadline]. *)
Definition clock : Timer Z := {| elapse := fun ms now => now + ms |}.

Definition busyUntil {T} (deadline : Z) (v : T) : M Z T := fun now =>
  if now <? deadline then (Throw tooManyRequests, now, [])
  else (Return v, now, []).

(** An operation that counts its calls and fails the first [k] of them
    with [e]. *)
Definition flaky {T} (k : nat) (e : JsError) (v : T) : M nat T := fun n =>
  if (n <? k)%nat then (Throw e, S n, []) else (Return v, S n, []).

(** A service that answers the requests it receives from a script, in
    order, and refuses what comes after the script has run out. *)
Definition scripted : GenAI (list (Outcome Response)) :=
  {| generateContent := fun _ script =>
       match script with
       | answer :: rest => (answer, rest)
       | [] => (Throw badRequest, [])
       end |}.

Definition demoPrompts : Prompts :=
  {| planPrompt := fun _ style => style;
     furniturePrompt := fun d r s v => (d ++ r ++ s ++ v)%string;
     roomPrompt := fun d s r v => (d ++ s ++ r ++ v)%string;
     referencesPrompt := fun _ _ d s => (d ++ s)%string;
     chatPrompt := fun p h m => (p ++ h ++ m)%string |}.

Definition demoEngine : Engine :=
  {| syntaxErrorMessage := fun _ => "Unexpected token in JSON";
     nullPropertyMessage := fun _ => "Cannot read properties of null";
     JSON_stringify := fun _ => "{}";
     toString := fun v =>
       match v with
       | Some (JString s) => s
       | _ => "undefined"
       end |}.

Definition imageResponse (data : string) : Response :=
  mkResponse None
    [mkCandidate (Some [mkPart None (Some (mkBlob (Some "image/png") (Some data)))])
       None].

Definition textResponse (t : string) : Response :=
  mkResponse (Some t) [mkCandidate (Some [mkPart (Some t) None]) None].

Definition groundedResponse (uris : list string) : Response :=
  mkResponse None
    [mkCandidate None
       (Some (map (fun u => mkChunk (Some (Some u))) uris))].

(** A response without any content part, as for a request that the
    service has filtered. *)
Definition emptyResponse : Response := mkResponse None [].

(** The text of an answer that matches the plan schema, and the value it
    parses to. *)
Definition fullPlanText : string :=
  quoted "{'styleSummary':'Warm oak and matte black.','steps':['Sand the top. **TOOL:** Orbital sander (e.g., Bosch ROS20VSC)','Apply the stain. [Image of: staining the top]'],'costEstimate':'$50 - $100','timeEstimate':'3-4 hours','materials':['Oak stain'],'tools':['Orbital sander'],'safety':['Wear a dust mask'],'itemDescription':'A small oak side table'}".

Definition fullPlan : ProjectPlan :=
  mkPlan "Warm oak and matte black."
    ["Sand the top. **TOOL:** Orbital sander (e.g., Bosch ROS20VSC)";
     "Apply the stain. [Image of: staining the top]"]
    "$50 - $100" "3-4 hours" ["Oak stain"] ["Orbital sander"]
    ["Wear a dust mask"] "A small oak side table".

Definition fullPlanJson : Json :=
  JObject
    [("styleSummary", JString (styleSummary fullPlan));
     ("steps", JArray (map JString (steps fullPlan)));
     ("costEstimate", JString (costEstimate fullPlan));
     ("timeEstimate", JString (timeEstimate fullPlan));
     ("materials", JArray (map JString (materials fullPlan)));
     ("tools", JArray (map JString (tools fullPlan)));
     ("safety", JArray (map JString (safety fullPlan)));
     ("itemDescription", JString (itemDescription fullPlan))].

(** The text of an answer that is JSON and lacks seven of the eight
    required members. *)
Definition partialPlanText : string :=
  quoted "{'styleSummary':'Warm oak and matte black.'}".

Definition partialPlanJson : Json :=
  JObject [("styleSummary", JString "Warm oak and matte black.")].

Definition photoApp : App :=
  mkApp (Some "cGhvdG8=") FurnitureFlipping Upload "" None.

(* ===================================================================== *)
(** * The rest of the service module *)
(* ===================================================================== *)

(** The template literals of the three remaining requests, and the
    schema of the surprise analysis: [SURPRISE_SCHEMA] bounds the number of
    items of an array ([minItems], [maxItems]), which [Schema] has no
    constructor for, so that it is a parameter like the text of a
    prompt. *)
Class MorePrompts : Type := {
  stylePrompt : string;
  surprisePrompt : CategoryOption -> string;
    (* category *)
  stepPrompt : string -> string -> string;
    (* description, style *)
  SURPRISE_SCHEMA : Schema
}.

(** The service requests that a trace holds, those of the operations it
    invoked included. *)
Fixpoint requestsOf (e : Event) : nat :=
  match e with
  | EvRequest _ => 1
  | EvCall inner =>
      (fix sum (t : list Event) : nat :=
         match t with
         | [] => 0
         | e' :: rest => requestsOf e' + sum rest
         end) inner
  | EvWait _ => 0
  | EvConsole _ => 0
  end%nat.

Fixpoint requests (t : list Event) : nat :=
  match t with
  | [] => 0
  | e :: rest => requestsOf e + requests rest
  end%nat.

(** The time a computation itself has waited, in milliseconds. *)
Definition waited (t : list Event) : Z := fold_right Z.add 0 (waits t).

Section MoreService.
Context {W : Type} `{Timer W} `{GenAI W} `{Prompts} `{MorePrompts} `{Engine}.

(** The request of lines 182-193. *)
Definition styleRequest (inspirationBase64 : string) : Request :=
  mkRequest "gemini-2.5-flash"
    [InlineData "image/jpeg" inspirationBase64; Text stylePrompt]
    (mkConfig None None None (Some (4 # 10)%Q) None false).

(** The request of lines 230-243. *)
Definition surpriseRequest (imageBase64 : string) (category : CategoryOption)
  : Request :=
  mkRequest "gemini-2.5-flash"
    [InlineData "image/jpeg" imageBase64; Text (surprisePrompt category)]
    (mkConfig (Some "application/json") (Some SURPRISE_SCHEMA) None
       (Some (7 # 10)%Q) None false).

(** The operation of [generateSurpriseAnalysis], lines 214-255. *)
Definition surpriseOperation (imageBase64 : string)
    (category : CategoryOption) : M W Json :=
  try_catch
    (response <- ai_generateContent (surpriseRequest imageBase64 category) ;;
     match whenTruthy (text response) with
     | None => throw (newError "No text response received.")
     | Some t =>
         match JSON.parse t with
         | Some analysis => ret analysis
         | None => throw (SyntaxError t)
         end
     end)
    (fun error => console_error ;; throw error).

(** [generateSurpriseAnalysis], lines 210-256. *)
Definition generateSurpriseAnalysis (imageBase64 : string)
    (category : CategoryOption) : M W Json :=
  retryDefault (surpriseOperation imageBase64 category).

(** The request of lines 377-383. *)
Definition stepImageRequest (description style : string) : Request :=
  mkRequest "gemini-2.5-flash-image" [Text (stepPrompt description style)]
    (mkConfig None None None None (Some "1:1") false).

(** The operation of [generateStepImage], lines 362-394. *)
Definition stepImageOperation (description style : string)
  : M W (option string) :=
  response <- ai_generateContent (stepImageRequest description style) ;;
  match firstCandidate response with
  | Some candidate =>
      match contentParts candidate with
      | Some parts =>
          if (0 <? List.length parts)%nat then ret (firstImage parts)
          else ret None
      | None => ret None
      end
  | None => ret None
  end.

(** [generateStepImage], lines 355-399: one retry, after three seconds. *)
Definition generateStepImage (description style : string)
  : M W (option string) :=
  try_catch
    (retryOperation (stepImageOperation description style) 1 3000)
    (fun error => console_warn ;; ret None).
End MoreService.

(** A computation that, in every world, sends at most [budget] requests
    to the service. *)
Definition atMost {W A : Type} (budget : nat) (m : M W A) : Prop :=
  forall w, (requests (trace (m w)) <= budget)%nat.

(** What lines 332-340 find in a response: the data of the first part of
    the first candidate that carries some. *)
Definition responseImage (response : Response) : option string :=
  match firstCandidate response with
  | Some candidate =>
      match contentParts candidate with
      | Some parts => firstImage parts
      | None => None
      end
  | None => None
  end.

(** The budget of [retryOperation] with its default arguments, around an
    operation of one request: four requests, and 2 + 4 + 8 seconds. *)
Definition withinRetryBudget {W A : Type} (m : M W A) : Prop :=
  forall w, (requests (trace (m w)) <= 4)%nat /\
            0 <= waited (trace (m w)) <= 14000.

(* ===================================================================== *)
(** * White space and [trim] *)
(* ===================================================================== *)

(** Texts are in UTF-8.  The white space and the line terminators of
    ECMAScript, which [trim] removes and [\s] matches: TAB, LF, VT, FF, CR
    and SP, U+00A0, U+1680, U+2000 to U+200A, U+2028, U+2029, U+202F,
    U+205F, U+3000 and U+FEFF.  [afterSpace] is the rest of a text that
    starts with one of them. *)
Definition afterSpace (s : list ascii) : option (list ascii) :=
  match s with
  | c :: r =>
      let n := nat_of_ascii c in
      if (((9 <=? n) && (n <=? 13)) || (n =? 32))%nat then Some r
      else
        match r with
        | d :: r1 =>
            let m := nat_of_ascii d in
            if ((n =? 194) && (m =? 160))%nat then Some r1
            else
              match r1 with
              | e :: r2 =>
                  let k := nat_of_ascii e in
                  if ((n =? 225) && (m =? 154) && (k =? 128))%nat
                  then Some r2
                  else if ((n =? 226) && (m =? 128) &&
                           (((128 <=? k) && (k <=? 138)) ||
                            (k =? 168) || (k =? 169) || (k =? 175)))%nat
                  then Some r2
                  else if ((n =? 226) && (m =? 129) && (k =? 159))%nat
                  then Some r2
                  else if ((n =? 227) && (m =? 128) && (k =? 128))%nat
                  then Some r2
                  else if ((n =? 239) && (m =? 187) && (k =? 191))%nat
                  then Some r2
                  else None
              | [] => None
              end
        | [] => None
        end
  | [] => None
  end.

(** [\s*] at the head of a text, and [trimStart]: what is left once the
    white space that the text starts with is gone.  No step takes more
    fuel than the text has characters. *)
Fixpoint skipSpaces (fuel : nat) (s : list ascii) : list ascii :=
  match fuel with
  | O => s
  | S fuel' =>
      match afterSpace s with
      | Some rest => skipSpaces fuel' rest
      | None => s
      end
  end.

Definition trimStart (s : list ascii) : list ascii :=
  skipSpaces (List.length s) s.

Definition allSpace (s : list ascii) : bool :=
  match trimStart s with
  | [] => true
  | _ :: _ => false
  end.

(** [trimEnd]: the text up to the white space that it ends with. *)
Fixpoint trimEnd (s : list ascii) : list ascii :=
  match s with
  | [] => []
  | c :: rest => if allSpace s then [] else c :: trimEnd rest
  end.

(** [s.trim()] *)
Definition trim (s : string) : string :=
  string_of_list_ascii (trimEnd (trimStart (list_ascii_of_string s))).

(** A text that neither starts nor ends with white space. *)
Definition trimmed (s : list ascii) : Prop :=
  afterSpace s = None /\
  forall before spaces,
    s = before ++ spaces -> allSpace spaces = true -> spaces = [].

(* ===================================================================== *)
(** * Style analysis and the chat widget *)
(* ===================================================================== *)

Section StyleAndChat.
Context {W : Type} `{Timer W} `{GenAI W} `{Prompts} `{MorePrompts} `{Engine}.

(** The operation of [analyzeStyleFromImage], lines 169-204. *)
Definition styleOperation (inspirationBase64 : string) : M W string :=
  try_catch
    (response <- ai_generateContent (styleRequest inspirationBase64) ;;
     match whenTruthy (text response) with
     | None => throw (newError "Could not analyze inspiration image.")
     | Some t => ret (trim t)
     end)
    (fun error => console_error ;; throw error).

(** [analyzeStyleFromImage], lines 168-205. *)
Definition analyzeStyleFromImage (inspirationBase64 : string) : M W string :=
  retryDefault (styleOperation inspirationBase64).

(** The state of [ChatWidget] that [handleSend] reads and sets. *)
Record Chat : Type := mkChat {
  messages : list ChatMessage;
  input : string;
  isSending : bool
}.

Definition chatGreeting : ChatMessage :=
  mkMessage RoleModel
    "Hi! I'm Homey. Need clarification on any steps or materials?".

Definition chatApology : ChatMessage :=
  mkMessage RoleModel "Sorry, I ran into a snag. Could you try asking again?".

Definition addMessage (msg : ChatMessage) (chat : Chat) : Chat :=
  mkChat (messages chat ++ [msg]) (input chat) (isSending chat).

Definition setInput (s : string) (chat : Chat) : Chat :=
  mkChat (messages chat) s (isSending chat).

Definition setIsSending (b : bool) (chat : Chat) : Chat :=
  mkChat (messages chat) (input chat) b.

(** [handleSend], lines 119-135 of [src/App.tsx], one call at a time.  The
    history that goes to [sendProjectChat] is the one of the render, before
    the question is added. *)
Definition handleSend (plan : Json) (chat : Chat) : M W Chat :=
  if negb (truthy (Some (trim (input chat)))) || isSending chat then ret chat
  else
    let userMsg := mkMessage RoleUser (input chat) in
    let sending := setIsSending true (setInput "" (addMessage userMsg chat)) in
    answered <- try_catch
      (responseText <- sendProjectChat plan (messages chat) (input chat) ;;
       ret (addMessage (mkMessage RoleModel responseText) sending))
      (fun error => ret (addMessage chatApology sending)) ;;
    ret (setIsSending false answered).
End StyleAndChat.

(* ===================================================================== *)
(** * The steps of a plan on the results page *)
(* ===================================================================== *)

(** The regular expressions of [src/App.tsx], each as the matcher that it
    is at one position of a text: the rest of the text after the match,
    or nothing. *)

(** Canonicalisation under the flag [i]: a letter of ASCII is compared in
    upper case, and no other character becomes one. *)
Definition upper (c : ascii) : ascii :=
  let n := nat_of_ascii c in
  if ((97 <=? n) && (n <=? 122))%nat then ascii_of_nat (n - 32) else c.

Fixpoint matchLiteral (ignoreCase : bool) (pattern s : list ascii)
  : option (list ascii) :=
  match pattern, s with
  | [], _ => Some s
  | p :: pattern', c :: rest =>
      if (if ignoreCase then Ascii.eqb (upper p) (upper c)
          else Ascii.eqb p c)
      then matchLiteral ignoreCase pattern' rest
      else None
  | _ :: _, [] => None
  end.

Definition lit (ignoreCase : bool) (pattern : string) (s : list ascii)
  : option (list ascii) :=
  matchLiteral ignoreCase (list_ascii_of_string pattern) s.

Fixpoint skipDigits (s : list ascii) : list ascii :=
  match s with
  | c :: rest => if JSON.digit c then skipDigits rest else s
  | [] => []
  end.

(** [\d+] and [\s+]; both are greedy, and what stops them cannot start
    what follows them in the expressions below. *)
Definition matchDigits (s : list ascii) : option (list ascii) :=
  match s with
  | c :: rest => if JSON.digit c then Some (skipDigits rest) else None
  | [] => None
  end.

Definition matchSpaces (s : list ascii) : option (list ascii) :=
  match afterSpace s with
  | Some rest => Some (trimStart rest)
  | None => None
  end.

(** An alternative and the next one. *)
Definition orElse {A : Type} (first next : option A) : option A :=
  match first with
  | Some _ => first
  | None => next
  end.

(** The group of the expression of lines 396 and 632, with the flag [i]:
    [\d+\.], or [Step\s+\d+:?], or a dash, or an asterisk, in this
    order. *)
Definition matchMarker (s : list ascii) : option (list ascii) :=
  orElse
    match matchDigits s with
    | Some rest => lit true "." rest
    | None => None
    end
    (orElse
       match lit true "Step" s with
       | Some rest1 =>
           match matchSpaces rest1 with
           | Some rest2 =>
               match matchDigits rest2 with
               | Some rest3 =>
                   Some match lit true ":" rest3 with
                        | Some rest4 => rest4
                        | None => rest3
                        end
               | None => None
               end
           | None => None
           end
       | None => None
       end
       (orElse (lit true "-" s) (lit true "*" s))).

(** [text.replace(..., '')] of lines 396 and 632: the group at the start
    of the text and [\s*] after it are removed. *)
Definition removeMarker (text : string) : string :=
  let s := list_ascii_of_string text in
  string_of_list_ascii
    match matchMarker s with
    | Some rest => trimStart rest
    | None => s
    end.

(** A line terminator at the head of a text, which [.] does not match:
    LF, CR, U+2028 and U+2029. *)
Definition lineTerminator (s : list ascii) : bool :=
  match s with
  | c :: rest =>
      let n := nat_of_ascii c in
      ((n =? 10) || (n =? 13) ||
       match rest with
       | d :: e :: _ =>
           (n =? 226) && (nat_of_ascii d =? 128) &&
           ((nat_of_ascii e =? 168) || (nat_of_ascii e =? 169))
       | _ => false
       end)%nat
  | [] => false
  end.

(** [.*?\]$]: the closing bracket is tried first, then one more
    character. *)
Fixpoint closesText (s : list ascii) : bool :=
  match s with
  | [] => false
  | c :: rest =>
      (Ascii.eqb c "]" && match rest with [] => true | _ :: _ => false end)
      || (negb (lineTerminator s) && closesText rest)
  end.

(** [/^\[Image of:.*?\]$/i.test(cleanText)], line 636. *)
Definition isImageOnly (cleanText : string) : bool :=
  match lit true "[Image of:" (list_ascii_of_string cleanText) with
  | Some rest => closesText rest
  | None => false
  end.

(** [(.*?)\*\*]: the group and the rest of the text. *)
Fixpoint untilStars (s : list ascii) : option (list ascii * list ascii) :=
  match lit false "**" s with
  | Some rest => Some ([], rest)
  | None =>
      match s with
      | [] => None
      | c :: s' =>
          if lineTerminator s then None
          else
            match untilStars s' with
            | Some (group, rest) => Some (c :: group, rest)
            | None => None
            end
      end
  end.

Inductive ResourceType : Type := TOOL | MATERIAL.

Definition typeName (t : ResourceType) : string :=
  match t with
  | TOOL => "TOOL"
  | MATERIAL => "MATERIAL"
  end.

Record Resource : Type := mkResource {
  type : ResourceType;
  name : string
}.

(** One alternative of [/\*\*(TOOL|MATERIAL):(.*?)\*\*/] at the head of a
    text: what line 387 pushes, and the rest of the text. *)
Definition matchCallout (t : ResourceType) (s : list ascii)
  : option (Resource * list ascii) :=
  match lit false "**" s with
  | Some rest1 =>
      match lit false (typeName t) rest1 with
      | Some rest2 =>
          match lit false ":" rest2 with
          | Some rest3 =>
              match untilStars rest3 with
              | Some (group, rest) =>
                  Some (mkResource t (trim (string_of_list_ascii group)),
                        rest)
              | None => None
              end
          | None => None
          end
      | None => None
      end
  | None => None
  end.

Definition calloutAt (s : list ascii) : option (Resource * list ascii) :=
  orElse (matchCallout TOOL s) (matchCallout MATERIAL s).

(** The loop of lines 386-388: [regex.exec] looks for a callout from
    [lastIndex] on, one position after the other, and leaves [lastIndex]
    after the callout that it has found.  A callout is not empty, so that
    no step takes more fuel than the text has characters. *)
Fixpoint execAll (fuel : nat) (s : list ascii) : list Resource :=
  match fuel with
  | O => []
  | S fuel' =>
      match calloutAt s with
      | Some (resource, rest) => resource :: execAll fuel' rest
      | None =>
          match s with
          | [] => []
          | _ :: s' => execAll fuel' s'
          end
      end
  end.

Definition execFrom (s : list ascii) : list Resource :=
  execAll (S (List.length s)) s.

(** [extractStepResources], lines 382-390. *)
Definition extractStepResources (text : string) : list Resource :=
  execFrom (list_ascii_of_string text).

(** What the loop of lines 630-686 makes of a step: nothing, an
    illustration without a number, or a numbered card with its resources.
    The text goes to [renderStyledText]. *)
Inductive StepView : Type :=
| NoView
| ImageOnly (cleanText : string)
| Numbered (stepCounter : nat) (cleanText : string)
    (resources : list Resource).

Fixpoint renderSteps (stepCounter : nat) (steps : list string)
  : list StepView :=
  match steps with
  | [] => []
  | step :: rest =>
      let cleanText := trim (removeMarker step) in
      if negb (truthy (Some cleanText)) then NoView :: renderSteps stepCounter rest
      else if isImageOnly cleanText then
        ImageOnly cleanText :: renderSteps stepCounter rest
      else
        Numbered (S stepCounter) cleanText (extractStepResources cleanText)
        :: renderSteps (S stepCounter) rest
  end.

(** The counter starts at 0, line 482. *)
Definition stepViews (steps : list string) : list StepView :=
  renderSteps 0 steps.

Definition numberOf (view : StepView) : option nat :=
  match view with
  | Numbered n _ _ => Some n
  | _ => None
  end.

(** The numbers in the bubbles, from the top of the page. *)
Fixpoint numbers (views : list StepView) : list nat :=
  match views with
  | [] => []
  | view :: rest =>
      match numberOf view with
      | Some n => n :: numbers rest
      | None => numbers rest
      end
  end.

Definition countStars (s : list ascii) : nat :=
  count_occ ascii_dec s "*"%char.

(** A text on one line: [.] matches each of its characters. *)
Fixpoint oneLine (s : list ascii) : bool :=
  match s with
  | [] => true
  | _ :: rest => negb (lineTerminator s) && oneLine rest
  end.

(** A callout as a text. *)
Definition callout (t : ResourceType) (item : string) : string :=
  ("**" ++ typeName t ++ ":" ++ item ++ "**")%string.

(* ===================================================================== *)
(** * Time spent waiting *)
(* ===================================================================== *)

(** The milliseconds of all the waits of a trace, those of the operations
    it invoked included. *)
Fixpoint pauseOf (e : Event) : Z :=
  match e with
  | EvWait ms => ms
  | EvCall inner =>
      (fix sum (t : list Event) : Z :=
         match t with
         | [] => 0
         | e' :: rest => pauseOf e' + sum rest
         end) inner
  | EvRequest _ => 0
  | EvConsole _ => 0
  end.

Fixpoint pauses (t : list Event) : Z :=
  match t with
  | [] => 0
  | e :: rest => pauseOf e + pauses rest
  end.

(** A computation that waits between [least] and [most] milliseconds in
    all, whatever comes of it; and one that returns as well. *)
Definition pausesWithin {W A : Type} (least most : Z) (m : M W A) : Prop :=
  forall w, least <= pauses (trace (m w)) <= most.

Definition returnsWithin {W A : Type} (least most : Z) (m : M W A) : Prop :=
  forall w, (exists v, outcome (m w) = Return v) /\
            least <= pauses (trace (m w)) <= most.

(** The waits between the items of a batch: one before each item but the
    first of the batch. *)
Definition pacing (delay : Z) (i n : nat) : Z :=
  delay * Z.of_nat (if (0 <? i)%nat then n else Nat.pred n).

(* ===================================================================== *)
(** * Sample prompts, answers and conversations *)
(* ===================================================================== *)

Definition demoMorePrompts : MorePrompts :=
  {| stylePrompt := "Describe the style of this room.";
     surprisePrompt := fun _ => "Suggest five styles.";
     stepPrompt := fun description style => (description ++ style)%string;
     SURPRISE_SCHEMA :=
       SchemaObject
         [("itemDescription", SchemaString None);
          ("styles", SchemaArray (SchemaString None) "Five styles")]
         ["itemDescription"; "styles"] |}.

(** An analysis with one style where the schema asks for five. *)
Definition shortAnalysisText : string :=
  quoted "{'itemDescription':'A small oak side table','styles':['Japandi']}".

Definition shortAnalysisJson : Json :=
  JObject
    [("itemDescription", JString "A small oak side table");
     ("styles", JArray [JString "Japandi"])].

Definition openChat : Chat :=
  mkChat [chatGreeting] "How long does it dry?" false.

(* ===================================================================== *)
(** * Properties of the Backoff Retrier *)
(* ===================================================================== *)

Section RetrierFacts.
Context {W T : Type} `{Timer W}.
Implicit Types (operation : M W T) (retries baseDelay : Z) (w : W).

(** One step of [retryOperation], state and trace written out. *)
Lemma retryOperation_step operation retries baseDelay w :
  retryOperation operation retries baseDelay w =
  match operation w with
  | (Return v, w1, t) => (Return v, w1, [EvCall t])
  | (Throw e, w1, t) =>
      if (0 <? retries) && isRateLimit e then
        let '(o, w2, t2) :=
          retryOperation operation (retries - 1) (baseDelay * 2)
            (elapse baseDelay w1) in
        (o, w2, EvCall t :: EvConsole LogWarn :: EvWait baseDelay :: t2)
      else (Throw e, w1, [EvCall t])
  end.
Proof.
  rewrite retryOperation_equation_1.
  unfold try_catch, invoke.
  destruct (operation w) as [[[v | e] w1] t]; [reflexivity |].
  destruct (Z_lt_dec 0 retries) as [Hpos | Hneg].
  - assert (Hb : (0 <? retries) = true) by (apply Z.ltb_lt; exact Hpos).
    rewrite Hb. cbn [andb].
    destruct (isRateLimit e); [| reflexivity].
    unfold bind, console_warn, wait, emit.
    destruct (retryOperation operation (retries - 1) (baseDelay * 2)
                (elapse baseDelay w1)) as [[o w2] t2].
    reflexivity.
  - assert (Hb : (0 <? retries) = false) by (apply Z.ltb_ge; lia).
    rewrite Hb. reflexivity.
Qed.
End RetrierFacts.

Lemma backoff_length baseDelay k : List.length (backoff baseDelay k) = k.
Proof.
  revert baseDelay; induction k as [| k IH]; intros d; simpl; [reflexivity |].
  now rewrite IH.
Qed.

Lemma backoff_nth k : forall baseDelay i, (i < k)%nat ->
  nth_error (backoff baseDelay k) i = Some (baseDelay * 2 ^ Z.of_nat i).
Proof.
  induction k as [| k IH]; intros d i Hi; [lia |].
  destruct i as [| i]; cbn [backoff nth_error].
  - f_equal. change (Z.of_nat 0) with 0. rewrite Z.pow_0_r. ring.
  - rewrite IH by lia. f_equal.
    rewrite Nat2Z.inj_succ, Z.pow_succ_r by lia. ring.
Qed.

Section RetrierProperties.
Context {W T : Type} `{Timer W}.
Implicit Types (operation : M W T) (retries baseDelay : Z) (w : W).

(** As long as the budget covers the failures, the wrapper goes through
    them and returns what the operation returns in the end. *)
Lemma retryOperation_rides_out operation k baseDelay w v w' :
  FailsThenSucceeds operation k baseDelay w v w' ->
  forall retries, Z.of_nat k <= retries ->
  let r := retryOperation operation retries baseDelay w in
  outcome r = Return v /\ world r = w' /\
  waits (trace r) = backoff baseDelay k /\
  invocations (trace r) = S k.
Proof.
  induction 1 as [baseDelay w v w' t Hop
                 | k baseDelay w e w1 t v w' Hop Hrate _ IH];
    intros retries Hk; cbv zeta; rewrite retryOperation_step, Hop.
  - repeat split.
  - assert (Hb : (0 <? retries) = true) by (apply Z.ltb_lt; lia).
    rewrite Hb, Hrate. cbn [andb].
    specialize (IH (retries - 1)).
    cbv zeta in IH.
    destruct (retryOperation operation (retries - 1) (baseDelay * 2)
                (elapse baseDelay w1)) as [[o w2] t2].
    destruct IH as (Ho & Hw & Hwaits & Hcalls); [lia |].
    unfold outcome, world, trace in *; simpl in *.
    rewrite Hwaits, Hcalls. repeat split; assumption.
Qed.

(** An error that is no rate-limit signal leaves the wrapper at once:
    one invocation, no warning, no delay. *)
Lemma retryOperation_other_error operation retries baseDelay w e w1 t :
  operation w = (Throw e, w1, t) ->
  isRateLimit e = false ->
  retryOperation operation retries baseDelay w = (Throw e, w1, [EvCall t]).
Proof.
  intros Hop Hrate.
  rewrite retryOperation_step, Hop, Hrate, andb_false_r. reflexivity.
Qed.

(** Failures that outlast the budget: the last error comes out. *)
Lemma retryOperation_exhausted operation n baseDelay w e w' :
  KeepsFailing operation n baseDelay w e w' ->
  let r := retryOperation operation (Z.of_nat n) baseDelay w in
  outcome r = Throw e /\ world r = w' /\
  waits (trace r) = backoff baseDelay n /\
  invocations (trace r) = S n.
Proof.
  induction 1 as [baseDelay w e w' t Hop Hrate
                 | n baseDelay w e1 w1 t e w' Hop Hrate _ IH];
    cbv zeta; rewrite retryOperation_step, Hop.
  - simpl. repeat split.
  - assert (Hb : (0 <? Z.of_nat (S n)) = true) by (apply Z.ltb_lt; lia).
    rewrite Hb, Hrate. cbn [andb].
    cbv zeta in IH.
    replace (Z.of_nat (S n) - 1) with (Z.of_nat n) by lia.
    destruct (retryOperation operation (Z.of_nat n) (baseDelay * 2)
                (elapse baseDelay w1)) as [[o w2] t2].
    destruct IH as (Ho & Hw & Hwaits & Hcalls).
    unfold outcome, world, trace in *; simpl in *.
    rewrite Hwaits, Hcalls. repeat split; assumption.
Qed.

(** The number of invocations is bounded by the budget, whatever the
    operation does. *)
Lemma retryOperation_invocations_nat operation (n : nat) :
  forall retries baseDelay w, retries <= Z.of_nat n ->
  (1 <= invocations (trace (retryOperation operation retries baseDelay w))
     <= S n)%nat.
Proof.
  induction n as [| n IH]; intros retries baseDelay w Hn;
    rewrite retryOperation_step;
    destruct (operation w) as [[[v | e] w1] t]; simpl;
    try (split; lia).
  - assert (Hb : (0 <? retries) = false) by (apply Z.ltb_ge; lia).
    rewrite Hb. simpl. lia.
  - destruct ((0 <? retries) && isRateLimit e); [| simpl; lia].
    specialize (IH (retries - 1) (baseDelay * 2) (elapse baseDelay w1)).
    destruct (retryOperation operation (retries - 1) (baseDelay * 2)
                (elapse baseDelay w1)) as [[o w2] t2].
    simpl in *. lia.
Qed.

(** What the wrapper returns, the operation has returned. *)
Lemma retryOperation_returns operation (P : T -> Prop) :
  (forall w v w1 t, operation w = (Return v, w1, t) -> P v) ->
  forall n retries baseDelay w v,
  retries <= Z.of_nat n ->
  outcome (retryOperation operation retries baseDelay w) = Return v -> P v.
Proof.
  intros HP. induction n as [| n IH]; intros retries baseDelay w v Hn;
    rewrite retryOperation_step;
    destruct (operation w) as [[[v0 | e] w1] t] eqn:Hop.
  - unfold outcome; simpl. intros [= <-]. eauto.
  - assert (Hb : (0 <? retries) = false) by (apply Z.ltb_ge; lia).
    rewrite Hb. unfold outcome; simpl. discriminate.
  - unfold outcome; simpl. intros [= <-]. eauto.
  - destruct ((0 <? retries) && isRateLimit e);
      [| unfold outcome; simpl; discriminate].
    specialize (IH (retries - 1) (baseDelay * 2) (elapse baseDelay w1) v).
    destruct (retryOperation operation (retries - 1) (baseDelay * 2)
                (elapse baseDelay w1)) as [[o w2] t2].
    unfold outcome in *; simpl in *. intros Ho. apply IH; [lia | exact Ho].
Qed.

(** C1.  When the operation fails with a rate-limit signal exactly [k]
    times, [k] below the retry budget, and then succeeds, the wrapper
    returns the value of the success; it has waited [k] times, and the
    delay before the [n]-th retry is [baseDelay * 2 ^ (n - 1)]: each
    retry runs with one retry less and twice the delay. *)
Theorem retryOperation_backoff operation (k : nat) retries baseDelay w v w' :
  FailsThenSucceeds operation k baseDelay w v w' ->
  Z.of_nat k < retries ->
  let r := retryOperation operation retries baseDelay w in
  outcome r = Return v /\
  world r = w' /\
  List.length (waits (trace r)) = k /\
  (forall n, (1 <= n <= k)%nat ->
     nth_error (waits (trace r)) (n - 1) =
     Some (baseDelay * 2 ^ (Z.of_nat n - 1))) /\
  invocations (trace r) = S k.
Proof.
  intros Hruns Hk r.
  destruct (retryOperation_rides_out _ _ _ _ _ _ Hruns retries)
    as (Ho & Hw & Hwaits & Hcalls); [lia |].
  fold r in Ho, Hw, Hwaits, Hcalls.
  repeat split; try assumption.
  - rewrite Hwaits. apply backoff_length.
  - intros n Hn. rewrite Hwaits, backoff_nth by lia.
    replace (Z.of_nat (n - 1)) with (Z.of_nat n - 1) by lia.
    reflexivity.
Qed.

(** C2.  An error that is no rate-limit signal is propagated at once:
    the operation has been invoked once, nothing has been waited and the
    trace holds no retry.  And when the operation fails with rate-limit
    signals until the budget is used up, the error of its last failure
    is what the wrapper throws. *)
Theorem retryOperation_propagates operation retries baseDelay w :
  (forall e w1 t,
     operation w = (Throw e, w1, t) ->
     isRateLimit e = false ->
     let r := retryOperation operation retries baseDelay w in
     outcome r = Throw e /\ world r = w1 /\
     trace r = [EvCall t] /\ waits (trace r) = [] /\
     invocations (trace r) = 1%nat) /\
  (forall e w',
     0 <= retries ->
     KeepsFailing operation (Z.to_nat retries) baseDelay w e w' ->
     let r := retryOperation operation retries baseDelay w in
     outcome r = Throw e /\ world r = w' /\
     invocations (trace r) = S (Z.to_nat retries)).
Proof.
  split.
  - intros e w1 t Hop Hrate r. subst r.
    rewrite (retryOperation_other_error _ retries baseDelay _ _ _ _ Hop Hrate).
    repeat split.
  - intros e w' Hpos Hruns r. subst r.
    destruct (retryOperation_exhausted _ _ _ _ _ _ Hruns)
      as (Ho & Hw & _ & Hcalls).
    rewrite Z2Nat.id in Ho, Hw, Hcalls by exact Hpos.
    repeat split; assumption.
Qed.

(** C10.  [retryOperation] is defined by recursion on its retry count,
    which goes down by one at each recursive call and is positive there;
    so it gives a result for every operation, budget and delay, and with
    a budget [retries >= 0] the operation is invoked at least once and at
    most [retries + 1] times. *)
Theorem retryOperation_terminates operation retries baseDelay w :
  0 <= retries ->
  let r := retryOperation operation retries baseDelay w in
  (exists o w' t, r = (o, w', t)) /\
  (1 <= Z.of_nat (invocations (trace r)) <= retries + 1).
Proof.
  intros Hpos r. split.
  - destruct r as [[o w'] t]. now exists o, w', t.
  - pose proof (retryOperation_invocations_nat operation
                  (Z.to_nat retries) retries baseDelay w) as Hb.
    fold r in Hb. rewrite Z2Nat.id in Hb by exact Hpos.
    specialize (Hb (Z.le_refl _)). lia.
Qed.
End RetrierProperties.

(* ===================================================================== *)
(** * Properties of the generation client and of the orchestrators *)
(* ===================================================================== *)

Lemma retryOperation_first_return {W T} `{Timer W} (operation : M W T)
    retries baseDelay
    w v w1 t :
  operation w = (Return v, w1, t) ->
  retryOperation operation retries baseDelay w = (Return v, w1, [EvCall t]).
Proof.
  intros Hop. rewrite retryOperation_step, Hop. reflexivity.
Qed.

Lemma bind_assoc {W A B C} (m : M W A) (f : A -> M W B) (g : B -> M W C) w :
  bind (bind m f) g w = bind m (fun x => bind (f x) g) w.
Proof.
  unfold bind.
  destruct (m w) as [[[a | e] w1] t1]; [| reflexivity].
  destruct (f a w1) as [[[b | e] w2] t2]; [| reflexivity].
  destruct (g b w2) as [[o w3] t3]. now rewrite app_assoc.
Qed.

Lemma padUrls_pads urls count :
  padUrls urls count = urls ++ repeat "" (count - List.length urls).
Proof.
  funelim (padUrls urls count).
  - rewrite H. rewrite length_app. simpl.
    replace (count - List.length urls)%nat
      with (S (count - (List.length urls + 1)))%nat by lia.
    simpl. now rewrite <- app_assoc.
  - replace (count - List.length urls)%nat with 0%nat by lia.
    simpl. now rewrite app_nil_r.
Qed.

Lemma padUrls_length urls count :
  (count <= List.length (padUrls urls count))%nat.
Proof.
  rewrite padUrls_pads, length_app, repeat_length. lia.
Qed.

Lemma pushUris_appends chunks : forall urls,
  pushUris chunks urls = urls ++ usableUrls chunks.
Proof.
  induction chunks as [| chunk rest IH]; intros urls; simpl.
  - now rewrite app_nil_r.
  - destruct (webUri chunk) as [uri |]; [| apply IH].
    destruct (whenTruthy uri) as [u |]; [| apply IH].
    rewrite IH, <- app_assoc. reflexivity.
Qed.

Lemma groundingUrls_usable response :
  groundingUrls response =
  match firstCandidate response with
  | Some candidate =>
      match groundingChunks candidate with
      | Some chunks => usableUrls chunks
      | None => []
      end
  | None => []
  end.
Proof.
  unfold groundingUrls.
  destruct (firstCandidate response) as [candidate |]; [| reflexivity].
  destruct (groundingChunks candidate) as [chunks |]; [| reflexivity].
  apply pushUris_appends.
Qed.

Section ReferenceLookup.
Context {W : Type} `{Timer W} `{GenAI W} `{Prompts} `{Engine}.

(** The operation of reference lookup returns in every case. *)
Lemma referencesOperation_returns style category description count w :
  exists urls w1 t,
    referencesOperation style category description count w
    = (Return urls, w1, t) /\
    List.length urls = count /\
    match generateContent
            (referencesRequest style category description count) w with
    | (Return response, _) =>
        urls = firstn count (groundingUrls response) ++
               repeat "" (count - List.length (groundingUrls response))
    | (Throw _, _) => urls = repeat "" count
    end.
Proof.
  unfold referencesOperation, try_catch, bind, ai_generateContent, ret.
  destruct (generateContent _ w) as [[response | e] w1]; simpl.
  - eexists _, _, _. split; [reflexivity |]. split.
    + apply firstn_length_le, padUrls_length.
    + rewrite padUrls_pads, firstn_app.
      f_equal. rewrite firstn_all2; [reflexivity |].
      rewrite repeat_length. lia.
  - eexists _, _, _. split; [reflexivity |]. split.
    + apply repeat_length.
    + reflexivity.
Qed.

Lemma getRealWorldReferences_returns style category description count w :
  exists urls w1 t,
    getRealWorldReferences style category description count w
    = (Return urls, w1, t) /\
    List.length urls = count.
Proof.
  destruct (referencesOperation_returns style category description count w)
    as (urls & w1 & t & Hop & Hlen & _).
  exists urls, w1, [EvCall t]. split; [| exact Hlen].
  unfold getRealWorldReferences, retryDefault.
  now apply retryOperation_first_return.
Qed.

(** C4.  Whatever the count [count], the answer of the service and the
    state of the world, reference lookup returns, and never throws; the
    list it returns has exactly [count] entries.  When the call succeeds,
    the entries are, first and in the order of the chunks, the [uri] of
    each grounding chunk of the first candidate that has a [web] with a
    [uri] that is not empty, as many as fit, then empty strings up to
    [count]; a response without candidate or without grounding chunks
    gives empty strings only.  When the call fails, the list is [count]
    empty strings. *)
Theorem getRealWorldReferences_exact style category description count w :
  let r := getRealWorldReferences style category description count w in
  exists urls,
    outcome r = Return urls /\
    List.length urls = count /\
    match generateContent
            (referencesRequest style category description count) w with
    | (Return response, _) =>
        let found :=
          match candidates response with
          | candidate :: _ =>
              match groundingChunks candidate with
              | Some chunks => usableUrls chunks
              | None => []
              end
          | [] => []
          end in
        urls = firstn count found ++
               repeat "" (count - List.length found)
    | (Throw _, _) => urls = repeat "" count
    end.
Proof.
  cbv zeta. unfold getRealWorldReferences, retryDefault.
  destruct (referencesOperation_returns style category description count w)
    as (urls & w1 & t & Hop & Hlen & Hshape).
  exists urls.
  rewrite (retryOperation_first_return _ _ _ _ _ _ _ Hop).
  split; [reflexivity |]. split; [exact Hlen |].
  destruct (generateContent _ w) as [[response | e] w2]; [| exact Hshape].
  rewrite groundingUrls_usable in Hshape. unfold firstCandidate in Hshape.
  destruct (candidates response) as [| candidate rest]; exact Hshape.
Qed.
End ReferenceLookup.

Lemma whenTruthy_keeps s data :
  whenTruthy s = Some data -> whenTruthy (Some data) = Some data.
Proof.
  unfold whenTruthy. destruct (truthy s) eqn:Hs; [| discriminate].
  intros ->. now rewrite Hs.
Qed.

Lemma firstImage_truthy parts data :
  firstImage parts = Some data -> whenTruthy (Some data) = Some data.
Proof.
  induction parts as [| part rest IH]; simpl; [discriminate |].
  destruct (inlineData part) as [blob |]; [| exact IH].
  destruct (whenTruthy (blobData blob)) as [d |] eqn:Hd; [| exact IH].
  intros [= <-]. exact (whenTruthy_keeps _ _ Hd).
Qed.

Section ImageGeneration.
Context {W : Type} `{Timer W} `{GenAI W} `{Prompts} `{Engine}.

(** An error of the service that line 345 does not recognise ends the
    operation with [null]. *)
Lemma singleImageOperation_swallows style category description viewContext
    referenceUrl w e w1 :
  generateContent
    (imageRequest style category description viewContext referenceUrl) w
    = (Throw e, w1) ->
  rethrown e = false ->
  singleImageOperation style category description viewContext referenceUrl w
  = (Return None, w1, [EvRequest "gemini-2.5-flash-image"; EvConsole LogError]).
Proof.
  intros Hcall Hre.
  unfold singleImageOperation, try_catch, bind, ai_generateContent.
  rewrite Hcall, Hre. reflexivity.
Qed.

(** An error that line 345 recognises goes on to the retrier. *)
Lemma singleImageOperation_rethrows style category description viewContext
    referenceUrl w e w1 :
  generateContent
    (imageRequest style category description viewContext referenceUrl) w
    = (Throw e, w1) ->
  rethrown e = true ->
  singleImageOperation style category description viewContext referenceUrl w
  = (Throw e, w1, [EvRequest "gemini-2.5-flash-image"; EvConsole LogError]).
Proof.
  intros Hcall Hre.
  unfold singleImageOperation, try_catch, bind, ai_generateContent.
  rewrite Hcall, Hre. reflexivity.
Qed.

(** Every error that is not a rate-limit signal is swallowed: the single
    image is [null], after one invocation and no delay. *)
Lemma generateSingleImage_swallows_other style category description
    viewContext referenceUrl w e w1 :
  generateContent
    (imageRequest style category description viewContext referenceUrl) w
    = (Throw e, w1) ->
  isRateLimit e = false ->
  generateSingleImage style category description viewContext referenceUrl w
  = (Return None, w1,
     [EvCall [EvRequest "gemini-2.5-flash-image"; EvConsole LogError]]).
Proof.
  intros Hcall Hrate.
  assert (Hre : rethrown e = false).
  { unfold rethrown. unfold isRateLimit in Hrate.
    destruct (is429 (status e)); [discriminate |].
    apply andb_false_r. }
  unfold generateSingleImage, retryDefault.
  apply retryOperation_first_return.
  eapply singleImageOperation_swallows; eassumption.
Qed.

(** An image that [generateSingleImage] returns is a non-empty string. *)
Lemma generateSingleImage_truthy style category description viewContext
    referenceUrl w data :
  outcome (generateSingleImage style category description viewContext
             referenceUrl w) = Return (Some data) ->
  whenTruthy (Some data) = Some data.
Proof.
  unfold generateSingleImage, retryDefault.
  intros Hout.
  refine (retryOperation_returns _
            (fun v => forall d, v = Some d -> whenTruthy (Some d) = Some d)
            _ 3%nat 3 2000 w (Some data) _ Hout data eq_refl); [| lia].
  clear. intros w v w1 t.
  unfold singleImageOperation, try_catch, bind, ai_generateContent.
  destruct (generateContent _ w) as [[response | e] w2].
  - destruct (firstCandidate response) as [candidate |];
      [destruct (contentParts candidate) as [parts |] |];
      simpl; intros [= <- _ _] d Hd; try discriminate.
    exact (firstImage_truthy _ _ Hd).
  - simpl. destruct (rethrown e); simpl; intros [= <- _ _] d Hd;
      discriminate.
Qed.
End ImageGeneration.

Section Batches.
Context {W : Type} `{Timer W} `{GenAI W} `{Prompts} `{Engine}.

Lemma successfulImage_length o : (List.length (successfulImage o) <= 1)%nat.
Proof. destruct o as [[image |] | e]; simpl; lia. Qed.

Lemma viewOutcomes_length style category description references views :
  forall i w,
  List.length
    (viewOutcomes style category description references i views w)
  = List.length views.
Proof.
  induction views as [| view rest IH]; intros i w; simpl;
    [reflexivity | now rewrite IH].
Qed.

(** The loop over the views: whatever a view gives, the images gathered
    so far stay, and the image of a view that succeeded is put after
    them. *)
Lemma inspirationLoop_collects style category description references views :
  forall i results w,
  outcome (inspirationLoop style category description references i views
             results w)
  = Return (results ++
            flat_map successfulImage
              (viewOutcomes style category description references i views w)).
Proof.
  induction views as [| view rest IH]; intros i results w.
  - simpl. unfold outcome, ret; simpl. now rewrite app_nil_r.
  - cbn [inspirationLoop viewOutcomes flat_map].
    set (call := generateSingleImage style category description view
                   (nth_error references (i mod List.length references))).
    assert (Hstep : forall t0 w0 (pre : M W unit),
               pre w = (Return tt, w0, t0) ->
               outcome
                 ((pre ;;
                   results0 <- try_catch
                     (img <- call ;;
                      ret (match whenTruthy img with
                           | Some data => results ++ [data]
                           | None => results
                           end))
                     (fun e => console_error ;; ret results) ;;
                   inspirationLoop style category description references
                     (S i) rest results0) w)
               = Return (results ++
                         successfulImage (outcome (call w0)) ++
                         flat_map successfulImage
                           (viewOutcomes style category description
                              references (S i) rest (world (call w0))))).
    { intros t0 w0 pre Hpre. unfold bind at 1. rewrite Hpre.
      pose proof (generateSingleImage_truthy style category description view
                    (nth_error references (i mod List.length references)) w0)
        as Htruthy.
      fold call in Htruthy.
      unfold bind at 1. unfold try_catch, bind at 1.
      destruct (call w0) as [[[img | e] w1] t1] eqn:Hcall.
      - unfold world, outcome at 2; simpl.
        specialize (IH (S i)
                      (match whenTruthy img with
                       | Some data => results ++ [data]
                       | None => results
                       end) w1).
        destruct (inspirationLoop _ _ _ _ _ _ _ w1) as [[o w2] t2].
        unfold outcome in *; simpl in *. rewrite IH.
        destruct img as [data |]; simpl.
        + rewrite (Htruthy data eq_refl). now rewrite <- app_assoc.
        + reflexivity.
      - unfold world, outcome at 2; simpl.
        specialize (IH (S i) results w1).
        destruct (inspirationLoop _ _ _ _ _ _ _ w1) as [[o w2] t2].
        unfold outcome in *; simpl in *. rewrite IH. reflexivity. }
    unfold afterDelay. destruct (0 <? i)%nat.
    + exact (Hstep [EvWait 2000] (elapse 2000 w) (wait 2000) eq_refl).
    + exact (Hstep [] w (ret tt) eq_refl).
Qed.

Lemma generateInspirationImages_run style category description customViews
    w :
  exists references w1 t1,
    getRealWorldReferences style category description 3 w
    = (Return references, w1, t1) /\
    outcome (generateInspirationImages style category description
               customViews w)
    = Return (flat_map successfulImage
                (viewOutcomes style category description references 0
                   match customViews with
                   | Some vs => vs
                   | None => defaultViews
                   end w1)).
Proof.
  destruct (getRealWorldReferences_returns style category description 3 w)
    as (references & w1 & t & Hlookup & _).
  exists references, w1, t. split; [exact Hlookup |].
  unfold generateInspirationImages, bind. rewrite Hlookup.
  pose proof (inspirationLoop_collects style category description
                references
                match customViews with
                | Some vs => vs
                | None => defaultViews
                end 0%nat [] w1) as Hloop.
  destruct (inspirationLoop _ _ _ _ _ _ _ w1) as [[o w2] t2].
  unfold outcome in *; simpl in *. exact Hloop.
Qed.

(** C5.  For every list of views, the batch returns (it does not throw)
    and its result is made of the images of the views that succeeded, in
    the order of the views: a view whose generation throws (a rate-limit
    error that outlasted the retries) or gives [null] (no image part, or
    an error that is no rate-limit signal) adds nothing and takes
    nothing away.  With three views of which the second fails, the
    result is the first and the third image. *)
Theorem generateInspirationImages_isolates style category description
    customViews w :
  let views :=
    match customViews with
    | Some vs => vs
    | None => defaultViews
    end in
  let lookup := getRealWorldReferences style category description 3 w in
  exists references,
    outcome lookup = Return references /\
    let outcomes :=
      viewOutcomes style category description references 0 views
        (world lookup) in
    List.length outcomes = List.length views /\
    outcome (generateInspirationImages style category description
               customViews w)
    = Return (flat_map successfulImage outcomes) /\
    (forall first second third,
       outcomes = [Return (Some first); second; Return (Some third)] ->
       successfulImage second = [] ->
       outcome (generateInspirationImages style category description
                  customViews w)
       = Return [first; third]).
Proof.
  cbv zeta.
  destruct (generateInspirationImages_run style category description
              customViews w) as (references & w1 & t & Hlookup & Hrun).
  exists references. rewrite Hlookup. unfold outcome at 1, world; simpl.
  split; [reflexivity |].
  split; [apply viewOutcomes_length |].
  split; [exact Hrun |].
  intros first second third Houtcomes Hsecond.
  rewrite Hrun, Houtcomes. simpl. rewrite Hsecond. reflexivity.
Qed.

Lemma styleOutcomes_length category description styles :
  forall i w,
  List.length (styleOutcomes category description i styles w)
  = List.length styles.
Proof.
  induction styles as [| style rest IH]; intros i w; simpl;
    [reflexivity | now rewrite IH].
Qed.

Lemma styleOutcomes_styles category description styles :
  forall i w,
  map fst (styleOutcomes category description i styles w) = styles.
Proof.
  induction styles as [| style rest IH]; intros i w; simpl;
    [reflexivity | now rewrite IH].
Qed.

(** The loop over the styles. *)
Lemma surpriseLoop_collects category description styles :
  forall i results w,
  outcome (surpriseLoop category description i styles results w)
  = Return (results ++
            flat_map successfulStyle
              (styleOutcomes category description i styles w)).
Proof.
  induction styles as [| style rest IH]; intros i results w.
  - simpl. unfold outcome, ret; simpl. now rewrite app_nil_r.
  - cbn [surpriseLoop styleOutcomes flat_map].
    set (item := refs <- getRealWorldReferences style category
                            description 1 ;;
                 generateSingleImage style category description
                   "straight on view, photorealistic" (nth_error refs 0)).
    assert (Hstep : forall t0 w0 (pre : M W unit),
               pre w = (Return tt, w0, t0) ->
               outcome
                 ((pre ;;
                   results0 <- try_catch
                     (refs <- getRealWorldReferences style category
                                description 1 ;;
                      image <- generateSingleImage style category
                                 description
                                 "straight on view, photorealistic"
                                 (nth_error refs 0) ;;
                      ret (match whenTruthy image with
                           | Some data =>
                               results ++ [mkSuggestion style data]
                           | None => results
                           end))
                     (fun e => console_error ;; ret results) ;;
                   surpriseLoop category description (S i) rest results0) w)
               = Return
                   (results ++
                    successfulStyle (style, outcome (item w0)) ++
                    flat_map successfulStyle
                      (styleOutcomes category description (S i) rest
                         (world (item w0))))).
    { intros t0 w0 pre Hpre.
      assert (Htruthy : forall data,
                 outcome (item w0) = Return (Some data) ->
                 whenTruthy (Some data) = Some data).
      { intros data. subst item. unfold bind.
        destruct (getRealWorldReferences_returns style category description
                    1 w0) as (refs & w1 & tr & Hrefs & _).
        rewrite Hrefs.
        destruct (generateSingleImage style category description
                    "straight on view, photorealistic" (nth_error refs 0)
                    w1) as [[o1 w2] t1] eqn:Hcall.
        unfold outcome; simpl. intros ->.
        apply (generateSingleImage_truthy style category description
                 "straight on view, photorealistic" (nth_error refs 0) w1).
        now rewrite Hcall. }
      unfold bind at 1. rewrite Hpre.
      unfold bind at 1. unfold try_catch.
      rewrite <- (bind_assoc
                    (getRealWorldReferences style category description 1)
                    (fun refs =>
                       generateSingleImage style category description
                         "straight on view, photorealistic"
                         (nth_error refs 0))
                    (fun image =>
                       ret (match whenTruthy image with
                            | Some data =>
                                results ++ [mkSuggestion style data]
                            | None => results
                            end)) w0).
      fold item. unfold bind at 1.
      destruct (item w0) as [[[image | e] w1] t1].
      - unfold world, outcome at 2; simpl.
        specialize (IH (S i)
                      (match whenTruthy image with
                       | Some data => results ++ [mkSuggestion style data]
                       | None => results
                       end) w1).
        destruct (surpriseLoop _ _ _ _ _ w1) as [[o w2] t2].
        unfold outcome in *; simpl in *. rewrite IH.
        destruct image as [data |]; unfold successfulStyle; simpl.
        + rewrite (Htruthy data eq_refl). now rewrite <- app_assoc.
        + reflexivity.
      - unfold world, outcome at 2; simpl.
        specialize (IH (S i) results w1).
        destruct (surpriseLoop _ _ _ _ _ w1) as [[o w2] t2].
        unfold outcome in *; simpl in *. rewrite IH. reflexivity. }
    unfold afterDelay. destruct (0 <? i)%nat.
    + exact (Hstep [EvWait 3000] (elapse 3000 w) (wait 3000) eq_refl).
    + exact (Hstep [] w (ret tt) eq_refl).
Qed.

(** C6.  For every list of styles, the surprise batch returns the pairs
    (style, image) of the styles that succeeded, in the order of the
    input: a style whose image generation throws or gives no image is
    left out, so the result may be shorter than the input; with five
    styles of which the third gives no image, the result is the four
    other pairs in order. *)
Theorem generateSurpriseImages_skips styles category description w :
  let outcomes := styleOutcomes category description 0 styles w in
  map fst outcomes = styles /\
  outcome (generateSurpriseImages styles category description w)
  = Return (flat_map successfulStyle outcomes) /\
  (List.length (flat_map successfulStyle outcomes) <= List.length styles)%nat /\
  (forall s1 s2 s3 s4 s5 i1 i2 i4 i5,
     outcomes = [(s1, Return (Some i1)); (s2, Return (Some i2));
                 (s3, Return None);
                 (s4, Return (Some i4)); (s5, Return (Some i5))] ->
     outcome (generateSurpriseImages styles category description w)
     = Return [mkSuggestion s1 i1; mkSuggestion s2 i2;
               mkSuggestion s4 i4; mkSuggestion s5 i5]).
Proof.
  cbv zeta.
  assert (Hrun :
    outcome (generateSurpriseImages styles category description w)
    = Return (flat_map successfulStyle
                (styleOutcomes category description 0 styles w))).
  { unfold generateSurpriseImages.
    exact (surpriseLoop_collects category description styles 0%nat [] w). }
  split; [apply styleOutcomes_styles |].
  split; [exact Hrun |].
  split.
  - rewrite <- (styleOutcomes_length category description styles 0%nat w).
    generalize (styleOutcomes category description 0 styles w).
    intros l. induction l as [| so l IH]; simpl; [lia |].
    rewrite length_app.
    assert (List.length (successfulStyle so) <= 1)%nat.
    { unfold successfulStyle. destruct (snd so) as [[image |] | e];
        simpl; lia. }
    lia.
  - intros s1 s2 s3 s4 s5 i1 i2 i4 i5 Houtcomes.
    rewrite Hrun, Houtcomes. reflexivity.
Qed.
End Batches.

(* ===================================================================== *)
(** * The fuel of [JSON.parse] *)
(* ===================================================================== *)

(** What each piece of the parser leaves is no longer than what it was
    given, and shorter when it has read something. *)
Lemma skip_ws_length s : (List.length (JSON.skip_ws s) <= List.length s)%nat.
Proof.
  induction s as [| c rest IH]; simpl; [lia |].
  destruct (JSON.whitespace c); simpl; lia.
Qed.

Lemma chars_length n : forall s acc str rest,
  (List.length s <= n)%nat ->
  JSON.chars s acc = Some (str, rest) ->
  (List.length rest < List.length s)%nat.
Proof.
  induction n as [| n IH]; intros s acc str rest Hn Hchars.
  - destruct s; [discriminate | simpl in Hn; lia].
  - destruct s as [| c s1]; [discriminate |].
    simpl in Hn. cbn [JSON.chars] in Hchars.
    destruct (JSON.eqc c dquote).
    { injection Hchars as _ <-. simpl. lia. }
    destruct (JSON.eqc c backslash).
    { destruct s1 as [| e s2]; [discriminate |].
      destruct (JSON.eqc e "u").
      - destruct s2 as [| h1 [| h2 [| h3 [| h4 s3]]]]; try discriminate.
        destruct (JSON.hex h1), (JSON.hex h2), (JSON.hex h3), (JSON.hex h4);
          try discriminate.
        apply IH in Hchars; simpl in *; lia.
      - destruct (JSON.escape e); [| discriminate].
        apply IH in Hchars; simpl in *; lia. }
    destruct (nat_of_ascii c <? 32)%nat; [discriminate |].
    apply IH in Hchars; simpl in *; lia.
Qed.

Lemma digits_length s : forall ds r,
  JSON.digits s = (ds, r) -> (List.length r <= List.length s)%nat.
Proof.
  induction s as [| c rest IH]; intros ds r; simpl.
  - intros [= _ <-]. simpl. lia.
  - destruct (JSON.digit c).
    + destruct (JSON.digits rest) as [ds' r'] eqn:E.
      intros [= _ <-]. specialize (IH _ _ eq_refl). lia.
    + intros [= _ <-]. simpl. lia.
Qed.

Lemma sign_length s sg r :
  JSON.sign s = (sg, r) -> (List.length r <= List.length s)%nat.
Proof.
  unfold JSON.sign. destruct s as [| c s1].
  - intros [= _ <-]. lia.
  - destruct (JSON.eqc c "-"); intros [= _ <-]; simpl; lia.
Qed.

Lemma integer_length s int r :
  JSON.integer s = Some (int, r) -> (List.length r < List.length s)%nat.
Proof.
  unfold JSON.integer. destruct s as [| c s1]; [discriminate |].
  destruct (JSON.eqc c "0").
  - intros [= _ <-]. simpl. lia.
  - destruct (JSON.digit c); [| discriminate].
    destruct (JSON.digits s1) as [ds r'] eqn:E.
    intros [= _ <-]. apply digits_length in E. simpl. lia.
Qed.

Lemma fraction_length s fr r :
  JSON.fraction s = Some (fr, r) -> (List.length r <= List.length s)%nat.
Proof.
  unfold JSON.fraction. destruct s as [| p s1].
  - intros [= _ <-]. lia.
  - destruct (JSON.eqc p ".").
    + destruct (JSON.digits s1) as [[| d ds] r'] eqn:E; [discriminate |].
      intros [= _ <-]. apply digits_length in E. simpl. lia.
    + intros [= _ <-]. lia.
Qed.

Lemma exponent_length s ex r :
  JSON.exponent s = Some (ex, r) -> (List.length r <= List.length s)%nat.
Proof.
  unfold JSON.exponent. destruct s as [| e s1].
  - intros [= _ <-]. lia.
  - destruct (JSON.eqc e "e" || JSON.eqc e "E").
    + destruct s1 as [| g s2].
      * simpl. discriminate.
      * destruct (JSON.eqc g "+" || JSON.eqc g "-").
        -- destruct (JSON.digits s2) as [[| d ds] r'] eqn:E; [discriminate |].
           intros [= _ <-]. apply digits_length in E. simpl. lia.
        -- destruct (JSON.digits (g :: s2)) as [[| d ds] r'] eqn:E;
             [discriminate |].
           intros [= _ <-]. apply digits_length in E. simpl in *. lia.
    + intros [= _ <-]. lia.
Qed.

Lemma number_length s lex rest :
  JSON.number s = Some (lex, rest) ->
  (List.length rest < List.length s)%nat.
Proof.
  unfold JSON.number.
  destruct (JSON.sign s) as [sg s1] eqn:Hsign.
  destruct (JSON.integer s1) as [[int s2] |] eqn:Hint; [| discriminate].
  destruct (JSON.fraction s2) as [[fr s3] |] eqn:Hfr; [| discriminate].
  destruct (JSON.exponent s3) as [[ex s4] |] eqn:Hex; [| discriminate].
  intros [= _ <-].
  apply sign_length in Hsign. apply integer_length in Hint.
  apply fraction_length in Hfr. apply exponent_length in Hex. lia.
Qed.

Lemma strip_length lit : forall s rest,
  JSON.strip lit s = Some rest ->
  (List.length rest + List.length lit = List.length s)%nat.
Proof.
  induction lit as [| a lit IH]; intros s rest; simpl.
  - intros [= <-]. lia.
  - destruct s as [| b s1]; [discriminate |].
    destruct (JSON.eqc a b); [| discriminate].
    intros H. apply IH in H. simpl. lia.
Qed.

Lemma literal_length lit v s v' rest :
  lit <> EmptyString ->
  JSON.literal lit v s = Some (v', rest) ->
  (List.length rest < List.length s)%nat.
Proof.
  unfold JSON.literal. intros Hlit.
  destruct (JSON.strip (list_ascii_of_string lit) s) as [r |] eqn:E;
    [| discriminate].
  intros [= _ <-]. apply strip_length in E.
  destruct lit; [contradiction | simpl in E; lia].
Qed.

Ltac ws_length H :=
  match type of H with
  | JSON.skip_ws ?s = ?r =>
      let L := fresh "L" in
      pose proof (skip_ws_length s) as L; rewrite H in L; cbn [List.length] in L
  end.

Ltac lens := cbn [List.length] in *; lia.

Ltac refuel :=
  let F := fresh "F" in
  let HF := fresh "HF" in
  intros F HF; destruct F as [| F]; [exfalso; lens |];
  cbn [JSON.value JSON.members JSON.elements];
  repeat match goal with
  | H : ?x = _ |- context [?x] => rewrite H
  end; cbn [negb].

(** The three mutually recursive parsers do not depend on their fuel. *)
Lemma fuel_adequate f' :
  adequate JSON.value f' /\
  (forall acc, adequate (fun f s => JSON.members f s acc) f') /\
  (forall acc, adequate (fun f s => JSON.elements f s acc) f').
Proof.
  induction f' as [| f' (IHv & IHm & IHe)].
  - repeat split; intros; discriminate.
  - split; [| split].
    + intros s v rest Hrun. cbn [JSON.value] in Hrun.
      destruct (JSON.skip_ws s) as [| c rest0] eqn:Hws; [discriminate |].
      ws_length Hws.
      destruct (JSON.eqc c "{") eqn:Hobj.
      { destruct (JSON.skip_ws rest0) as [| c1 rest1] eqn:Hws1;
          [discriminate |].
        ws_length Hws1.
        destruct (JSON.eqc c1 "}") eqn:Hclose.
        - injection Hrun as <- <-. split; [lens |]. refuel. reflexivity.
        - apply IHm in Hrun as [Hlt Hfuel]. split; [lens |]. refuel.
          apply Hfuel. lens. }
      destruct (JSON.eqc c "[") eqn:Harr.
      { destruct (JSON.skip_ws rest0) as [| c1 rest1] eqn:Hws1;
          [discriminate |].
        ws_length Hws1.
        destruct (JSON.eqc c1 "]") eqn:Hclose.
        - injection Hrun as <- <-. split; [lens |]. refuel. reflexivity.
        - apply IHe in Hrun as [Hlt Hfuel]. split; [lens |]. refuel.
          apply Hfuel. lens. }
      destruct (JSON.eqc c dquote) eqn:Hstr.
      { destruct (JSON.chars rest0 []) as [[str rest1] |] eqn:Hchars;
          [| discriminate].
        injection Hrun as <- <-.
        pose proof (chars_length _ _ _ _ _ (Nat.le_refl _) Hchars) as Hlt.
        split; [lens |]. refuel. reflexivity. }
      destruct (JSON.eqc c "t") eqn:Ht.
      { pose proof (literal_length "true" _ _ _ _ ltac:(discriminate) Hrun).
        split; [lens |]. refuel. reflexivity. }
      destruct (JSON.eqc c "f") eqn:Hf.
      { pose proof (literal_length "false" _ _ _ _ ltac:(discriminate) Hrun).
        split; [lens |]. refuel. reflexivity. }
      destruct (JSON.eqc c "n") eqn:Hn.
      { pose proof (literal_length "null" _ _ _ _ ltac:(discriminate) Hrun).
        split; [lens |]. refuel. reflexivity. }
      destruct (JSON.number (c :: rest0)) as [[lex rest1] |] eqn:Hnum;
        [| discriminate].
      injection Hrun as <- <-.
      pose proof (number_length _ _ _ Hnum) as Hlt. cbn [List.length] in Hlt.
      split; [lens |]. refuel. reflexivity.
    + intros acc s v rest Hrun. cbn [JSON.members] in Hrun.
      destruct (JSON.skip_ws s) as [| q rest0] eqn:Hws; [discriminate |].
      ws_length Hws.
      destruct (JSON.eqc q dquote) eqn:Hq; cbn [negb] in Hrun;
        [| discriminate].
      destruct (JSON.chars rest0 []) as [[key rest1] |] eqn:Hchars;
        [| discriminate].
      pose proof (chars_length _ _ _ _ _ (Nat.le_refl _) Hchars) as Hlt1.
      destruct (JSON.skip_ws rest1) as [| colon rest2] eqn:Hws1;
        [discriminate |].
      ws_length Hws1.
      destruct (JSON.eqc colon ":") eqn:Hcolon; cbn [negb] in Hrun;
        [| discriminate].
      destruct (JSON.value f' rest2) as [[v1 rest3] |] eqn:Hvalue;
        [| discriminate].
      apply IHv in Hvalue as [Hlt2 Hfuel2].
      destruct (JSON.skip_ws rest3) as [| sep rest4] eqn:Hws3;
        [discriminate |].
      ws_length Hws3.
      destruct (JSON.eqc sep ",") eqn:Hcomma.
      { apply IHm in Hrun as [Hlt Hfuel]. split; [lens |]. refuel.
        rewrite (Hfuel2 F) by lens. rewrite Hws3, Hcomma.
        apply Hfuel. lens. }
      destruct (JSON.eqc sep "}") eqn:Hclose; [| discriminate].
      injection Hrun as <- <-. split; [lens |]. refuel.
      rewrite (Hfuel2 F) by lens. rewrite Hws3, Hcomma, Hclose. reflexivity.
    + intros acc s v rest Hrun. cbn [JSON.elements] in Hrun.
      destruct (JSON.value f' s) as [[v1 rest1] |] eqn:Hvalue;
        [| discriminate].
      apply IHv in Hvalue as [Hlt1 Hfuel1].
      destruct (JSON.skip_ws rest1) as [| sep rest2] eqn:Hws1;
        [discriminate |].
      ws_length Hws1.
      destruct (JSON.eqc sep ",") eqn:Hcomma.
      { apply IHe in Hrun as [Hlt Hfuel]. split; [lens |]. refuel.
        rewrite (Hfuel1 F) by lens. rewrite Hws1, Hcomma.
        apply Hfuel. lens. }
      destruct (JSON.eqc sep "]") eqn:Hclose; [| discriminate].
      injection Hrun as <- <-. split; [lens |]. refuel.
      rewrite (Hfuel1 F) by lens. rewrite Hws1, Hcomma, Hclose. reflexivity.
Qed.

(** Whatever the fuel, a parse that succeeds is the parse of [JSON.parse]. *)
Lemma parse_adequate text fuel v rest :
  JSON.value fuel (list_ascii_of_string text) = Some (v, rest) ->
  JSON.skip_ws rest = [] ->
  JSON.parse text = Some v.
Proof.
  intros Hrun Hrest. unfold JSON.parse.
  destruct (proj1 (fuel_adequate fuel) _ _ _ Hrun) as [Hlt Hfuel].
  rewrite (Hfuel (S (List.length (list_ascii_of_string text)))) by lens.
  now rewrite Hrest.
Qed.

(* ===================================================================== *)
(** * Plan generation and chat *)
(* ===================================================================== *)

Lemma asStrings_total items :
  forallb (conforms (SchemaString None)) items = true ->
  exists l, asStrings items = Some l.
Proof.
  induction items as [| item rest IH]; simpl; [eauto |].
  intros Hall. apply andb_prop in Hall as [Hitem Hrest].
  destruct item; try discriminate.
  destruct (IH Hrest) as [l ->]. eauto.
Qed.

(** A value that matches the plan schema is a [ProjectPlan]: each of the
    eight members is there, with its type. *)
Lemma conforms_plan j :
  conforms PLAN_SCHEMA j = true -> exists p, asProjectPlan j = Some p.
Proof.
  destruct j as [| | | | | m]; try discriminate.
  unfold PLAN_SCHEMA. cbn [conforms forallb fst snd].
  intros Hall. apply andb_prop in Hall as [Hreq Hprop].
  repeat (apply andb_prop in Hreq as [? Hreq]).
  repeat (apply andb_prop in Hprop as [? Hprop]).
  clear Hreq Hprop.
  unfold asProjectPlan.
  repeat match goal with
  | |- context [member ?k m] =>
      destruct (member k m) as [[| | | | ? |] |];
      try discriminate
  end.
  cbn [asString asStringArray].
  repeat match goal with
  | Hitems : forallb _ ?items = true |- _ =>
      let l := fresh "l" in
      destruct (asStrings_total _ Hitems) as [l ->]; clear Hitems
  end.
  eauto.
Qed.

Lemma noTextError_not_rate_limit :
  isRateLimit (newError "No text response received from Gemini.") = false.
Proof. reflexivity. Qed.

Section PlanAndChat.
Context {W : Type} `{Timer W} `{GenAI W} `{Prompts} `{Engine}.

(** What the operation of plan generation makes of an answer of the
    service. *)
Lemma planOperation_answer imageBase64 style category w response w1 :
  generateContent (planRequest imageBase64 style category) w
  = (Return response, w1) ->
  planOperation imageBase64 style category w =
  match whenTruthy (text response) with
  | None =>
      (Throw (newError "No text response received from Gemini."), w1,
       [EvRequest "gemini-2.5-flash"; EvConsole LogError])
  | Some t =>
      match JSON.parse t with
      | Some plan => (Return plan, w1, [EvRequest "gemini-2.5-flash"])
      | None =>
          (Throw (SyntaxError t), w1,
           [EvRequest "gemini-2.5-flash"; EvConsole LogError])
      end
  end.
Proof.
  intros Hcall.
  unfold planOperation, try_catch, bind, ai_generateContent.
  rewrite Hcall. cbn [model planRequest].
  destruct (whenTruthy (text response)) as [t |]; [| reflexivity].
  destruct (JSON.parse t) as [plan |]; reflexivity.
Qed.

(** C7, as the code has it.  When the service answers, plan generation
    returns the value that [JSON.parse] makes of the text of the answer,
    as it is: a value that matches the plan schema is a [ProjectPlan]
    with its eight members, and no member is looked for, so that a
    value that lacks one is returned all the same.  An answer without
    text is an error thrown to the caller, and so is a text that is not
    JSON (unless the message of that [SyntaxError] reads as a rate-limit
    signal, which the retrier then acts on). *)
Theorem generateProjectPlan_parses imageBase64 style category w response w1 :
  generateContent (planRequest imageBase64 style category) w
  = (Return response, w1) ->
  let r := generateProjectPlan imageBase64 style category w in
  (forall t plan,
     whenTruthy (text response) = Some t ->
     JSON.parse t = Some plan ->
     outcome r = Return plan /\ world r = w1 /\
     (conforms PLAN_SCHEMA plan = true ->
      exists p, asProjectPlan plan = Some p)) /\
  (whenTruthy (text response) = None ->
   outcome r = Throw (newError "No text response received from Gemini.")) /\
  (forall t,
     whenTruthy (text response) = Some t ->
     JSON.parse t = None ->
     isRateLimit (SyntaxError t) = false ->
     outcome r = Throw (SyntaxError t)).
Proof.
  intros Hcall r. subst r.
  pose proof (planOperation_answer _ _ _ _ _ _ Hcall) as Hop.
  unfold generateProjectPlan, retryDefault.
  split; [| split].
  - intros t plan Ht Hparse. rewrite Ht, Hparse in Hop.
    rewrite (retryOperation_first_return _ _ _ _ _ _ _ Hop).
    repeat split. apply conforms_plan.
  - intros Ht. rewrite Ht in Hop.
    rewrite (retryOperation_other_error _ _ _ _ _ _ _ Hop
               noTextError_not_rate_limit).
    reflexivity.
  - intros t Ht Hparse Hrate. rewrite Ht, Hparse in Hop.
    rewrite (retryOperation_other_error _ _ _ _ _ _ _ Hop Hrate).
    reflexivity.
Qed.

(** C8.  When the service answers the chat request, the reply is the
    text of the answer if there is some, and the fixed apology, letter
    for letter, if the text is empty or missing. *)
Theorem sendProjectChat_reply plan history newMessage w response w1 :
  generateContent (chatRequest plan history newMessage) w
  = (Return response, w1) ->
  let r := sendProjectChat plan history newMessage w in
  (text response = Some "" \/ text response = None ->
   outcome r =
   Return "I'm having a little trouble connecting right now. Could you ask that again?") /\
  (forall t, text response = Some t -> t <> "" -> outcome r = Return t) /\
  world r = w1 /\
  invocations (trace r) = 1%nat /\ waits (trace r) = [].
Proof.
  intros Hcall r. subst r.
  assert (Hop : chatOperation plan history newMessage w =
                (Return (match whenTruthy (text response) with
                         | Some t => t
                         | None => chatFallback
                         end), w1, [EvRequest "gemini-2.5-flash"])).
  { unfold chatOperation, try_catch, bind, ai_generateContent.
    rewrite Hcall. reflexivity. }
  unfold sendProjectChat, retryDefault.
  rewrite (retryOperation_first_return _ _ _ _ _ _ _ Hop).
  unfold outcome, world, trace; simpl.
  split; [| split; [| repeat split]].
  - intros [-> | ->]; reflexivity.
  - intros t -> Ht. destruct t; [contradiction | reflexivity].
Qed.
End PlanAndChat.

(* ===================================================================== *)
(** * The plan orchestration *)
(* ===================================================================== *)

Section PlanOrchestration.
Context {W : Type} `{Timer W} `{GenAI W} `{Prompts} `{Engine}.

Lemma property_defined (plan : Json) key (w : W) :
  plan <> JNull ->
  property plan key w = (Return (valueOf plan key), w, []).
Proof. destruct plan; intros Hnull; [contradiction | reflexivity ..]. Qed.

(** The run of [generateFullPlan] once a photo is selected, by what plan
    generation gives. *)
Lemma generateFullPlan_run style initialImage app selected w :
  whenTruthy (selectedImage app) = Some selected ->
  let category := selectedCategory app in
  let started := setErrorMessage "" (setStep Analyzing app) in
  generateFullPlan style initialImage app w =
  match generateProjectPlan selected style category w with
  | (Throw e, w1, t1) =>
      (Return (setStep ErrorState
                 (setErrorMessage
                    match whenTruthy (message e) with
                    | Some m => m
                    | None => "Something went wrong."
                    end started)),
       w1, t1 ++ [EvConsole LogError])
  | (Return plan, w1, t1) =>
      match plan with
      | JNull =>
          (Return (setStep ErrorState
                     (setErrorMessage
                        match whenTruthy (message (TypeError "itemDescription")) with
                        | Some m => m
                        | None => "Something went wrong."
                        end started)),
           w1, t1 ++ [EvConsole LogError])
      | _ =>
          let description := toString (valueOf plan "itemDescription") in
          match whenTruthy initialImage with
          | Some initial =>
              match generateInspirationImages style category description
                      (Some ["slightly angled view"; "detail focused view"])
                      w1 with
              | (Return additional, w2, t2) =>
                  (Return (setStep Results
                             (setResultData
                                (Standard plan (initial :: additional))
                                started)),
                   w2, t1 ++ t2)
              | (Throw e, w2, t2) =>
                  (Return (setStep ErrorState
                             (setErrorMessage
                                match whenTruthy (message e) with
                                | Some m => m
                                | None => "Something went wrong."
                                end started)),
                   w2, t1 ++ t2 ++ [EvConsole LogError])
              end
          | None =>
              match generateInspirationImages style category description
                      None w1 with
              | (Return images, w2, t2) =>
                  (Return (setStep Results
                             (setResultData (Standard plan images) started)),
                   w2, t1 ++ t2)
              | (Throw e, w2, t2) =>
                  (Return (setStep ErrorState
                             (setErrorMessage
                                match whenTruthy (message e) with
                                | Some m => m
                                | None => "Something went wrong."
                                end started)),
                   w2, t1 ++ t2 ++ [EvConsole LogError])
              end
          end
      end
  end.
Proof.
  intros Hselected. cbv zeta.
  unfold generateFullPlan. rewrite Hselected.
  unfold try_catch. unfold bind at 1.
  cbn [selectedCategory setErrorMessage setStep].
  destruct (generateProjectPlan selected style (selectedCategory app) w)
    as [[[plan | e] w1] t1]; [| reflexivity].
  destruct (whenTruthy initialImage) as [initial |].
  - destruct plan;
      unfold bind, property, ret, throw;
      try match goal with
      | |- context [generateInspirationImages ?a ?b ?c ?d w1] =>
          destruct (generateInspirationImages a b c d w1)
            as [[[additional | e] w2] t2]
      end;
      cbn; rewrite ?app_nil_r, <- ?app_assoc; reflexivity.
  - destruct plan;
      unfold bind, property, ret, throw;
      try match goal with
      | |- context [generateInspirationImages ?a ?b ?c ?d w1] =>
          destruct (generateInspirationImages a b c d w1)
            as [[[additional | e] w2] t2]
      end;
      cbn; rewrite ?app_nil_r, <- ?app_assoc; reflexivity.
Qed.



End PlanOrchestration.

(* ===================================================================== *)
(** * Runs against the fake operation and the scripted service *)
(* ===================================================================== *)

#[local] Existing Instance timeless.
#[local] Existing Instance scripted.
#[local] Existing Instance demoPrompts.
#[local] Existing Instance demoEngine.

(** A fake operation that fails twice with status 429 and then succeeds,
    under a budget of three retries and a base delay of 2000 ms. *)
Lemma retryOperation_backoff_witness :
  let r := retryOperation (flaky 2 tooManyRequests "done") 3 2000 0%nat in
  outcome r = Return "done" /\
  waits (trace r) = [2000; 4000] /\
  nth_error (waits (trace r)) 0 = Some (2000 * 2 ^ 0) /\
  nth_error (waits (trace r)) 1 = Some (2000 * 2 ^ 1) /\
  invocations (trace r) = 3%nat.
Proof.
  destruct (@retryOperation_backoff nat string timeless
              (flaky 2 tooManyRequests "done") 2 3 2000 0%nat "done" 3%nat)
    as (Ho & _ & _ & Hnth & Hcalls).
  - apply FTS_fails with (e := tooManyRequests) (w1 := 1%nat) (t := []);
      [reflexivity | reflexivity |].
    apply FTS_fails with (e := tooManyRequests) (w1 := 2%nat) (t := []);
      [reflexivity | reflexivity |].
    apply FTS_succeeds with (t := []). reflexivity.
  - lia.
  - cbv zeta. split; [exact Ho |]. split; [reflexivity |].
    split; [exact (Hnth 1%nat ltac:(lia)) |].
    split; [exact (Hnth 2%nat ltac:(lia)) | exact Hcalls].
Defined.

(** A fake operation that fails with status 400, and one that fails with
    status 429 more often than the budget of one retry allows. *)
Lemma retryOperation_propagates_witness :
  retryOperation (flaky 1 badRequest "done") 3 2000 0%nat
  = (Throw badRequest, 1%nat, [EvCall []]) /\
  outcome (retryOperation (flaky 5 tooManyRequests "done") 1 2000 0%nat)
  = Throw tooManyRequests /\
  invocations
    (trace (retryOperation (flaky 5 tooManyRequests "done") 1 2000 0%nat))
  = 2%nat.
Proof.
  split.
  - destruct (proj1 (@retryOperation_propagates nat string timeless
                       (flaky 1 badRequest "done") 3 2000 0%nat)
                badRequest 1%nat [] eq_refl eq_refl)
      as (Ho & Hw & Ht & _).
    destruct (retryOperation (flaky 1 badRequest "done") 3 2000 0%nat)
      as [[o w] t].
    unfold outcome, world, trace in *; cbn [fst snd] in *.
    now subst.
  - destruct (proj2 (@retryOperation_propagates nat string timeless
                       (flaky 5 tooManyRequests "done") 1 2000 0%nat)
                tooManyRequests 2%nat ltac:(lia))
      as (Ho & _ & Hcalls).
    + apply KF_again with (e1 := tooManyRequests) (w1 := 1%nat) (t := []);
        [reflexivity | reflexivity |].
      apply KF_last with (t := []); reflexivity.
    + split; [exact Ho | exact Hcalls].
Defined.

(** An operation that keeps failing, under a budget of three retries. *)
Lemma retryOperation_terminates_witness :
  (1 <= Z.of_nat
          (invocations
             (trace (retryOperation (flaky 9 tooManyRequests "done") 3 2000
                       0%nat)))
     <= 3 + 1).
Proof.
  exact (proj2 (@retryOperation_terminates nat string timeless
                  (flaky 9 tooManyRequests "done") 3 2000 0%nat
                  ltac:(lia))).
Defined.

(** A service that is busy for five seconds: the third attempt, six
    seconds after the first, goes through. *)
Example retryOperation_waits_for_the_service :
  @retryOperation Z string clock (busyUntil 5000 "done") 3 2000 0
  = (Return "done", 6000,
     [EvCall []; EvConsole LogWarn; EvWait 2000;
      EvCall []; EvConsole LogWarn; EvWait 4000;
      EvCall []]).
Proof. vm_compute. reflexivity. Qed.

Example retryOperation_keeps_failing_run :
  retryOperation (flaky 9 tooManyRequests "done") 3 2000 0%nat
  = (Throw tooManyRequests, 4%nat,
     [EvCall []; EvConsole LogWarn; EvWait 2000;
      EvCall []; EvConsole LogWarn; EvWait 4000;
      EvCall []; EvConsole LogWarn; EvWait 8000;
      EvCall []]).
Proof. vm_compute. reflexivity. Qed.

(** C3, where the code departs from it.  The service refuses an image
    request with an error that carries no [status] and whose message
    names the quota.  [retryOperation] takes this error for a rate-limit
    signal, but line 345 of [generateSingleImage] only looks at [status]:
    the error is swallowed, the image is [null] after one invocation and
    no delay, and the answer that the service had ready for a second
    attempt is never asked for. *)
Theorem generateSingleImage_swallows_quota_signal :
  let script := [Throw quotaExhausted; Return (imageResponse "aW1hZ2U=")] in
  let r := generateSingleImage "Japandi" FurnitureFlipping
             "A small oak side table" "straight on view" None script in
  isRateLimit quotaExhausted = true /\
  rethrown quotaExhausted = false /\
  outcome r = Return None /\
  invocations (trace r) = 1%nat /\
  waits (trace r) = [] /\
  world r = [Return (imageResponse "aW1hZ2U=")].
Proof. vm_compute. repeat split. Qed.

(** The same refusal with [status] 429 is retried, and the image comes. *)
Example generateSingleImage_retries_status_429 :
  let script := [Throw tooManyRequests; Return (imageResponse "aW1hZ2U=")] in
  let r := generateSingleImage "Japandi" FurnitureFlipping
             "A small oak side table" "straight on view" None script in
  outcome r = Return (Some "aW1hZ2U=") /\
  invocations (trace r) = 2%nat /\
  waits (trace r) = [2000].
Proof. vm_compute. repeat split. Qed.

(** Three views, of which the second is refused with status 400: the
    first and the third image, in this order. *)
Example generateInspirationImages_second_view_fails :
  let script :=
    [Return (groundedResponse ["https://example.com/a"]);
     Return (imageResponse "Zmlyc3Q=");
     Throw badRequest;
     Return (imageResponse "dGhpcmQ=")] in
  outcome (generateInspirationImages "Japandi" FurnitureFlipping
             "A small oak side table" None script)
  = Return ["Zmlyc3Q="; "dGhpcmQ="].
Proof. vm_compute. reflexivity. Qed.

(** Five styles, of which the third gets an answer without image part. *)
Example generateSurpriseImages_third_style_empty :
  let script :=
    [Return (groundedResponse ["https://example.com/1"]);
     Return (imageResponse "b25l");
     Return (groundedResponse []);
     Return (imageResponse "dHdv");
     Throw badRequest;
     Return emptyResponse;
     Return (groundedResponse ["https://example.com/4"]);
     Return (imageResponse "Zm91cg==");
     Return (groundedResponse ["https://example.com/5"]);
     Return (imageResponse "Zml2ZQ==")] in
  outcome (generateSurpriseImages
             ["Japandi"; "Farmhouse"; "Coastal"; "Industrial"; "Boho"]
             RoomRefresh "A bright living room" script)
  = Return [mkSuggestion "Japandi" "b25l"; mkSuggestion "Farmhouse" "dHdv";
            mkSuggestion "Industrial" "Zm91cg==";
            mkSuggestion "Boho" "Zml2ZQ=="].
Proof. vm_compute. reflexivity. Qed.

Example reference_lookup_pads :
  outcome (getRealWorldReferences "Japandi" FurnitureFlipping "A table" 3
             [Return (groundedResponse ["https://example.com/a"])])
  = Return ["https://example.com/a"; ""; ""] /\
  outcome (getRealWorldReferences "Japandi" FurnitureFlipping "A table" 1
             [Throw tooManyRequests])
  = Return [""].
Proof. vm_compute. split; reflexivity. Qed.

(** Five chunks, of which one has no [web], one a [web] without [uri] and
    one an empty [uri]: the two URLs that remain come first, in their
    order, before one empty string.  Two URLs for a count of one: the
    first.  A refused call: the empty string. *)
Lemma getRealWorldReferences_exact_witness :
  outcome (getRealWorldReferences "Japandi" FurnitureFlipping "A table" 3
             [Return (mkResponse None
                        [mkCandidate None
                           (Some [mkChunk (Some (Some "https://example.com/a"));
                                  mkChunk None;
                                  mkChunk (Some None);
                                  mkChunk (Some (Some ""));
                                  mkChunk (Some (Some "https://example.com/b"))])])])
  = Return ["https://example.com/a"; "https://example.com/b"; ""] /\
  outcome (getRealWorldReferences "Japandi" FurnitureFlipping "A table" 1
             [Return (groundedResponse
                        ["https://example.com/a"; "https://example.com/b"])])
  = Return ["https://example.com/a"] /\
  outcome (getRealWorldReferences "Japandi" FurnitureFlipping "A table" 1
             [Throw tooManyRequests])
  = Return [""].
Proof.
  split; [| split];
    match goal with
    | |- outcome (getRealWorldReferences ?s ?c ?d ?n ?w) = _ =>
        destruct (@getRealWorldReferences_exact _ timeless scripted
                    demoPrompts s c d n w)
          as (urls & Ho & _ & Hshape);
        vm_compute in Hshape; rewrite Hshape in Ho; exact Ho
    end.
Defined.

Example fullPlanText_parses : JSON.parse fullPlanText = Some fullPlanJson.
Proof. vm_compute. reflexivity. Qed.

Example fullPlanJson_is_plan :
  conforms PLAN_SCHEMA fullPlanJson = true /\
  asProjectPlan fullPlanJson = Some fullPlan.
Proof. vm_compute. split; reflexivity. Qed.

(** C7, where the code departs from it.  The answer is JSON and lacks
    seven of the eight required members: plan generation returns it as
    the plan, and throws nothing. *)
Lemma generateProjectPlan_accepts_missing_members :
  let r := generateProjectPlan "cGhvdG8=" "Japandi" FurnitureFlipping
             [Return (textResponse partialPlanText)] in
  conforms PLAN_SCHEMA partialPlanJson = false /\
  valueOf partialPlanJson "steps" = None /\
  outcome r = Return partialPlanJson /\
  ~ (exists e, outcome r = Throw e).
Proof.
  vm_compute. repeat split. intros [e He]. discriminate He.
Qed.

(** An answer that matches the schema, an answer without text and an
    answer that is not JSON. *)
Lemma generateProjectPlan_parses_witness :
  (outcome (generateProjectPlan "cGhvdG8=" "Japandi" FurnitureFlipping
              [Return (textResponse fullPlanText)])
   = Return fullPlanJson /\
   exists p, asProjectPlan fullPlanJson = Some p) /\
  outcome (generateProjectPlan "cGhvdG8=" "Japandi" FurnitureFlipping
             [Return emptyResponse])
  = Throw (newError "No text response received from Gemini.") /\
  outcome (generateProjectPlan "cGhvdG8=" "Japandi" FurnitureFlipping
             [Return (textResponse "Sorry, no plan today.")])
  = Throw (SyntaxError "Sorry, no plan today.").
Proof.
  split; [| split].
  - destruct (proj1 (@generateProjectPlan_parses _ timeless scripted demoPrompts
                       demoEngine "cGhvdG8=" "Japandi"
                       FurnitureFlipping
                       [Return (textResponse fullPlanText)]
                       (textResponse fullPlanText) [] eq_refl)
                fullPlanText fullPlanJson eq_refl fullPlanText_parses)
      as (Ho & _ & Hplan).
    split; [exact Ho |]. apply Hplan. vm_compute. reflexivity.
  - exact (proj1 (proj2 (@generateProjectPlan_parses _ timeless scripted demoPrompts
                       demoEngine "cGhvdG8=" "Japandi"
                           FurnitureFlipping [Return emptyResponse]
                           emptyResponse [] eq_refl)) eq_refl).
  - refine (proj2 (proj2 (@generateProjectPlan_parses _ timeless scripted demoPrompts
                       demoEngine "cGhvdG8=" "Japandi"
                            FurnitureFlipping
                            [Return (textResponse "Sorry, no plan today.")]
                            (textResponse "Sorry, no plan today.") []
                            eq_refl))
              "Sorry, no plan today." eq_refl _ _);
      vm_compute; reflexivity.
Defined.

(** An answer with an empty text, and an answer with a text. *)
Lemma sendProjectChat_reply_witness :
  outcome (sendProjectChat fullPlanJson
             [mkMessage RoleUser "Which stain?";
              mkMessage RoleModel "An oak stain."]
             "How long does it dry?" [Return (textResponse "")])
  = Return chatFallback /\
  outcome (sendProjectChat fullPlanJson [] "How long does it dry?"
             [Return (textResponse "About two hours.")])
  = Return "About two hours.".
Proof.
  split.
  - refine (proj1 (@sendProjectChat_reply _ timeless scripted demoPrompts
                     demoEngine fullPlanJson _ _
                     [Return (textResponse "")] (textResponse "") []
                     eq_refl) _).
    left. reflexivity.
  - refine (proj1 (proj2 (@sendProjectChat_reply _ timeless scripted demoPrompts
                     demoEngine fullPlanJson _ _
                            [Return (textResponse "About two hours.")]
                            (textResponse "About two hours.") [] eq_refl))
              "About two hours." eq_refl _).
    discriminate.
Defined.



(** Three views against the script of
    [generateInspirationImages_second_view_fails]. *)
Lemma generateInspirationImages_isolates_witness :
  outcome (generateInspirationImages "Japandi" FurnitureFlipping
             "A small oak side table" None
             [Return (groundedResponse ["https://example.com/a"]);
              Return (imageResponse "Zmlyc3Q=");
              Throw badRequest;
              Return (imageResponse "dGhpcmQ=")])
  = Return ["Zmlyc3Q="; "dGhpcmQ="].
Proof.
  destruct (@generateInspirationImages_isolates _ timeless scripted demoPrompts
              "Japandi" FurnitureFlipping "A small oak side table"
              None
              [Return (groundedResponse ["https://example.com/a"]);
               Return (imageResponse "Zmlyc3Q=");
               Throw badRequest;
               Return (imageResponse "dGhpcmQ=")])
    as (references & Hlookup & _ & _ & Hsecond).
  vm_compute in Hlookup. injection Hlookup as <-.
  apply (Hsecond "Zmlyc3Q=" (Return None) "dGhpcmQ=");
    vm_compute; reflexivity.
Defined.

(** Five styles against the script of
    [generateSurpriseImages_third_style_empty]. *)
Lemma generateSurpriseImages_skips_witness :
  outcome (generateSurpriseImages
             ["Japandi"; "Farmhouse"; "Coastal"; "Industrial"; "Boho"]
             RoomRefresh "A bright living room"
             [Return (groundedResponse ["https://example.com/1"]);
              Return (imageResponse "b25l");
              Return (groundedResponse []);
              Return (imageResponse "dHdv");
              Throw badRequest;
              Return emptyResponse;
              Return (groundedResponse ["https://example.com/4"]);
              Return (imageResponse "Zm91cg==");
              Return (groundedResponse ["https://example.com/5"]);
              Return (imageResponse "Zml2ZQ==")])
  = Return [mkSuggestion "Japandi" "b25l"; mkSuggestion "Farmhouse" "dHdv";
            mkSuggestion "Industrial" "Zm91cg==";
            mkSuggestion "Boho" "Zml2ZQ=="].
Proof.
  refine (proj2 (proj2 (proj2
           (@generateSurpriseImages_skips _ timeless scripted demoPrompts
              ["Japandi"; "Farmhouse"; "Coastal"; "Industrial"; "Boho"]
              RoomRefresh "A bright living room"
              [Return (groundedResponse ["https://example.com/1"]);
               Return (imageResponse "b25l");
               Return (groundedResponse []);
               Return (imageResponse "dHdv");
               Throw badRequest;
               Return emptyResponse;
               Return (groundedResponse ["https://example.com/4"]);
               Return (imageResponse "Zm91cg==");
               Return (groundedResponse ["https://example.com/5"]);
               Return (imageResponse "Zml2ZQ==")])))
            "Japandi" "Farmhouse" "Coastal" "Industrial" "Boho"
            "b25l" "dHdv" "Zm91cg==" "Zml2ZQ==" _).
  vm_compute. reflexivity.
Defined.

(* ===================================================================== *)
(** * More on the Backoff Retrier *)
(* ===================================================================== *)

Lemma requests_app t1 t2 : requests (t1 ++ t2) = (requests t1 + requests t2)%nat.
Proof.
  induction t1 as [| e t1 IH]; simpl; [reflexivity |]. rewrite IH. lia.
Qed.

Lemma requestsOf_call inner : requestsOf (EvCall inner) = requests inner.
Proof.
  induction inner as [| e rest IH]; [reflexivity |].
  simpl in *. now rewrite IH.
Qed.

Lemma waits_app t1 t2 : waits (t1 ++ t2) = waits t1 ++ waits t2.
Proof.
  induction t1 as [| e t1 IH]; simpl; [reflexivity |].
  destruct e; simpl; now rewrite IH.
Qed.

Lemma waited_app t1 t2 : waited (t1 ++ t2) = waited t1 + waited t2.
Proof.
  unfold waited. rewrite waits_app.
  induction (waits t1) as [| d l IH]; simpl; [reflexivity |]. rewrite IH. ring.
Qed.

Lemma backoff_total baseDelay k :
  fold_right Z.add 0 (backoff baseDelay k) = baseDelay * (2 ^ Z.of_nat k - 1).
Proof.
  revert baseDelay. induction k as [| k IH]; intros d.
  - simpl. ring.
  - cbn [backoff fold_right]. rewrite IH.
    rewrite Nat2Z.inj_succ, Z.pow_succ_r by lia. ring.
Qed.

Section RetrierInvariants.
Context {W T : Type} `{Timer W}.
Implicit Types (operation : M W T) (retries baseDelay : Z) (w : W).

(** The delays of a run are the first delays of the schedule, one for
    each invocation but the last. *)
Lemma retryOperation_waits operation (n : nat) :
  forall retries baseDelay w, retries <= Z.of_nat n ->
  let r := retryOperation operation retries baseDelay w in
  waits (trace r) = backoff baseDelay (invocations (trace r) - 1).
Proof.
  induction n as [| n IH]; intros retries baseDelay w Hn; cbv zeta;
    rewrite retryOperation_step;
    destruct (operation w) as [[[v | e] w1] t]; try reflexivity.
  - assert (Hb : (0 <? retries) = false) by (apply Z.ltb_ge; lia).
    rewrite Hb. reflexivity.
  - destruct ((0 <? retries) && isRateLimit e); [| reflexivity].
    specialize (IH (retries - 1) (baseDelay * 2) (elapse baseDelay w1)).
    pose proof (retryOperation_invocations_nat operation n (retries - 1)
                  (baseDelay * 2) (elapse baseDelay w1)) as Hcalls.
    destruct (retryOperation operation (retries - 1) (baseDelay * 2)
                (elapse baseDelay w1)) as [[o w2] t2].
    cbv zeta in IH. unfold trace in *. cbn [snd waits invocations] in *.
    rewrite IH by lia.
    destruct (invocations t2) as [| m]; [lia |].
    cbn [Nat.sub]. rewrite Nat.sub_0_r. reflexivity.
Qed.

(** Where a run ends: with what the last invocation of the operation
    gave, and, on a rate-limit signal, only once the budget is spent. *)
Lemma retryOperation_ends operation (n : nat) :
  forall retries baseDelay w, retries <= Z.of_nat n ->
  let r := retryOperation operation retries baseDelay w in
  (exists w0 t0, operation w0 = (outcome r, world r, t0)) /\
  (forall e, outcome r = Throw e -> isRateLimit e = true ->
     Z.of_nat (invocations (trace r)) = Z.max 0 retries + 1).
Proof.
  induction n as [| n IH]; intros retries baseDelay w Hn; cbv zeta;
    rewrite retryOperation_step;
    destruct (operation w) as [[[v | e] w1] t] eqn:Hop.
  - split; [now exists w, t | discriminate].
  - assert (Hb : (0 <? retries) = false) by (apply Z.ltb_ge; lia).
    rewrite Hb. cbn [andb]. split; [now exists w, t |].
    intros e0 _ _. cbn. lia.
  - split; [now exists w, t | discriminate].
  - destruct (0 <? retries) eqn:Hb; cbn [andb].
    + apply Z.ltb_lt in Hb.
      destruct (isRateLimit e) eqn:Hrate.
      * specialize (IH (retries - 1) (baseDelay * 2) (elapse baseDelay w1)).
        destruct (retryOperation operation (retries - 1) (baseDelay * 2)
                    (elapse baseDelay w1)) as [[o w2] t2].
        cbv zeta in IH. unfold outcome, world, trace in *.
        cbn [fst snd invocations] in *.
        destruct IH as [Hlast Hspent]; [lia |].
        split; [exact Hlast |].
        intros e0 He0 Hrate0. specialize (Hspent e0 He0 Hrate0). lia.
      * split; [now exists w, t |].
        unfold outcome; cbn [fst]. intros e0 [= <-] Hrate0. congruence.
    + apply Z.ltb_ge in Hb. split; [now exists w, t |].
      intros e0 _ _. cbn. lia.
Qed.

(** X1.  Whatever the operation does, the delays that [retryOperation]
    has waited are the first delays of its schedule, [baseDelay],
    [2 * baseDelay], [4 * baseDelay] and so on, exactly one before each
    invocation after the first. *)
Theorem retryOperation_schedule operation retries baseDelay w :
  let r := retryOperation operation retries baseDelay w in
  waits (trace r) = backoff baseDelay (invocations (trace r) - 1) /\
  forall i delay,
    nth_error (waits (trace r)) i = Some delay ->
    delay = baseDelay * 2 ^ Z.of_nat i.
Proof.
  cbv zeta.
  pose proof (retryOperation_waits operation (Z.to_nat retries) retries
                baseDelay w ltac:(lia)) as Hwaits.
  cbv zeta in Hwaits. split; [exact Hwaits |].
  intros i delay Hnth. rewrite Hwaits in Hnth.
  assert (Hi : (i < invocations
                      (trace (retryOperation operation retries baseDelay w))
                    - 1)%nat).
  { rewrite <- (backoff_length baseDelay (invocations _ - 1)).
    apply nth_error_Some. rewrite Hnth. discriminate. }
  rewrite (backoff_nth _ _ _ Hi) in Hnth. now injection Hnth as <-.
Qed.

(** The time waited is bounded by the budget. *)
Lemma retryOperation_waited_bound operation retries baseDelay w :
  0 <= baseDelay -> 0 <= retries ->
  0 <= waited (trace (retryOperation operation retries baseDelay w))
    <= baseDelay * (2 ^ retries - 1).
Proof.
  intros Hdelay Hretries.
  pose proof (retryOperation_waits operation (Z.to_nat retries) retries
                baseDelay w ltac:(lia)) as Hwaits.
  pose proof (retryOperation_invocations_nat operation (Z.to_nat retries)
                retries baseDelay w ltac:(lia)) as Hcalls.
  cbv zeta in Hwaits. unfold waited. rewrite Hwaits, backoff_total.
  set (k := (invocations _ - 1)%nat) in *.
  assert (Hk : Z.of_nat k <= retries) by lia.
  assert (Hpow : 1 <= 2 ^ Z.of_nat k <= 2 ^ retries).
  { split; [| apply Z.pow_le_mono_r; lia].
    pose proof (Z.pow_pos_nonneg 2 (Z.of_nat k)). lia. }
  nia.
Qed.

(** X2.  With a delay and a budget that are not negative, the time that
    [retryOperation] waits in all is at most [baseDelay * (2 ^ retries - 1)],
    whatever the operation does: 14 seconds with the defaults. *)
Theorem retryOperation_waited operation retries baseDelay w :
  0 <= baseDelay -> 0 <= retries ->
  0 <= waited (trace (retryOperation operation retries baseDelay w))
    <= baseDelay * (2 ^ retries - 1).
Proof. exact (retryOperation_waited_bound operation retries baseDelay w). Qed.

(** X3.  [retryOperation] adds no result of its own: what it returns or
    throws, and the world it leaves, are those of one invocation of the
    operation, the last; and it throws an error that is a rate-limit
    signal only when the budget is spent, after [retries + 1] invocations
    (one, when the budget is not positive). *)
Theorem retryOperation_last_invocation operation retries baseDelay w :
  let r := retryOperation operation retries baseDelay w in
  (exists w0 t0, operation w0 = (outcome r, world r, t0)) /\
  (forall e, outcome r = Throw e -> isRateLimit e = true ->
     Z.of_nat (invocations (trace r)) = Z.max 0 retries + 1).
Proof.
  exact (retryOperation_ends operation (Z.to_nat retries) retries baseDelay w
           ltac:(lia)).
Qed.
End RetrierInvariants.

(* ===================================================================== *)
(** * Budgets of requests *)
(* ===================================================================== *)

Section Budgets.
Context {W : Type} `{Timer W}.

Lemma atMost_mono {A} (a b : nat) (m : M W A) :
  (a <= b)%nat -> atMost a m -> atMost b m.
Proof. intros Hab Hm w. specialize (Hm w). lia. Qed.

Lemma atMost_ret {A} (x : A) : atMost 0 (ret (W := W) x).
Proof. intros w. apply Nat.le_refl. Qed.

Lemma atMost_throw {A} e : atMost 0 (throw (W := W) (A := A) e).
Proof. intros w. apply Nat.le_refl. Qed.

Lemma atMost_wait ms : atMost 0 (wait (W := W) ms).
Proof. intros w. apply Nat.le_refl. Qed.

Lemma atMost_console level : atMost 0 (emit (W := W) (EvConsole level)).
Proof. intros w. apply Nat.le_refl. Qed.

Lemma atMost_bind {A B} (a b : nat) (m : M W A) (k : A -> M W B) :
  atMost a m -> (forall x, atMost b (k x)) -> atMost (a + b) (bind m k).
Proof.
  intros Hm Hk w. unfold bind. specialize (Hm w).
  destruct (m w) as [[[x | e] w1] t1]; unfold trace in *; cbn [snd] in *.
  - specialize (Hk x w1). destruct (k x w1) as [[o w2] t2].
    unfold trace in Hk; cbn [snd] in *. rewrite requests_app. lia.
  - lia.
Qed.

Lemma atMost_try_catch {A} (a b : nat) (m : M W A) (h : JsError -> M W A) :
  atMost a m -> (forall e, atMost b (h e)) -> atMost (a + b) (try_catch m h).
Proof.
  intros Hm Hh w. unfold try_catch. specialize (Hm w).
  destruct (m w) as [[[x | e] w1] t1]; unfold trace in *; cbn [snd] in *.
  - lia.
  - specialize (Hh e w1). destruct (h e w1) as [[o w2] t2].
    unfold trace in Hh; cbn [snd] in *. rewrite requests_app. lia.
Qed.

Lemma atMost_generateContent `{GenAI W} request :
  atMost 1 (ai_generateContent request).
Proof.
  intros w. unfold ai_generateContent.
  destruct (generateContent request w) as [o w1]. apply Nat.le_refl.
Qed.

(** A budget of [n] retries multiplies the requests of the operation by
    at most [n + 1]. *)
Lemma atMost_retryOperation {T} (operation : M W T) (budget n : nat) :
  atMost budget operation ->
  forall retries baseDelay, retries <= Z.of_nat n ->
  atMost (S n * budget) (retryOperation operation retries baseDelay).
Proof.
  intros Hop. induction n as [| n IH]; intros retries baseDelay Hn w;
    rewrite retryOperation_step; specialize (Hop w);
    destruct (operation w) as [[[v | e] w1] t];
    unfold trace in *; cbn [snd requests] in *;
    rewrite ?requestsOf_call; try nia.
  - assert (Hb : (0 <? retries) = false) by (apply Z.ltb_ge; lia).
    rewrite Hb. cbn [andb snd requests]. rewrite requestsOf_call. lia.
  - destruct ((0 <? retries) && isRateLimit e);
      [| cbn [snd requests]; rewrite requestsOf_call; nia].
    specialize (IH (retries - 1) (baseDelay * 2) ltac:(lia)
                  (elapse baseDelay w1)).
    destruct (retryOperation operation (retries - 1) (baseDelay * 2)
                (elapse baseDelay w1)) as [[o w2] t2].
    unfold trace in IH. cbn [snd requests] in *.
    rewrite requestsOf_call. cbn [requestsOf]. nia.
Qed.
End Budgets.

Lemma rethrown_isRateLimit e : rethrown e = true -> isRateLimit e = true.
Proof.
  unfold rethrown, isRateLimit. intros Hre.
  apply andb_prop in Hre as [_ Hstatus]. now rewrite Hstatus.
Qed.

Section ServiceBudgets.
Context {W : Type} `{Timer W} `{GenAI W} `{Prompts} `{MorePrompts} `{Engine}.

Lemma referencesOperation_trace style category description count w :
  trace (referencesOperation style category description count w)
  = [EvRequest "gemini-2.5-flash"].
Proof.
  unfold referencesOperation, try_catch, bind, ai_generateContent, ret.
  destruct (generateContent _ w) as [[response | e] w1]; reflexivity.
Qed.

(** X4.  Reference lookup never retries and never waits: whatever the
    service does, a rate-limit refusal included, it is asked exactly once
    (its operation catches every error, so that the retrier around it has
    nothing to act on). *)
Theorem getRealWorldReferences_never_retries style category description
    count w :
  let r := getRealWorldReferences style category description count w in
  trace r = [EvCall [EvRequest "gemini-2.5-flash"]] /\
  requests (trace r) = 1%nat /\
  waits (trace r) = [].
Proof.
  cbv zeta.
  assert (Htrace :
    trace (getRealWorldReferences style category description count w)
    = [EvCall [EvRequest "gemini-2.5-flash"]]).
  { destruct (referencesOperation_returns style category description count w)
      as (urls & w1 & t & Hop & _).
    pose proof (referencesOperation_trace style category description count w)
      as Ht.
    rewrite Hop in Ht. unfold trace in Ht; cbn [snd] in Ht. subst t.
    unfold getRealWorldReferences, retryDefault.
    now rewrite (retryOperation_first_return _ _ _ _ _ _ _ Hop). }
  rewrite Htrace. repeat split.
Qed.

Lemma atMost_singleImageOperation style category description viewContext
    referenceUrl :
  atMost 1 (singleImageOperation style category description viewContext
              referenceUrl).
Proof.
  unfold singleImageOperation.
  apply atMost_mono with (a := ((1 + 0) + (0 + 0))%nat); [lia |].
  apply atMost_try_catch.
  - apply atMost_bind; [apply atMost_generateContent |].
    intros response.
    destruct (firstCandidate response) as [candidate |];
      [destruct (contentParts candidate) |]; apply atMost_ret.
  - intros e. apply atMost_bind; [apply atMost_console |].
    intros _. destruct (rethrown e); [apply atMost_throw | apply atMost_ret].
Qed.

Lemma atMost_generateSingleImage style category description viewContext
    referenceUrl :
  atMost 4 (generateSingleImage style category description viewContext
              referenceUrl).
Proof.
  unfold generateSingleImage, retryDefault.
  apply (atMost_retryOperation _ 1 3
           (atMost_singleImageOperation _ _ _ _ _) 3 2000).
  reflexivity.
Qed.

Lemma atMost_getRealWorldReferences style category description count :
  atMost 1 (getRealWorldReferences style category description count).
Proof.
  intros w.
  destruct (getRealWorldReferences_returns style category description count w)
    as (urls & w1 & t & Hrun & _).
  destruct (referencesOperation_returns style category description count w)
    as (urls' & w1' & t' & Hop & _).
  pose proof (referencesOperation_trace style category description count w)
    as Ht.
  rewrite Hop in Ht. unfold trace in Ht; cbn [snd] in Ht. subst t'.
  unfold getRealWorldReferences, retryDefault.
  rewrite (retryOperation_first_return _ _ _ _ _ _ _ Hop).
  apply Nat.le_refl.
Qed.

Lemma singleImageOperation_throws style category description viewContext
    referenceUrl w e w1 t :
  singleImageOperation style category description viewContext referenceUrl w
  = (Throw e, w1, t) ->
  rethrown e = true.
Proof.
  unfold singleImageOperation, try_catch, bind, ai_generateContent.
  destruct (generateContent _ w) as [[response | e0] w2].
  - destruct (firstCandidate response) as [candidate |];
      [destruct (contentParts candidate) |]; discriminate.
  - cbn. destruct (rethrown e0) eqn:Hre; [| discriminate].
    now intros [= <- _ _].
Qed.

(** X5.  A single image costs at most four requests and at most fourteen
    seconds of backoff, whatever the service does. *)
Theorem generateSingleImage_budget style category description viewContext
    referenceUrl w :
  let r := generateSingleImage style category description viewContext
             referenceUrl w in
  (requests (trace r) <= 4)%nat /\
  (1 <= invocations (trace r) <= 4)%nat /\
  0 <= waited (trace r) <= 14000.
Proof.
  cbv zeta. split; [apply atMost_generateSingleImage |].
  unfold generateSingleImage, retryDefault. split.
  - apply (retryOperation_invocations_nat _ 3 3 2000 w). reflexivity.
  - apply (retryOperation_waited_bound _ 3 2000 w); lia.
Qed.

(** X6.  [generateSingleImage] throws only an [Error] of status 429, and
    only when the budget is spent: after four invocations, with the delays
    of 2, 4 and 8 seconds between them.  Every other failure ends in
    [null]. *)
Theorem generateSingleImage_throws_exhausted style category description
    viewContext referenceUrl w e :
  let r := generateSingleImage style category description viewContext
             referenceUrl w in
  outcome r = Throw e ->
  instanceofError e = true /\ status e = Some 429 /\
  invocations (trace r) = 4%nat /\
  waits (trace r) = [2000; 4000; 8000].
Proof.
  cbv zeta. unfold generateSingleImage, retryDefault. intros Hthrow.
  set (operation := singleImageOperation style category description
                      viewContext referenceUrl) in *.
  destruct (retryOperation_ends operation 3 3 2000 w ltac:(reflexivity))
    as [(w0 & t0 & Hlast) Hspent].
  rewrite Hthrow in Hlast.
  pose proof (singleImageOperation_throws _ _ _ _ _ _ _ _ _ Hlast) as Hre.
  specialize (Hspent e Hthrow (rethrown_isRateLimit e Hre)).
  pose proof (retryOperation_waits operation 3 3 2000 w ltac:(reflexivity))
    as Hwaits.
  cbv zeta in Hwaits.
  assert (Hcalls : invocations (trace (retryOperation operation 3 2000 w))
                   = 4%nat) by lia.
  rewrite Hcalls in Hwaits.
  unfold rethrown in Hre. apply andb_prop in Hre as [Herr Hstatus].
  repeat split; try assumption.
  unfold is429 in Hstatus. destruct (status e) as [n |]; [| discriminate].
  apply Z.eqb_eq in Hstatus. now subst n.
Qed.

Lemma singleImageOperation_answers style category description viewContext
    referenceUrl w response w1 :
  generateContent
    (imageRequest style category description viewContext referenceUrl) w
  = (Return response, w1) ->
  singleImageOperation style category description viewContext referenceUrl w
  = (Return (responseImage response), w1, [EvRequest "gemini-2.5-flash-image"]).
Proof.
  intros Hcall.
  unfold singleImageOperation, try_catch, bind, ai_generateContent,
    responseImage.
  rewrite Hcall.
  destruct (firstCandidate response) as [candidate |];
    [destruct (contentParts candidate) as [parts |] |]; reflexivity.
Qed.

(** X7.  When the service refuses an image request with an [Error] of
    status 429 and answers the same request two seconds later, the image
    of that answer is what [generateSingleImage] returns, after one delay
    of two seconds and two requests. *)
Theorem generateSingleImage_retries_once style category description
    viewContext referenceUrl w e w1 response w2 :
  let request := imageRequest style category description viewContext
                   referenceUrl in
  generateContent request w = (Throw e, w1) ->
  rethrown e = true ->
  generateContent request (elapse 2000 w1) = (Return response, w2) ->
  let r := generateSingleImage style category description viewContext
             referenceUrl w in
  outcome r = Return (responseImage response) /\
  world r = w2 /\
  waits (trace r) = [2000] /\
  requests (trace r) = 2%nat.
Proof.
  cbv zeta. intros Hrefused Hre Hanswer.
  unfold generateSingleImage, retryDefault.
  rewrite retryOperation_step.
  rewrite (singleImageOperation_rethrows _ _ _ _ _ _ _ _ Hrefused Hre).
  rewrite (rethrown_isRateLimit e Hre). cbn [Z.ltb Z.compare andb].
  rewrite (retryOperation_first_return _ _ _ _ _ _ _
             (singleImageOperation_answers _ _ _ _ _ _ _ _ Hanswer)).
  repeat split.
Qed.

Lemma atMost_inspirationLoop style category description references views :
  forall i results,
  atMost (4 * List.length views)
    (inspirationLoop style category description references i views results).
Proof.
  induction views as [| view rest IH]; intros i results.
  - apply atMost_ret.
  - cbn [inspirationLoop List.length].
    apply atMost_mono
      with (a := (0 + (((4 + 0) + (0 + 0)) + 4 * List.length rest))%nat);
      [lia |].
    apply atMost_bind.
    + destruct (0 <? i)%nat; [apply atMost_wait | apply atMost_ret].
    + intros _. apply atMost_bind; [| intros results0; apply IH].
      apply atMost_try_catch.
      * apply atMost_bind; [apply atMost_generateSingleImage |].
        intros img. apply atMost_ret.
      * intros e. apply atMost_bind; [apply atMost_console |].
        intros _. apply atMost_ret.
Qed.

Lemma atMost_generateInspirationImages style category description
    customViews :
  atMost (1 + 4 * List.length match customViews with
                              | Some vs => vs
                              | None => defaultViews
                              end)
    (generateInspirationImages style category description customViews).
Proof.
  unfold generateInspirationImages.
  apply atMost_bind; [apply atMost_getRealWorldReferences |].
  intros references. apply atMost_inspirationLoop.
Qed.

(** X8.  A batch of inspiration images costs at most one request for the
    references and four for each view, thirteen for the three default
    views, whatever the service does. *)
Theorem generateInspirationImages_budget style category description
    customViews w :
  let views :=
    match customViews with
    | Some vs => vs
    | None => defaultViews
    end in
  (requests (trace (generateInspirationImages style category description
                      customViews w))
   <= 1 + 4 * List.length views)%nat.
Proof. apply atMost_generateInspirationImages. Qed.

Lemma atMost_surpriseLoop category description styles :
  forall i results,
  atMost (5 * List.length styles)
    (surpriseLoop category description i styles results).
Proof.
  induction styles as [| style rest IH]; intros i results.
  - apply atMost_ret.
  - cbn [surpriseLoop List.length].
    apply atMost_mono
      with (a := (0 + (((1 + (4 + 0)) + (0 + 0)) + 5 * List.length rest))%nat);
      [lia |].
    apply atMost_bind.
    + destruct (0 <? i)%nat; [apply atMost_wait | apply atMost_ret].
    + intros _. apply atMost_bind; [| intros results0; apply IH].
      apply atMost_try_catch.
      * apply atMost_bind; [apply atMost_getRealWorldReferences |].
        intros refs.
        apply atMost_bind; [apply atMost_generateSingleImage |].
        intros image. apply atMost_ret.
      * intros e. apply atMost_bind; [apply atMost_console |].
        intros _. apply atMost_ret.
Qed.

(** X9.  A surprise batch costs at most five requests for each style (one
    for its reference, four for its image), twenty-five for five styles,
    whatever the service does. *)
Theorem generateSurpriseImages_budget styles category description w :
  (requests (trace (generateSurpriseImages styles category description w))
   <= 5 * List.length styles)%nat.
Proof. apply atMost_surpriseLoop. Qed.

Lemma atMost_planOperation imageBase64 style category :
  atMost 1 (planOperation imageBase64 style category).
Proof.
  unfold planOperation.
  apply atMost_mono with (a := ((1 + 0) + (0 + 0))%nat); [lia |].
  apply atMost_try_catch.
  - apply atMost_bind; [apply atMost_generateContent |].
    intros response.
    destruct (whenTruthy (text response)) as [t |]; [| apply atMost_throw].
    destruct (JSON.parse t); [apply atMost_ret | apply atMost_throw].
  - intros e. apply atMost_bind; [apply atMost_console |].
    intros _. apply atMost_throw.
Qed.

Lemma atMost_generateProjectPlan imageBase64 style category :
  atMost 4 (generateProjectPlan imageBase64 style category).
Proof.
  unfold generateProjectPlan, retryDefault.
  apply (atMost_retryOperation _ 1 3 (atMost_planOperation _ _ _) 3 2000).
  reflexivity.
Qed.

Lemma atMost_generateFullPlan style initialImage app :
  atMost 17 (generateFullPlan style initialImage app).
Proof.
  unfold generateFullPlan.
  destruct (whenTruthy (selectedImage app)) as [selected |];
    [| apply atMost_mono with (a := 0%nat); [lia | apply atMost_ret]].
  apply atMost_mono with (a := ((4 + (13 + 0)) + (0 + 0))%nat); [lia |].
  apply atMost_try_catch.
  - apply atMost_bind; [apply atMost_generateProjectPlan |].
    intros plan. apply atMost_bind; [| intros images; apply atMost_ret].
    destruct (whenTruthy initialImage) as [initial |].
    + apply atMost_mono with (a := (0 + (9 + 0))%nat); [lia |].
      apply atMost_bind.
      * unfold property. destruct plan;
          first [apply atMost_throw | apply atMost_ret].
      * intros description.
        apply atMost_bind; [| intros additional; apply atMost_ret].
        apply (atMost_generateInspirationImages _ _ _
                 (Some ["slightly angled view"; "detail focused view"])).
    + apply atMost_mono with (a := (0 + 13)%nat); [lia |].
      apply atMost_bind.
      * unfold property. destruct plan;
          first [apply atMost_throw | apply atMost_ret].
      * intros description.
        apply (atMost_generateInspirationImages _ _ _ None).
  - intros e. apply atMost_bind; [apply atMost_console |].
    intros _. apply atMost_ret.
Qed.

(** X10.  [generateFullPlan] never throws, and with a photo selected it
    never stays in the analysing state: it ends either with the result
    set, the step [results] and an empty error message, or with the step
    [error], a message that is not empty and the result data as they
    were.  The photo and the category are left as they were, and the
    whole costs at most seventeen requests. *)
Theorem generateFullPlan_settles style initialImage app selected w :
  whenTruthy (selectedImage app) = Some selected ->
  let r := generateFullPlan style initialImage app w in
  exists final,
    outcome r = Return final /\
    selectedImage final = selectedImage app /\
    selectedCategory final = selectedCategory app /\
    ((step final = Results /\ errorMessage final = "" /\
      exists plan images, resultData final = Some (Standard plan images))
     \/
     (step final = ErrorState /\ errorMessage final <> "" /\
      resultData final = resultData app)) /\
    (requests (trace r) <= 17)%nat.
Proof.
  intros Hselected. cbv zeta.
  pose proof (atMost_generateFullPlan style initialImage app w) as Hbudget.
  pose proof (generateFullPlan_run style initialImage app selected w
                Hselected) as Hrun.
  cbv zeta in Hrun.
  assert (Hmessage : forall e,
             match whenTruthy (message e) with
             | Some m => m
             | None => "Something went wrong."
             end <> "").
  { intros e. unfold whenTruthy.
    destruct (message e) as [[| c m] |]; cbn; discriminate. }
  assert (Hfailed : forall (e : JsError) (w' : W) (t : list Event),
             generateFullPlan style initialImage app w =
             (Return (setStep ErrorState
                        (setErrorMessage
                           match whenTruthy (message e) with
                           | Some m => m
                           | None => "Something went wrong."
                           end
                           (setErrorMessage "" (setStep Analyzing app)))),
              w', t) ->
             exists final,
               outcome (generateFullPlan style initialImage app w)
               = Return final /\
               selectedImage final = selectedImage app /\
               selectedCategory final = selectedCategory app /\
               ((step final = Results /\ errorMessage final = "" /\
                 exists plan images,
                   resultData final = Some (Standard plan images))
                \/
                (step final = ErrorState /\ errorMessage final <> "" /\
                 resultData final = resultData app)) /\
               (requests (trace (generateFullPlan style initialImage app w))
                <= 17)%nat).
  { intros e w' t Heq. eexists. split; [rewrite Heq; reflexivity |].
    split; [reflexivity |]. split; [reflexivity |].
    split; [| exact Hbudget].
    right. split; [reflexivity |]. split; [apply Hmessage | reflexivity]. }
  assert (Hdone : forall plan images (w' : W) (t : list Event),
             generateFullPlan style initialImage app w =
             (Return (setStep Results
                        (setResultData (Standard plan images)
                           (setErrorMessage "" (setStep Analyzing app)))),
              w', t) ->
             exists final,
               outcome (generateFullPlan style initialImage app w)
               = Return final /\
               selectedImage final = selectedImage app /\
               selectedCategory final = selectedCategory app /\
               ((step final = Results /\ errorMessage final = "" /\
                 exists plan images,
                   resultData final = Some (Standard plan images))
                \/
                (step final = ErrorState /\ errorMessage final <> "" /\
                 resultData final = resultData app)) /\
               (requests (trace (generateFullPlan style initialImage app w))
                <= 17)%nat).
  { intros plan images w' t Heq. eexists. split; [rewrite Heq; reflexivity |].
    split; [reflexivity |]. split; [reflexivity |].
    split; [| exact Hbudget].
    left. split; [reflexivity |]. split; [reflexivity |].
    exists plan, images. reflexivity. }
  destruct (generateProjectPlan selected style (selectedCategory app) w)
    as [[[plan | e] w1] t1]; [| exact (Hfailed _ _ _ Hrun)].
  destruct (whenTruthy initialImage) as [initial |].
  - destruct plan;
      try exact (Hfailed _ _ _ Hrun);
      match type of Hrun with
      | context [generateInspirationImages ?a ?b ?c ?d w1] =>
          destruct (generateInspirationImages a b c d w1)
            as [[[images | e] w2] t2]
      end;
      first [exact (Hfailed _ _ _ Hrun) | exact (Hdone _ _ _ _ Hrun)].
  - destruct plan;
      try exact (Hfailed _ _ _ Hrun);
      match type of Hrun with
      | context [generateInspirationImages ?a ?b ?c ?d w1] =>
          destruct (generateInspirationImages a b c d w1)
            as [[[images | e] w2] t2]
      end;
      first [exact (Hfailed _ _ _ Hrun) | exact (Hdone _ _ _ _ Hrun)].
Qed.

Lemma stepImageOperation_answers description style w response w1 :
  generateContent (stepImageRequest description style) w
  = (Return response, w1) ->
  stepImageOperation description style w
  = (Return (responseImage response), w1, [EvRequest "gemini-2.5-flash-image"]).
Proof.
  intros Hcall.
  unfold stepImageOperation, bind, ai_generateContent, responseImage.
  rewrite Hcall.
  destruct (firstCandidate response) as [candidate |]; [| reflexivity].
  destruct (contentParts candidate) as [[| part parts] |]; reflexivity.
Qed.

Lemma stepImageOperation_refused description style w e w1 :
  generateContent (stepImageRequest description style) w = (Throw e, w1) ->
  stepImageOperation description style w
  = (Throw e, w1, [EvRequest "gemini-2.5-flash-image"]).
Proof.
  intros Hcall. unfold stepImageOperation, bind, ai_generateContent.
  now rewrite Hcall.
Qed.

Lemma atMost_stepImageOperation description style :
  atMost 1 (stepImageOperation description style).
Proof.
  unfold stepImageOperation.
  apply atMost_mono with (a := (1 + 0)%nat); [lia |].
  apply atMost_bind; [apply atMost_generateContent |].
  intros response.
  destruct (firstCandidate response) as [candidate |];
    [destruct (contentParts candidate) as [parts |];
       [destruct (0 <? List.length parts)%nat |] |];
    apply atMost_ret.
Qed.

Lemma stepImageOperation_truthy description style w image w1 t data :
  stepImageOperation description style w = (Return image, w1, t) ->
  image = Some data -> whenTruthy (Some data) = Some data.
Proof.
  unfold stepImageOperation, bind, ai_generateContent.
  destruct (generateContent _ w) as [[response | e] w2]; [| discriminate].
  destruct (firstCandidate response) as [candidate |];
    [destruct (contentParts candidate) as [parts |];
       [destruct (0 <? List.length parts)%nat |] |];
    cbn; intros [= <- _ _] Himage; try discriminate.
  exact (firstImage_truthy _ _ Himage).
Qed.

(** X11.  [generateStepImage] is best effort: it never throws, it asks
    the service at most twice, it waits at most once, three seconds, and
    an image that it returns is not empty. *)
Theorem generateStepImage_best_effort description style w :
  let r := generateStepImage description style w in
  exists image,
    outcome r = Return image /\
    (forall data, image = Some data -> data <> "") /\
    (requests (trace r) <= 2)%nat /\
    (waits (trace r) = [] \/ waits (trace r) = [3000]).
Proof.
  cbv zeta. unfold generateStepImage, try_catch.
  set (operation := stepImageOperation description style).
  unfold bind, console_warn, emit, ret.
  pose proof (atMost_retryOperation operation 1 1
                (atMost_stepImageOperation description style) 1 3000
                ltac:(reflexivity) w) as Hbudget.
  pose proof (retryOperation_waits operation 1 1 3000 w ltac:(reflexivity))
    as Hwaits.
  pose proof (retryOperation_invocations_nat operation 1 1 3000 w
                ltac:(reflexivity)) as Hcalls.
  pose proof (retryOperation_returns operation
                (fun image => forall data,
                   image = Some data -> whenTruthy (Some data) = Some data)
                (fun w0 v w1 t Hop data =>
                   stepImageOperation_truthy _ _ _ _ _ _ data Hop)
                1 1 3000 w) as Htruthy.
  cbv zeta in Hwaits.
  destruct (retryOperation operation 1 3000 w) as [[[image | e] w1] t].
  - exists image. unfold outcome, trace in *; cbn [fst snd] in *.
    split; [reflexivity |]. split.
    + intros data ->. specialize (Htruthy _ ltac:(reflexivity) eq_refl data
                                    eq_refl).
      intros ->. discriminate Htruthy.
    + split; [lia |].
      rewrite Hwaits.
      destruct (invocations t) as [| [| [| m]]]; cbn; auto; lia.
  - exists None. unfold outcome, trace in *; cbn [fst snd] in *.
    split; [reflexivity |]. split; [discriminate |].
    rewrite requests_app, waits_app. cbn [requests requestsOf waits List.app].
    rewrite app_nil_r.
    split; [lia |].
    rewrite Hwaits.
    destruct (invocations t) as [| [| [| m]]]; cbn; auto; lia.
Qed.

(** X12.  [generateStepImage] has no catch of its own inside the retrier,
    so that every rate-limit signal is retried, one that is told by its
    message only included: when the service refuses the request with such
    an error and answers three seconds later, the image of the answer is
    returned.  A refusal that is no rate-limit signal gives [null] after a
    single request. *)
Theorem generateStepImage_retries_once description style w e w1 :
  generateContent (stepImageRequest description style) w = (Throw e, w1) ->
  let r := generateStepImage description style w in
  (isRateLimit e = true ->
   forall response w2,
     generateContent (stepImageRequest description style) (elapse 3000 w1)
     = (Return response, w2) ->
     outcome r = Return (responseImage response) /\
     world r = w2 /\ waits (trace r) = [3000] /\
     requests (trace r) = 2%nat) /\
  (isRateLimit e = false ->
   outcome r = Return None /\ world r = w1 /\ waits (trace r) = [] /\
   requests (trace r) = 1%nat).
Proof.
  intros Hrefused. cbv zeta. unfold generateStepImage, try_catch. split.
  - intros Hrate response w2 Hanswer.
    rewrite retryOperation_step.
    rewrite (stepImageOperation_refused _ _ _ _ _ Hrefused), Hrate.
    cbn [Z.ltb Z.compare andb].
    rewrite (retryOperation_first_return _ _ _ _ _ _ _
               (stepImageOperation_answers _ _ _ _ _ Hanswer)).
    repeat split.
  - intros Hrate.
    rewrite (retryOperation_other_error _ _ _ _ _ _ _
               (stepImageOperation_refused _ _ _ _ _ Hrefused) Hrate).
    repeat split.
Qed.

Lemma surpriseOperation_answer imageBase64 category w response w1 :
  generateContent (surpriseRequest imageBase64 category) w
  = (Return response, w1) ->
  surpriseOperation imageBase64 category w =
  match whenTruthy (text response) with
  | None =>
      (Throw (newError "No text response received."), w1,
       [EvRequest "gemini-2.5-flash"; EvConsole LogError])
  | Some t =>
      match JSON.parse t with
      | Some analysis => (Return analysis, w1, [EvRequest "gemini-2.5-flash"])
      | None =>
          (Throw (SyntaxError t), w1,
           [EvRequest "gemini-2.5-flash"; EvConsole LogError])
      end
  end.
Proof.
  intros Hcall.
  unfold surpriseOperation, try_catch, bind, ai_generateContent.
  rewrite Hcall. cbn [model surpriseRequest].
  destruct (whenTruthy (text response)) as [t |]; [| reflexivity].
  destruct (JSON.parse t) as [analysis |]; reflexivity.
Qed.

(** X13.  When the service answers, [generateSurpriseAnalysis] returns the
    value that [JSON.parse] makes of the text, whatever its members are
    (neither [styles] nor [itemDescription] is looked for), after a single
    request; an answer without text is the error
    [No text response received.], thrown at once. *)
Theorem generateSurpriseAnalysis_answer imageBase64 category w response w1 :
  generateContent (surpriseRequest imageBase64 category) w
  = (Return response, w1) ->
  let r := generateSurpriseAnalysis imageBase64 category w in
  (forall t analysis,
     whenTruthy (text response) = Some t ->
     JSON.parse t = Some analysis ->
     outcome r = Return analysis /\ world r = w1 /\
     requests (trace r) = 1%nat) /\
  (whenTruthy (text response) = None ->
   outcome r = Throw (newError "No text response received.") /\
   requests (trace r) = 1%nat /\ waits (trace r) = []).
Proof.
  intros Hcall. cbv zeta.
  pose proof (surpriseOperation_answer _ _ _ _ _ Hcall) as Hop.
  unfold generateSurpriseAnalysis, retryDefault. split.
  - intros t analysis Ht Hparse. rewrite Ht, Hparse in Hop.
    rewrite (retryOperation_first_return _ _ _ _ _ _ _ Hop).
    repeat split.
  - intros Ht. rewrite Ht in Hop.
    rewrite (retryOperation_other_error _ _ _ _ _ _ _ Hop eq_refl).
    repeat split.
Qed.

Lemma chatOperation_run plan history newMessage w :
  chatOperation plan history newMessage w =
  match generateContent (chatRequest plan history newMessage) w with
  | (Return response, w1) =>
      (Return match whenTruthy (text response) with
              | Some t => t
              | None => chatFallback
              end, w1, [EvRequest "gemini-2.5-flash"])
  | (Throw e, w1) =>
      (Throw e, w1, [EvRequest "gemini-2.5-flash"; EvConsole LogError])
  end.
Proof.
  unfold chatOperation, try_catch, bind, ai_generateContent.
  destruct (generateContent _ w) as [[response | e] w1]; reflexivity.
Qed.

(** What a chat ends with comes from the service. *)
Lemma sendProjectChat_origin plan history newMessage w :
  let r := sendProjectChat plan history newMessage w in
  (forall reply, outcome r = Return reply ->
     reply <> "" /\
     exists w0 response w1,
       generateContent (chatRequest plan history newMessage) w0
       = (Return response, w1) /\
       reply = match whenTruthy (text response) with
               | Some t => t
               | None => chatFallback
               end) /\
  (forall e, outcome r = Throw e ->
     exists w0 w1,
       generateContent (chatRequest plan history newMessage) w0
       = (Throw e, w1)).
Proof.
  cbv zeta. unfold sendProjectChat, retryDefault.
  destruct (retryOperation_ends (chatOperation plan history newMessage)
              3 3 2000 w ltac:(reflexivity)) as [(w0 & t0 & Hlast) _].
  rewrite chatOperation_run in Hlast.
  destruct (generateContent (chatRequest plan history newMessage) w0)
    as [[response | e0] w1] eqn:Hcall; injection Hlast as Ho _ _.
  - split; [| intros e He; congruence].
    intros reply Hreply. rewrite Hreply in Ho. injection Ho as <-.
    split; [| now exists w0, response, w1].
    unfold whenTruthy.
    destruct (text response) as [[| c t] |]; cbn; discriminate.
  - split; [intros reply Hreply; congruence |].
    intros e He. rewrite He in Ho. injection Ho as <-.
    now exists w0, w1.
Qed.

(** X14.  [sendProjectChat] adds nothing of its own but the apology: a
    reply that it returns is never empty, and is the text of an answer of
    the service or, when that text is empty or missing, the fixed apology;
    an error that it throws is an error that the service has thrown to
    the chat request, unchanged. *)
Theorem sendProjectChat_faithful plan history newMessage w :
  let r := sendProjectChat plan history newMessage w in
  (forall reply, outcome r = Return reply ->
     reply <> "" /\
     exists w0 response w1,
       generateContent (chatRequest plan history newMessage) w0
       = (Return response, w1) /\
       reply = match whenTruthy (text response) with
               | Some t => t
               | None => chatFallback
               end) /\
  (forall e, outcome r = Throw e ->
     exists w0 w1,
       generateContent (chatRequest plan history newMessage) w0
       = (Throw e, w1)).
Proof. exact (sendProjectChat_origin plan history newMessage w). Qed.
End ServiceBudgets.

Lemma asStrings_conforms items l :
  asStrings items = Some l ->
  forallb (conforms (SchemaString None)) items = true.
Proof.
  revert l. induction items as [| item rest IH]; intros l; [reflexivity |].
  cbn [asStrings forallb].
  destruct item; try discriminate.
  destruct (asStrings rest) as [l' |]; [| discriminate].
  intros _. cbn. exact (IH l' eq_refl).
Qed.

(** X15.  [PLAN_SCHEMA] and the interface [ProjectPlan] agree: a parsed
    value matches the schema exactly when it is a [ProjectPlan], with each
    of the eight members of the interface there and of its type. *)
Theorem PLAN_SCHEMA_is_ProjectPlan j :
  conforms PLAN_SCHEMA j = true <-> exists p, asProjectPlan j = Some p.
Proof.
  split; [apply conforms_plan |].
  intros [p Hplan]. destruct j as [| | | | | m]; try discriminate.
  unfold asProjectPlan, asString, asStringArray in Hplan.
  unfold PLAN_SCHEMA. cbn [conforms forallb fst snd].
  repeat match type of Hplan with
  | context [match ?x with _ => _ end] =>
      lazymatch x with
      | context [match _ with _ => _ end] => fail
      | _ => destruct x eqn:?; try discriminate Hplan
      end
  end.
  repeat match goal with
  | E : asStrings ?items = Some _ |- _ =>
      apply asStrings_conforms in E; cbn [conforms] in E; rewrite E; clear E
  end.
  reflexivity.
Qed.

(* ===================================================================== *)
(** * White space *)
(* ===================================================================== *)

Ltac split_spaces H :=
  unfold afterSpace in H; cbv zeta in H;
  repeat match type of H with
         | context [if ?b then _ else _] => destruct b eqn:?
         end;
  try discriminate H.

Lemma afterSpace_app a b rest :
  afterSpace a = Some rest -> afterSpace (a ++ b) = Some (rest ++ b).
Proof.
  intros Ha.
  destruct a as [| c [| d [| e a']]]; cbn [List.app];
    unfold afterSpace; cbv zeta; split_spaces Ha;
    injection Ha as <-; reflexivity.
Qed.

(** The white space that [afterSpace] has passed. *)
Lemma afterSpace_prefix s rest :
  afterSpace s = Some rest ->
  exists space, s = space ++ rest /\ afterSpace space = Some [] /\
                space <> [].
Proof.
  intros Hs.
  destruct s as [| c [| d [| e s']]]; split_spaces Hs;
    injection Hs as <-;
    (exists [c] + exists [c; d] + exists [c; d; e]);
    (split; [reflexivity |]); (split; [| discriminate]);
    unfold afterSpace; cbv zeta;
    repeat match goal with
           | E : ?b = _ |- context [?b] => rewrite E
           end; reflexivity.
Qed.

Lemma afterSpace_shorter s rest :
  afterSpace s = Some rest -> (List.length rest < List.length s)%nat.
Proof.
  intros Hs. destruct (afterSpace_prefix _ _ Hs) as (space & -> & _ & Hne).
  rewrite length_app. destruct space; [contradiction | cbn; lia].
Qed.

Lemma skipSpaces_enough fuel1 : forall fuel2 s,
  (List.length s <= fuel1)%nat -> (List.length s <= fuel2)%nat ->
  skipSpaces fuel1 s = skipSpaces fuel2 s.
Proof.
  induction fuel1 as [| fuel1 IH]; intros fuel2 s H1 H2.
  - destruct s; [| cbn in H1; lia]. destruct fuel2; reflexivity.
  - destruct fuel2 as [| fuel2].
    { destruct s; [| cbn in H2; lia]. reflexivity. }
    cbn [skipSpaces]. destruct (afterSpace s) as [rest |] eqn:Hs;
      [| reflexivity].
    apply afterSpace_shorter in Hs. apply IH; lia.
Qed.

(** [trimStart] without its fuel. *)
Lemma trimStart_step s :
  trimStart s = match afterSpace s with
                | Some rest => trimStart rest
                | None => s
                end.
Proof.
  unfold trimStart. destruct s as [| c s]; [reflexivity |].
  cbn [List.length skipSpaces].
  destruct (afterSpace (c :: s)) as [rest |] eqn:Hs; [| reflexivity].
  apply afterSpace_shorter in Hs. cbn [List.length] in Hs.
  apply skipSpaces_enough; lia.
Qed.

Lemma allSpace_step s :
  allSpace s = match afterSpace s with
               | Some rest => allSpace rest
               | None => match s with [] => true | _ :: _ => false end
               end.
Proof.
  unfold allSpace. rewrite trimStart_step.
  destruct (afterSpace s); reflexivity.
Qed.

Lemma trimStart_head s : afterSpace (trimStart s) = None.
Proof.
  remember (List.length s) as n eqn:Hn. revert s Hn.
  induction n as [n IH] using lt_wf_ind. intros s ->.
  rewrite trimStart_step. destruct (afterSpace s) as [rest |] eqn:Hs;
    [| exact Hs].
  eapply IH; [| reflexivity]. now apply afterSpace_shorter.
Qed.

Lemma allSpace_app a : forall b,
  allSpace a = true -> allSpace b = true -> allSpace (a ++ b) = true.
Proof.
  remember (List.length a) as n eqn:Hn. revert a Hn.
  induction n as [n IH] using lt_wf_ind. intros a -> b Ha Hb.
  rewrite allSpace_step in Ha.
  destruct (afterSpace a) as [rest |] eqn:Hrest.
  - rewrite allSpace_step, (afterSpace_app _ b _ Hrest).
    eapply IH; [| reflexivity | exact Ha | exact Hb].
    now apply afterSpace_shorter.
  - destruct a; [exact Hb | discriminate].
Qed.

Lemma trimStart_split s :
  exists spaces, s = spaces ++ trimStart s /\ allSpace spaces = true.
Proof.
  remember (List.length s) as n eqn:Hn. revert s Hn.
  induction n as [n IH] using lt_wf_ind. intros s ->.
  rewrite trimStart_step. destruct (afterSpace s) as [rest |] eqn:Hs.
  - destruct (afterSpace_prefix _ _ Hs) as (space & -> & Hspace & _).
    destruct (IH _ (afterSpace_shorter _ _ Hs) rest eq_refl)
      as (spaces & Hrest & Hspaces).
    exists (space ++ spaces). split.
    + rewrite <- app_assoc, <- Hrest. reflexivity.
    + apply allSpace_app; [| exact Hspaces].
      rewrite allSpace_step, Hspace. reflexivity.
  - exists []. split; reflexivity.
Qed.

Lemma trimEnd_split s :
  exists spaces, s = trimEnd s ++ spaces /\ allSpace spaces = true.
Proof.
  induction s as [| c s IH]; [exists []; split; reflexivity |].
  cbn [trimEnd]. destruct (allSpace (c :: s)) eqn:Hall.
  - exists (c :: s). split; [reflexivity | exact Hall].
  - destruct IH as (spaces & Hs & Hspaces). exists spaces.
    split; [| exact Hspaces]. cbn [List.app]. now rewrite <- Hs.
Qed.

Lemma trimEnd_tail s : forall before spaces,
  trimEnd s = before ++ spaces -> allSpace spaces = true -> spaces = [].
Proof.
  induction s as [| c s IH]; intros before spaces Heq Hall.
  - cbn in Heq. symmetry in Heq. apply app_eq_nil in Heq. tauto.
  - cbn [trimEnd] in Heq. destruct (allSpace (c :: s)) eqn:Hcs.
    { symmetry in Heq. apply app_eq_nil in Heq. tauto. }
    destruct before as [| b before].
    + cbn [List.app] in Heq. subst spaces.
      destruct (trimEnd_split s) as (rest & Hs & Hrest).
      pose proof (allSpace_app _ _ Hall Hrest) as Hboth.
      cbn [List.app] in Hboth. rewrite <- Hs in Hboth. congruence.
    + cbn [List.app] in Heq. injection Heq as _ Heq.
      exact (IH _ _ Heq Hall).
Qed.

Lemma trimEnd_head s : afterSpace s = None -> afterSpace (trimEnd s) = None.
Proof.
  intros Hs. destruct (afterSpace (trimEnd s)) as [rest |] eqn:Hrest;
    [| reflexivity].
  destruct (trimEnd_split s) as (spaces & Heq & _).
  apply (afterSpace_app _ spaces) in Hrest. rewrite <- Heq in Hrest.
  congruence.
Qed.

(** What [trim] returns has no white space at either end, and is the text
    without white space that it started and ended with. *)
Lemma trim_trimmed (s : string) :
  trimmed (list_ascii_of_string (trim s)) /\
  exists before after,
    list_ascii_of_string s
    = before ++ list_ascii_of_string (trim s) ++ after /\
    allSpace before = true /\ allSpace after = true.
Proof.
  unfold trim. rewrite list_ascii_of_string_of_list_ascii. split.
  - split; [apply trimEnd_head, trimStart_head | apply trimEnd_tail].
  - destruct (trimStart_split (list_ascii_of_string s))
      as (before & Hs & Hbefore).
    destruct (trimEnd_split (trimStart (list_ascii_of_string s)))
      as (after & Hend & Hafter).
    exists before, after. rewrite <- Hend. auto.
Qed.

(** A text is blank when [trim] leaves nothing of it. *)
Lemma trim_blank (s : string) :
  trim s = "" <-> allSpace (list_ascii_of_string s) = true.
Proof.
  unfold trim, allSpace.
  pose proof (trimStart_head (list_ascii_of_string s)) as Hhead.
  destruct (trimStart (list_ascii_of_string s)) as [| c l] eqn:Hl.
  - split; reflexivity.
  - split; [| discriminate]. cbn [trimEnd].
    rewrite allSpace_step, Hhead. cbn. discriminate.
Qed.

(* ===================================================================== *)
(** * Properties of the style analysis and of the chat widget *)
(* ===================================================================== *)

Section StyleAndChatProperties.
Context {W : Type} `{Timer W} `{GenAI W} `{Prompts} `{MorePrompts} `{Engine}.

Lemma styleOperation_run inspirationBase64 w :
  styleOperation inspirationBase64 w =
  match generateContent (styleRequest inspirationBase64) w with
  | (Return response, w1) =>
      match whenTruthy (text response) with
      | Some t => (Return (trim t), w1, [EvRequest "gemini-2.5-flash"])
      | None =>
          (Throw (newError "Could not analyze inspiration image."), w1,
           [EvRequest "gemini-2.5-flash"; EvConsole LogError])
      end
  | (Throw e, w1) =>
      (Throw e, w1, [EvRequest "gemini-2.5-flash"; EvConsole LogError])
  end.
Proof.
  unfold styleOperation, try_catch, bind, ai_generateContent.
  destruct (generateContent _ w) as [[response | e] w1]; [| reflexivity].
  destruct (whenTruthy (text response)); reflexivity.
Qed.

Lemma analyzeStyleFromImage_run inspirationBase64 w response w1 :
  generateContent (styleRequest inspirationBase64) w
  = (Return response, w1) ->
  analyzeStyleFromImage inspirationBase64 w =
  match whenTruthy (text response) with
  | Some t => (Return (trim t), w1, [EvCall [EvRequest "gemini-2.5-flash"]])
  | None =>
      (Throw (newError "Could not analyze inspiration image."), w1,
       [EvCall [EvRequest "gemini-2.5-flash"; EvConsole LogError]])
  end.
Proof.
  intros Hcall. pose proof (styleOperation_run inspirationBase64 w) as Hop.
  rewrite Hcall in Hop. unfold analyzeStyleFromImage, retryDefault.
  destruct (whenTruthy (text response)) as [t |].
  - now rewrite (retryOperation_first_return _ _ _ _ _ _ _ Hop).
  - now rewrite (retryOperation_other_error _ _ _ _ _ _ _ Hop eq_refl).
Qed.

(** X16.  When the service answers the style request, the style is the
    text of the answer without the white space around it, so that it
    neither starts nor ends with white space; an answer of white space
    only gives the empty style, and an answer without text is the error
    of line 196, which is not retried. *)
Theorem analyzeStyleFromImage_answer inspirationBase64 w response w1 :
  generateContent (styleRequest inspirationBase64) w
  = (Return response, w1) ->
  let r := analyzeStyleFromImage inspirationBase64 w in
  (forall t, text response = Some t -> t <> "" ->
     exists style before after,
       outcome r = Return style /\
       trimmed (list_ascii_of_string style) /\
       list_ascii_of_string t
       = before ++ list_ascii_of_string style ++ after /\
       allSpace before = true /\ allSpace after = true /\
       (allSpace (list_ascii_of_string t) = true -> style = "")) /\
  (text response = None \/ text response = Some "" ->
   outcome r = Throw (newError "Could not analyze inspiration image.")) /\
  world r = w1 /\
  requests (trace r) = 1%nat /\ waits (trace r) = [].
Proof.
  intros Hcall r. subst r.
  rewrite (analyzeStyleFromImage_run _ _ _ _ Hcall).
  split; [| split].
  - intros t -> Ht. destruct t as [| c t]; [contradiction |].
    cbn [whenTruthy truthy]. cbn -[trim].
    destruct (trim_trimmed (String c t))
      as (Htrimmed & before & after & Hsplit & Hbefore & Hafter).
    exists (trim (String c t)), before, after.
    repeat split; try assumption; try apply Htrimmed.
    exact (proj2 (trim_blank (String c t))).
  - intros [-> | ->]; reflexivity.
  - destruct (whenTruthy (text response)); repeat split.
Qed.

Lemma atMost_textCall {T} (request : Request)
    (k : Response -> M W T) (h : JsError -> M W T) :
  (forall response, atMost 0 (k response)) ->
  (forall error, atMost 0 (h error)) ->
  atMost 4 (retryDefault
              (try_catch (response <- ai_generateContent request ;;
                          k response) h)).
Proof.
  intros Hk Hh. unfold retryDefault.
  apply (atMost_retryOperation _ 1 3); [| reflexivity].
  apply (atMost_try_catch 1 0); [| exact Hh].
  apply (atMost_bind 1 0); [apply atMost_generateContent | exact Hk].
Qed.

Lemma atMost_rethrow {T} error :
  atMost 0 (console_error ;; throw (W := W) (A := T) error).
Proof.
  apply (atMost_bind 0 0); [apply atMost_console | intros; apply atMost_throw].
Qed.

Lemma atMost_analyzeStyleFromImage inspirationBase64 :
  atMost 4 (analyzeStyleFromImage inspirationBase64).
Proof.
  apply atMost_textCall; [| intros; apply atMost_rethrow].
  intros response. destruct (whenTruthy (text response));
    [apply atMost_ret | apply atMost_throw].
Qed.

Lemma atMost_generateSurpriseAnalysis imageBase64 category :
  atMost 4 (generateSurpriseAnalysis imageBase64 category).
Proof.
  apply atMost_textCall; [| intros; apply atMost_rethrow].
  intros response. destruct (whenTruthy (text response)) as [t |];
    [| apply atMost_throw].
  destruct (JSON.parse t); [apply atMost_ret | apply atMost_throw].
Qed.

Lemma atMost_sendProjectChat plan history newMessage :
  atMost 4 (sendProjectChat plan history newMessage).
Proof.
  apply atMost_textCall; [| intros; apply atMost_rethrow].
  intros response. apply atMost_ret.
Qed.

(** X17.  Each of the four text calls of the service module stays within
    the default budget of the retrier, whatever the service does: at most
    four requests and at most fourteen seconds of backoff. *)
Theorem textCalls_budget :
  (forall imageBase64 style category,
     withinRetryBudget (generateProjectPlan imageBase64 style category)) /\
  (forall inspirationBase64,
     withinRetryBudget (analyzeStyleFromImage inspirationBase64)) /\
  (forall imageBase64 category,
     withinRetryBudget (generateSurpriseAnalysis imageBase64 category)) /\
  (forall plan history newMessage,
     withinRetryBudget (sendProjectChat plan history newMessage)).
Proof.
  repeat split;
    try (apply atMost_generateProjectPlan
         || apply atMost_analyzeStyleFromImage
         || apply atMost_generateSurpriseAnalysis
         || apply atMost_sendProjectChat);
    apply (retryOperation_waited_bound _ 3 2000 w); lia.
Qed.

Lemma blank_input (s : string) :
  negb (truthy (Some (trim s))) = allSpace (list_ascii_of_string s).
Proof.
  pose proof (trim_blank s) as [Hto Hfrom].
  destruct (allSpace (list_ascii_of_string s)).
  - now rewrite Hfrom.
  - destruct (trim s); [now specialize (Hto eq_refl) | reflexivity].
Qed.

Lemma handleSend_run plan chat w :
  handleSend plan chat w =
  if allSpace (list_ascii_of_string (input chat)) || isSending chat
  then (Return chat, w, [])
  else
    let r := sendProjectChat plan (messages chat) (input chat) w in
    (Return (mkChat (messages chat ++
                       [mkMessage RoleUser (input chat);
                        match outcome r with
                        | Return reply => mkMessage RoleModel reply
                        | Throw _ => chatApology
                        end]) "" false),
     world r, trace r).
Proof.
  unfold handleSend. rewrite blank_input.
  destruct (allSpace _ || isSending chat); [reflexivity |].
  cbv zeta. unfold bind, try_catch, ret, outcome, world, trace.
  destruct (sendProjectChat plan (messages chat) (input chat) w)
    as [[[reply | e] w1] t]; cbn;
    unfold setIsSending, setInput, addMessage; cbn;
    rewrite <- app_assoc, ?app_nil_r; reflexivity.
Qed.

(** X18.  [handleSend] never throws.  With a blank input, or while a
    question is in flight, it does nothing at all: no message, no request.
    Otherwise the conversation grows by exactly the question, as typed,
    and one reply of the model that is not empty; the input is cleared,
    the sending flag is lowered, and at most four requests were sent. *)
Theorem handleSend_transcript plan chat w :
  let r := handleSend plan chat w in
  exists final,
    outcome r = Return final /\
    if allSpace (list_ascii_of_string (input chat)) || isSending chat
    then final = chat /\ world r = w /\ trace r = []
    else exists reply,
        reply <> "" /\
        messages final =
        messages chat ++ [mkMessage RoleUser (input chat);
                          mkMessage RoleModel reply] /\
        input final = "" /\ isSending final = false /\
        (requests (trace r) <= 4)%nat.
Proof.
  cbv zeta. rewrite handleSend_run.
  destruct (allSpace _ || isSending chat).
  { exists chat. repeat split. }
  cbv zeta. eexists. split; [reflexivity |].
  pose proof (atMost_sendProjectChat plan (messages chat) (input chat) w)
    as Hbudget.
  pose proof (sendProjectChat_origin plan (messages chat) (input chat) w)
    as [Hreply _]. cbv zeta in Hreply.
  destruct (outcome (sendProjectChat plan (messages chat) (input chat) w))
    as [reply | e] eqn:Hout.
  - exists reply. destruct (Hreply reply eq_refl) as [Hne _].
    repeat split; assumption.
  - eexists. repeat split; [discriminate | exact Hbudget].
Qed.

(** X19.  What [handleSend] asks and what it shows.  The request carries
    the conversation as it was before the question, and the question
    once.  An answer of the service is shown as [sendProjectChat] returns
    it; a refusal that is not a rate limit is shown as the apology of line
    131, after one request, and the widget is ready again. *)
Theorem handleSend_reply plan chat w :
  allSpace (list_ascii_of_string (input chat)) = false ->
  isSending chat = false ->
  let r := handleSend plan chat w in
  (forall response w1,
     generateContent (chatRequest plan (messages chat) (input chat)) w
     = (Return response, w1) ->
     outcome r =
     Return (mkChat (messages chat ++
                       [mkMessage RoleUser (input chat);
                        mkMessage RoleModel
                          match whenTruthy (text response) with
                          | Some t => t
                          | None => chatFallback
                          end]) "" false) /\
     world r = w1 /\ requests (trace r) = 1%nat) /\
  (forall e w1,
     generateContent (chatRequest plan (messages chat) (input chat)) w
     = (Throw e, w1) ->
     isRateLimit e = false ->
     outcome r =
     Return (mkChat (messages chat ++
                       [mkMessage RoleUser (input chat); chatApology])
               "" false) /\
     world r = w1 /\ requests (trace r) = 1%nat).
Proof.
  intros Hblank Hsending. cbv zeta. rewrite handleSend_run, Hblank, Hsending.
  cbn [orb]. cbv zeta. unfold sendProjectChat, retryDefault.
  pose proof (chatOperation_run plan (messages chat) (input chat) w) as Hop.
  split.
  - intros response w1 Hcall. rewrite Hcall in Hop.
    rewrite (retryOperation_first_return _ _ _ _ _ _ _ Hop).
    repeat split.
  - intros e w1 Hcall Hrate. rewrite Hcall in Hop.
    rewrite (retryOperation_other_error _ _ _ _ _ _ _ Hop Hrate).
    repeat split.
Qed.
End StyleAndChatProperties.

(* ===================================================================== *)
(** * Properties of the steps on the results page *)
(* ===================================================================== *)

Lemma list_ascii_of_string_app (a b : string) :
  list_ascii_of_string (a ++ b)
  = list_ascii_of_string a ++ list_ascii_of_string b.
Proof.
  induction a as [| c a IH]; [reflexivity |].
  cbn. now rewrite IH.
Qed.

Lemma string_of_list_ascii_app (a b : list ascii) :
  string_of_list_ascii (a ++ b)
  = (string_of_list_ascii a ++ string_of_list_ascii b)%string.
Proof.
  induction a as [| c a IH]; [reflexivity |].
  cbn. now rewrite IH.
Qed.

Lemma string_app_assoc (a b c : string) :
  ((a ++ b) ++ c = a ++ (b ++ c))%string.
Proof.
  induction a as [| x a IH]; [reflexivity |].
  cbn. now rewrite IH.
Qed.

Lemma matchLiteral_exact pattern : forall s rest,
  matchLiteral false pattern s = Some rest -> s = pattern ++ rest.
Proof.
  induction pattern as [| p pattern IH]; intros s rest Hs.
  - cbn in Hs. now injection Hs as ->.
  - destruct s as [| c s]; [discriminate |]. cbn [matchLiteral] in Hs.
    destruct (Ascii.eqb p c) eqn:Hpc; [| discriminate].
    apply Ascii.eqb_eq in Hpc. subst c. cbn. f_equal. now apply IH.
Qed.

Lemma matchLiteral_app pattern rest :
  matchLiteral false pattern (pattern ++ rest) = Some rest.
Proof.
  induction pattern as [| p pattern IH]; [reflexivity |].
  cbn [List.app matchLiteral]. now rewrite Ascii.eqb_refl.
Qed.

Lemma untilStars_split s : forall group rest,
  untilStars s = Some (group, rest) ->
  s = group ++ list_ascii_of_string "**" ++ rest.
Proof.
  induction s as [| c s IH]; intros group rest Hs; [discriminate |].
  cbn [untilStars] in Hs.
  destruct (lit false "**" (c :: s)) as [rest0 |] eqn:Hlit.
  - injection Hs as <- <-. now apply matchLiteral_exact in Hlit.
  - destruct (lineTerminator (c :: s)); [discriminate |].
    destruct (untilStars s) as [[group0 rest0] |]; [| discriminate].
    injection Hs as <- <-. cbn [List.app]. f_equal. now apply IH.
Qed.

Lemma lineTerminator_before_star c item rest :
  lineTerminator (c :: item) = false ->
  lineTerminator (c :: item ++ "*"%char :: rest) = false.
Proof.
  unfold lineTerminator. cbv zeta.
  destruct item as [| d [| e item]]; cbn [List.app]; intros Hc;
    [destruct rest | |];
    repeat (apply orb_false_elim in Hc; destruct Hc as [Hc ?]);
    rewrite ?Hc, ?andb_false_r, ?orb_false_r;
    repeat (apply orb_false_intro; try assumption); cbn;
    rewrite ?andb_false_r; auto.
Qed.

Lemma countStars_cons c s :
  countStars (c :: s) = 0%nat -> c <> "*"%char /\ countStars s = 0%nat.
Proof.
  unfold countStars. cbn [count_occ].
  destruct (ascii_dec c "*") as [-> | Hc]; [discriminate | auto].
Qed.

Lemma countStars_app a b :
  countStars (a ++ b) = (countStars a + countStars b)%nat.
Proof. apply count_occ_app. Qed.

Lemma untilStars_item item : forall rest,
  countStars item = 0%nat -> oneLine item = true ->
  untilStars (item ++ list_ascii_of_string "**" ++ rest)
  = Some (item, rest).
Proof.
  induction item as [| c item IH]; intros rest Hstars Hline; [reflexivity |].
  apply countStars_cons in Hstars as [Hc Hstars].
  cbn [oneLine] in Hline. apply andb_true_iff in Hline as [Hterm Hline].
  apply negb_true_iff in Hterm.
  cbn [List.app untilStars]. unfold lit at 1.
  cbn [list_ascii_of_string matchLiteral].
  destruct (Ascii.eqb "*" c) eqn:Heq;
    [apply Ascii.eqb_eq in Heq; congruence |].
  change (["*"%char; "*"%char] ++ rest) with ("*"%char :: "*"%char :: rest).
  rewrite (lineTerminator_before_star _ _ _ Hterm).
  change ("*"%char :: "*"%char :: rest)
    with (list_ascii_of_string "**" ++ rest).
  now rewrite IH.
Qed.

(** The callout that [calloutAt] has found. *)
Lemma calloutAt_split s resource rest :
  calloutAt s = Some (resource, rest) ->
  exists item : list ascii,
    s = list_ascii_of_string ("**" ++ typeName (type resource) ++ ":")
        ++ item ++ list_ascii_of_string "**" ++ rest /\
    name resource = trim (string_of_list_ascii item).
Proof.
  assert (Hone : forall t, matchCallout t s = Some (resource, rest) ->
            exists item : list ascii,
              s = list_ascii_of_string
                    ("**" ++ typeName (type resource) ++ ":")
                  ++ item ++ list_ascii_of_string "**" ++ rest /\
              name resource = trim (string_of_list_ascii item)).
  { intros t Ht. unfold matchCallout, lit in Ht.
    destruct (matchLiteral false (list_ascii_of_string "**") s)
      as [rest1 |] eqn:H1; [| discriminate].
    destruct (matchLiteral false (list_ascii_of_string (typeName t)) rest1)
      as [rest2 |] eqn:H2; [| discriminate].
    destruct (matchLiteral false (list_ascii_of_string ":") rest2)
      as [rest3 |] eqn:H3; [| discriminate].
    destruct (untilStars rest3) as [[group rest4] |] eqn:H4;
      [| discriminate].
    injection Ht as <- <-. exists group. split; [| reflexivity].
    apply matchLiteral_exact in H1, H2, H3. apply untilStars_split in H4.
    subst s rest1 rest2 rest3. cbn [type].
    rewrite !list_ascii_of_string_app, <- !app_assoc. reflexivity. }
  unfold calloutAt, orElse.
  destruct (matchCallout TOOL s) as [found |] eqn:Htool.
  - intros [= ->]. eauto.
  - eauto.
Qed.

Lemma calloutAt_shorter s resource rest :
  calloutAt s = Some (resource, rest) ->
  (List.length rest < List.length s)%nat.
Proof.
  intros Hs. destruct (calloutAt_split _ _ _ Hs) as (item & -> & _).
  rewrite !length_app. cbn. lia.
Qed.

Lemma calloutAt_stars s resource rest :
  calloutAt s = Some (resource, rest) ->
  (4 + countStars rest <= countStars s)%nat.
Proof.
  intros Hs. destruct (calloutAt_split _ _ _ Hs) as (item & -> & _).
  rewrite !countStars_app. destruct (type resource); cbn; lia.
Qed.

Lemma calloutAt_callout t (item rest : list ascii) :
  countStars item = 0%nat -> oneLine item = true ->
  calloutAt (list_ascii_of_string ("**" ++ typeName t ++ ":")
             ++ item ++ list_ascii_of_string "**" ++ rest)
  = Some (mkResource t (trim (string_of_list_ascii item)), rest).
Proof.
  intros Hstars Hline.
  pose proof (untilStars_item item rest Hstars Hline) as Hitem.
  cbn [list_ascii_of_string List.app] in Hitem.
  unfold calloutAt, orElse, matchCallout, lit.
  destruct t; cbn -[untilStars trim]; rewrite Hitem; reflexivity.
Qed.

Lemma execAll_enough fuel1 : forall fuel2 s,
  (List.length s < fuel1)%nat -> (List.length s < fuel2)%nat ->
  execAll fuel1 s = execAll fuel2 s.
Proof.
  induction fuel1 as [| fuel1 IH]; intros fuel2 s H1 H2; [lia |].
  destruct fuel2 as [| fuel2]; [lia |]. cbn [execAll].
  destruct (calloutAt s) as [[resource rest] |] eqn:Hs.
  - apply calloutAt_shorter in Hs. f_equal. apply IH; lia.
  - destruct s as [| c s]; [reflexivity |]. cbn [List.length] in *.
    apply IH; lia.
Qed.

(** The loop without its fuel. *)
Lemma execFrom_step s :
  execFrom s =
  match calloutAt s with
  | Some (resource, rest) => resource :: execFrom rest
  | None =>
      match s with
      | [] => []
      | _ :: s' => execFrom s'
      end
  end.
Proof.
  unfold execFrom at 1. cbn [execAll].
  destruct (calloutAt s) as [[resource rest] |] eqn:Hs.
  - apply calloutAt_shorter in Hs. f_equal. unfold execFrom.
    apply execAll_enough; lia.
  - destruct s as [| c s]; [reflexivity |]. unfold execFrom.
    cbn [List.length]. apply execAll_enough; lia.
Qed.

Lemma calloutAt_other c s : c <> "*"%char -> calloutAt (c :: s) = None.
Proof.
  intros Hc. unfold calloutAt, orElse, matchCallout, lit.
  cbn [list_ascii_of_string matchLiteral].
  destruct (Ascii.eqb "*" c) eqn:Heq;
    [apply Ascii.eqb_eq in Heq; congruence | reflexivity].
Qed.

Lemma execFrom_plain before s :
  countStars before = 0%nat -> execFrom (before ++ s) = execFrom s.
Proof.
  induction before as [| c before IH]; intros Hstars; [reflexivity |].
  apply countStars_cons in Hstars as [Hc Hstars].
  cbn [List.app]. rewrite execFrom_step, (calloutAt_other _ _ Hc).
  now apply IH.
Qed.

Lemma execFrom_few_stars s :
  (countStars s < 4)%nat -> execFrom s = [].
Proof.
  induction s as [| c s IH]; intros Hstars; rewrite execFrom_step.
  - reflexivity.
  - destruct (calloutAt (c :: s)) as [[resource rest] |] eqn:Hs.
    + apply calloutAt_stars in Hs. lia.
    + apply IH. unfold countStars in *. cbn [count_occ] in Hstars.
      destruct (ascii_dec c "*"); lia.
Qed.

Lemma execFrom_sound s : forall resource,
  In resource (execFrom s) ->
  exists before item rest : list ascii,
    s = before
        ++ list_ascii_of_string ("**" ++ typeName (type resource) ++ ":")
        ++ item ++ list_ascii_of_string "**" ++ rest /\
    name resource = trim (string_of_list_ascii item).
Proof.
  remember (List.length s) as n eqn:Hn. revert s Hn.
  induction n as [n IH] using lt_wf_ind. intros s -> resource Hin.
  rewrite execFrom_step in Hin.
  destruct (calloutAt s) as [[found rest] |] eqn:Hs.
  - destruct Hin as [-> | Hin].
    + destruct (calloutAt_split _ _ _ Hs) as (item & Heq & Hname).
      exists [], item, rest. now split.
    + pose proof (calloutAt_shorter _ _ _ Hs) as Hshort.
      destruct (calloutAt_split _ _ _ Hs) as (item0 & Heq & _).
      destruct (IH _ Hshort rest eq_refl resource Hin)
        as (before & item & rest' & Hrest & Hname).
      exists (list_ascii_of_string ("**" ++ typeName (type found) ++ ":")
              ++ item0 ++ list_ascii_of_string "**" ++ before), item, rest'.
      split; [| exact Hname]. rewrite Heq, Hrest, <- !app_assoc.
      reflexivity.
  - destruct s as [| c s]; [contradiction |].
    destruct (IH _ (Nat.lt_succ_diag_r _) s eq_refl resource Hin)
      as (before & item & rest & Hrest & Hname).
    exists (c :: before), item, rest. split; [| exact Hname].
    now rewrite Hrest.
Qed.

Lemma extractStepResources_callout t (before item rest : string) :
  countStars (list_ascii_of_string before) = 0%nat ->
  countStars (list_ascii_of_string item) = 0%nat ->
  oneLine (list_ascii_of_string item) = true ->
  extractStepResources (before ++ callout t item ++ rest)
  = mkResource t (trim item) :: extractStepResources rest.
Proof.
  intros Hbefore Hitem Hline. unfold extractStepResources, callout.
  pose proof (calloutAt_callout t _ (list_ascii_of_string rest) Hitem Hline)
    as Hat.
  rewrite string_of_list_ascii_of_string in Hat.
  rewrite !list_ascii_of_string_app, <- ?app_assoc in Hat.
  rewrite !list_ascii_of_string_app, <- ?app_assoc.
  rewrite (execFrom_plain _ _ Hbefore), execFrom_step, Hat. reflexivity.
Qed.

(** X20.  A callout is read back: in a text that has no asterisk before
    the callout, the first resource is the type of the callout and the
    item between the colon and the closing asterisks, without the white
    space around it, and the search goes on behind the callout.  The item
    is on one line and has no asterisk. *)
Theorem extractStepResources_decodes t (before item rest : string) :
  countStars (list_ascii_of_string before) = 0%nat ->
  countStars (list_ascii_of_string item) = 0%nat ->
  oneLine (list_ascii_of_string item) = true ->
  extractStepResources (before ++ callout t item ++ rest)
  = mkResource t (trim item) :: extractStepResources rest.
Proof. exact (extractStepResources_callout t before item rest). Qed.

(** X21.  [extractStepResources] invents nothing: each resource that it
    returns is a callout of the text, with the type written there and the
    item between the colon and the closing asterisks, trimmed. *)
Theorem extractStepResources_sound (text : string) resource :
  In resource (extractStepResources text) ->
  exists before item rest : string,
    text = (before ++ callout (type resource) item ++ rest)%string /\
    name resource = trim item.
Proof.
  intros Hin. unfold extractStepResources in Hin.
  destruct (execFrom_sound _ _ Hin) as (before & item & rest & Heq & Hname).
  exists (string_of_list_ascii before), (string_of_list_ascii item),
    (string_of_list_ascii rest).
  split; [| exact Hname].
  rewrite <- (string_of_list_ascii_of_string text), Heq. unfold callout.
  rewrite !string_of_list_ascii_app, !string_of_list_ascii_of_string.
  rewrite !string_app_assoc. reflexivity.
Qed.

(** X22.  The prompt of [generateProjectPlan] asks for callouts in which
    the asterisks close right after the colon, and the name follows them
    (line 119 of the service module).  Of such a callout
    [extractStepResources] returns a resource without a name: the card
    under the step shows the type only. *)
Theorem extractStepResources_prompt_format t (before item : string) :
  countStars (list_ascii_of_string before) = 0%nat ->
  countStars (list_ascii_of_string item) = 0%nat ->
  extractStepResources (before ++ "**" ++ typeName t ++ ":** " ++ item)
  = [mkResource t ""].
Proof.
  intros Hbefore Hitem.
  pose proof (extractStepResources_callout t before "" (" " ++ item)
                Hbefore eq_refl eq_refl) as Hone.
  unfold callout in Hone. rewrite !string_app_assoc in Hone.
  cbn [String.append] in Hone. cbn [String.append]. rewrite Hone.
  f_equal. unfold extractStepResources. apply execFrom_few_stars.
  cbn [list_ascii_of_string]. unfold countStars in *. cbn [count_occ].
  destruct (ascii_dec " " "*"); [discriminate |]. lia.
Qed.

Lemma numbers_renderSteps steps : forall stepCounter,
  numbers (renderSteps stepCounter steps)
  = seq (S stepCounter)
      (List.length (numbers (renderSteps stepCounter steps))) /\
  List.length (renderSteps stepCounter steps) = List.length steps.
Proof.
  induction steps as [| step steps IH]; intros stepCounter;
    [split; reflexivity |].
  cbn [renderSteps]. cbv zeta.
  destruct (negb (truthy (Some (trim (removeMarker step))))).
  { destruct (IH stepCounter) as [Hn Hl]. cbn [numbers numberOf List.length].
    split; [exact Hn | now rewrite Hl]. }
  destruct (isImageOnly (trim (removeMarker step))).
  { destruct (IH stepCounter) as [Hn Hl]. cbn [numbers numberOf List.length].
    split; [exact Hn | now rewrite Hl]. }
  destruct (IH (S stepCounter)) as [Hn Hl].
  cbn [numbers numberOf List.length seq].
  split; [now rewrite <- Hn | now rewrite Hl].
Qed.

(** X23.  The numbers in the bubbles of the results page are 1, 2, 3 and
    so on without a gap, from the top, whichever steps are left out for
    being blank or are illustrations only; and each step of the plan has
    one place in the list, so that the keys are the indices of the
    plan. *)
Theorem stepViews_numbering (steps : list string) :
  let views := stepViews steps in
  numbers views = seq 1 (List.length (numbers views)) /\
  List.length views = List.length steps.
Proof. exact (numbers_renderSteps steps 0). Qed.

Lemma afterSpace_star s : afterSpace ("*"%char :: s) = None.
Proof. destruct s as [| d [| e s]]; reflexivity. Qed.

Lemma trim_star (s : list ascii) :
  exists kept,
    trim (string_of_list_ascii ("*"%char :: s))
    = String "*" (string_of_list_ascii kept) /\
    (countStars kept <= countStars s)%nat.
Proof.
  unfold trim. rewrite list_ascii_of_string_of_list_ascii, trimStart_step,
    afterSpace_star.
  cbn [trimEnd]. rewrite allSpace_step, afterSpace_star.
  exists (trimEnd s). split; [reflexivity |].
  destruct (trimEnd_split s) as (spaces & Hs & _).
  rewrite Hs at 2. rewrite countStars_app. lia.
Qed.

Lemma removeMarker_stars (s : string) :
  removeMarker (String "*" (String "*" s)) = String "*" s.
Proof.
  unfold removeMarker. cbv zeta. cbn [list_ascii_of_string].
  assert (Hmarker : matchMarker ("*"%char :: "*"%char ::
                                 list_ascii_of_string s)
                    = Some ("*"%char :: list_ascii_of_string s))
    by reflexivity.
  rewrite Hmarker, trimStart_step, afterSpace_star.
  cbn [string_of_list_ascii]. now rewrite string_of_list_ascii_of_string.
Qed.

Lemma trim_head c (s : list ascii) :
  (forall s', afterSpace (c :: s') = None) ->
  trim (string_of_list_ascii (c :: s))
  = String c (string_of_list_ascii (trimEnd s)).
Proof.
  intros Hc. unfold trim.
  rewrite list_ascii_of_string_of_list_ascii, trimStart_step, Hc.
  cbn [trimEnd]. rewrite allSpace_step, Hc. reflexivity.
Qed.

(** The two replaces in a row, on a text that starts with two
    asterisks less one. *)
Lemma removeMarker_trim_star c (s : string) :
  (forall s', afterSpace (c :: s') = None) ->
  removeMarker (trim (String "*" (String c s))) = trim (String c s).
Proof.
  intros Hc.
  rewrite <- (string_of_list_ascii_of_string s).
  change (String "*" (String c (string_of_list_ascii
                                  (list_ascii_of_string s))))
    with (string_of_list_ascii ("*"%char :: c :: list_ascii_of_string s)).
  change (String c (string_of_list_ascii (list_ascii_of_string s)))
    with (string_of_list_ascii (c :: list_ascii_of_string s)).
  rewrite (trim_head "*" _ afterSpace_star), (trim_head c _ Hc).
  cbn [trimEnd]. rewrite allSpace_step, Hc.
  unfold removeMarker. cbv zeta.
  cbn [string_of_list_ascii list_ascii_of_string].
  rewrite list_ascii_of_string_of_list_ascii.
  set (kept := trimEnd (list_ascii_of_string s)).
  assert (Hmarker : matchMarker ("*"%char :: c :: kept) = Some (c :: kept))
    by reflexivity.
  rewrite Hmarker, trimStart_step, Hc. reflexivity.
Qed.

(** X24.  A callout at the very start of a step is lost on the results
    page.  The replace of line 632 takes the asterisk that starts it for
    the bullet of a list: the step gets its number, and the text that
    goes to [extractStepResources] and to [renderStyledText] is the step
    less that asterisk, so that no resource is found under the step,
    although [extractStepResources] finds the callout in the step as the
    plan has it.  The replace of line 396 then takes the second asterisk
    as well: the text that [renderStyledText] splits and shows starts
    with the type of the callout, with no asterisk before it. *)
Theorem leading_callout_dropped t (item rest : string) :
  countStars (list_ascii_of_string item) = 0%nat ->
  oneLine (list_ascii_of_string item) = true ->
  countStars (list_ascii_of_string rest) = 0%nat ->
  let step := (callout t item ++ rest)%string in
  let cleanText :=
    trim ("*" ++ typeName t ++ ":" ++ item ++ "**" ++ rest) in
  extractStepResources step = [mkResource t (trim item)] /\
  stepViews [step] = [Numbered 1 cleanText []] /\
  removeMarker cleanText = trim (typeName t ++ ":" ++ item ++ "**" ++ rest).
Proof.
  intros Hitem Hline Hrest step cleanText. subst step cleanText.
  split; [| split].
  - pose proof (extractStepResources_callout t "" item rest eq_refl Hitem
                  Hline) as Hone.
    cbn [String.append] in Hone. rewrite Hone. f_equal. apply execFrom_few_stars. rewrite Hrest. lia.
  - unfold stepViews, callout. rewrite !string_app_assoc.
    cbn [renderSteps String.append]. cbv zeta.
    rewrite removeMarker_stars.
    set (tail := (typeName t ++ _)%string).
    destruct (trim_star (list_ascii_of_string tail)) as (kept & Hkept & Hle).
    cbn [string_of_list_ascii] in Hkept.
    rewrite string_of_list_ascii_of_string in Hkept.
    assert (Hfew : (countStars ("*"%char :: kept) < 4)%nat).
    { assert (Htail : countStars (list_ascii_of_string tail) = 2%nat).
      { subst tail.
        change (countStars
                  (list_ascii_of_string
                     (typeName t ++ ":" ++ item ++ "**" ++ rest)) = 2%nat).
        rewrite !list_ascii_of_string_app, !countStars_app, Hitem, Hrest.
        destruct t; reflexivity. }
      rewrite Htail in Hle. unfold countStars in *. cbn [count_occ].
      destruct (ascii_dec "*" "*"); [lia | congruence]. }
    rewrite Hkept. cbn [truthy negb].
    unfold isImageOnly, lit. cbn [list_ascii_of_string matchLiteral].
    change (Ascii.eqb (upper "[") (upper "*")) with false. cbv iota.
    unfold extractStepResources. cbn [list_ascii_of_string].
    rewrite list_ascii_of_string_of_list_ascii.
    now rewrite (execFrom_few_stars _ Hfew).
  - destruct t; cbn [typeName String.append];
      apply removeMarker_trim_star;
      intros [| d [| e s']]; reflexivity.
Qed.

(* ===================================================================== *)
(** * Time spent waiting *)
(* ===================================================================== *)

Lemma pauses_app t1 t2 : pauses (t1 ++ t2) = pauses t1 + pauses t2.
Proof.
  induction t1 as [| e t1 IH]; cbn [List.app pauses]; [reflexivity |].
  rewrite IH. ring.
Qed.

Lemma pauseOf_call inner : pauseOf (EvCall inner) = pauses inner.
Proof.
  induction inner as [| e rest IH]; [reflexivity |].
  simpl in *. now rewrite IH.
Qed.

Section Pauses.
Context {W : Type} `{Timer W}.

Lemma pausesWithin_mono {A} (a b c d : Z) (m : M W A) :
  c <= a -> b <= d -> pausesWithin a b m -> pausesWithin c d m.
Proof. intros Hca Hbd Hm w. specialize (Hm w). lia. Qed.

Lemma pausesWithin_ret {A} (x : A) : pausesWithin 0 0 (ret (W := W) x).
Proof. intros w. cbn. lia. Qed.

Lemma pausesWithin_throw {A} e :
  pausesWithin 0 0 (throw (W := W) (A := A) e).
Proof. intros w. cbn. lia. Qed.

Lemma pausesWithin_console level :
  pausesWithin 0 0 (emit (W := W) (EvConsole level)).
Proof. intros w. cbn. lia. Qed.

Lemma pausesWithin_generateContent `{GenAI W} request :
  pausesWithin 0 0 (ai_generateContent request).
Proof.
  intros w. unfold ai_generateContent.
  destruct (generateContent request w) as [o w1]. cbn. lia.
Qed.

Lemma pausesWithin_bind {A B} (a b : Z) (m : M W A) (k : A -> M W B) :
  0 <= b ->
  pausesWithin 0 a m -> (forall x, pausesWithin 0 b (k x)) ->
  pausesWithin 0 (a + b) (bind m k).
Proof.
  intros Hb Hm Hk w. unfold bind. specialize (Hm w).
  destruct (m w) as [[[x | e] w1] t1]; unfold trace in *; cbn [snd] in *.
  - specialize (Hk x w1). destruct (k x w1) as [[o w2] t2].
    unfold trace in Hk; cbn [snd] in *. rewrite pauses_app. lia.
  - lia.
Qed.

Lemma pausesWithin_try_catch {A} (a b : Z) (m : M W A)
    (h : JsError -> M W A) :
  0 <= b ->
  pausesWithin 0 a m -> (forall e, pausesWithin 0 b (h e)) ->
  pausesWithin 0 (a + b) (try_catch m h).
Proof.
  intros Hb Hm Hh w. unfold try_catch. specialize (Hm w).
  destruct (m w) as [[[x | e] w1] t1]; unfold trace in *; cbn [snd] in *.
  - lia.
  - specialize (Hh e w1). destruct (h e w1) as [[o w2] t2].
    unfold trace in Hh; cbn [snd] in *. rewrite pauses_app. lia.
Qed.

(** Around an operation that does not wait, the retrier waits for its
    delays and no more. *)
Lemma pausesWithin_retryOperation {T} (operation : M W T) (n : nat) :
  pausesWithin 0 0 operation ->
  forall retries baseDelay, retries <= Z.of_nat n -> 0 <= baseDelay ->
  pausesWithin 0 (baseDelay * (2 ^ Z.of_nat n - 1))
    (retryOperation operation retries baseDelay).
Proof.
  intros Hop. induction n as [| n IH]; intros retries baseDelay Hn Hbase w;
    rewrite retryOperation_step; specialize (Hop w);
    destruct (operation w) as [[[v | e] w1] t];
    unfold trace in *; cbn [snd pauses] in *;
    rewrite ?pauseOf_call.
  - change (2 ^ Z.of_nat 0) with 1. lia.
  - assert (Hb : (0 <? retries) = false) by (apply Z.ltb_ge; lia).
    rewrite Hb. cbn [andb snd pauses]. rewrite pauseOf_call.
    change (2 ^ Z.of_nat 0) with 1. lia.
  - pose proof (Z.pow_pos_nonneg 2 (Z.of_nat (S n)) ltac:(lia) ltac:(lia)).
    nia.
  - pose proof (Z.pow_pos_nonneg 2 (Z.of_nat n) ltac:(lia) ltac:(lia)).
    rewrite Nat2Z.inj_succ, Z.pow_succ_r by lia.
    destruct ((0 <? retries) && isRateLimit e);
      [| cbn [snd pauses]; rewrite pauseOf_call; nia].
    specialize (IH (retries - 1) (baseDelay * 2) ltac:(lia) ltac:(lia)
                  (elapse baseDelay w1)).
    destruct (retryOperation operation (retries - 1) (baseDelay * 2)
                (elapse baseDelay w1)) as [[o w2] t2].
    unfold trace in IH. cbn [snd pauses] in *.
    rewrite pauseOf_call. cbn [pauseOf]. nia.
Qed.

Lemma returnsWithin_bind {A B} (a1 b1 a2 b2 : Z) (m : M W A)
    (k : A -> M W B) :
  returnsWithin a1 b1 m -> (forall x, returnsWithin a2 b2 (k x)) ->
  returnsWithin (a1 + a2) (b1 + b2) (bind m k).
Proof.
  intros Hm Hk w. unfold bind. destruct (Hm w) as [[v Hv] Hw].
  destruct (m w) as [[o w1] t1]. unfold outcome, trace in *.
  cbn [fst snd] in *. subst o.
  destruct (Hk v w1) as [[v2 Hv2] Hw2].
  destruct (k v w1) as [[o2 w2] t2]. unfold outcome, trace in *.
  cbn [fst snd] in *. rewrite pauses_app. split; [eauto | lia].
Qed.

(** A handler that returns makes a computation that returns. *)
Lemma returnsWithin_try_catch {A} (a b : Z) (m : M W A)
    (h : JsError -> M W A) :
  pausesWithin a b m -> (forall e, returnsWithin 0 0 (h e)) ->
  returnsWithin a b (try_catch m h).
Proof.
  intros Hm Hh w. unfold try_catch. specialize (Hm w).
  destruct (m w) as [[[x | e] w1] t1]; unfold outcome, trace in *;
    cbn [fst snd] in *.
  - split; [eauto | lia].
  - destruct (Hh e w1) as [[v Hv] Hw].
    destruct (h e w1) as [[o w2] t2]. unfold outcome, trace in *.
    cbn [fst snd] in *. rewrite pauses_app. split; [eauto | lia].
Qed.

Lemma returnsWithin_ret {A} (x : A) : returnsWithin 0 0 (ret (W := W) x).
Proof. intros w. split; [now exists x | cbn; lia]. Qed.

Lemma returnsWithin_wait ms : returnsWithin ms ms (wait (W := W) ms).
Proof. intros w. split; [now exists tt | cbn; lia]. Qed.

Lemma returnsWithin_console level :
  returnsWithin 0 0 (emit (W := W) (EvConsole level)).
Proof. intros w. split; [now exists tt | cbn; lia]. Qed.

Lemma returnsWithin_mono {A} (a b c d : Z) (m : M W A) :
  c <= a -> b <= d -> returnsWithin a b m -> returnsWithin c d m.
Proof.
  intros Hca Hbd Hm w. destruct (Hm w) as [Hv Hw]. split; [exact Hv | lia].
Qed.
End Pauses.

Section ServicePauses.
Context {W : Type} `{Timer W} `{GenAI W} `{Prompts} `{Engine}.

Lemma pausesWithin_rethrow {T} error :
  pausesWithin 0 0 (console_error ;; throw (W := W) (A := T) error).
Proof.
  apply (pausesWithin_bind 0 0); [lia | apply pausesWithin_console |].
  intros; apply pausesWithin_throw.
Qed.

Lemma pausesWithin_singleImageOperation style category description
    viewContext referenceUrl :
  pausesWithin 0 0 (singleImageOperation style category description
                      viewContext referenceUrl).
Proof.
  unfold singleImageOperation.
  apply (pausesWithin_try_catch 0 0); [lia | |].
  - apply (pausesWithin_bind 0 0);
      [lia | apply pausesWithin_generateContent |].
    intros response.
    destruct (firstCandidate response) as [candidate |];
      [destruct (contentParts candidate) |]; apply pausesWithin_ret.
  - intros e.
    apply (pausesWithin_bind 0 0); [lia | apply pausesWithin_console |].
    intros _. destruct (rethrown e);
      [apply pausesWithin_throw | apply pausesWithin_ret].
Qed.

Lemma pausesWithin_generateSingleImage style category description
    viewContext referenceUrl :
  pausesWithin 0 14000 (generateSingleImage style category description
                          viewContext referenceUrl).
Proof.
  unfold generateSingleImage, retryDefault.
  apply (pausesWithin_retryOperation _ 3
           (pausesWithin_singleImageOperation _ _ _ _ _) 3 2000); lia.
Qed.

Lemma pausesWithin_planOperation imageBase64 style category :
  pausesWithin 0 0 (planOperation imageBase64 style category).
Proof.
  unfold planOperation.
  apply (pausesWithin_try_catch 0 0);
    [lia | | intros; apply pausesWithin_rethrow].
  apply (pausesWithin_bind 0 0);
    [lia | apply pausesWithin_generateContent |].
  intros response.
  destruct (whenTruthy (text response)) as [t |];
    [| apply pausesWithin_throw].
  destruct (JSON.parse t); [apply pausesWithin_ret | apply pausesWithin_throw].
Qed.

Lemma pausesWithin_generateProjectPlan imageBase64 style category :
  pausesWithin 0 14000 (generateProjectPlan imageBase64 style category).
Proof.
  unfold generateProjectPlan, retryDefault.
  apply (pausesWithin_retryOperation _ 3
           (pausesWithin_planOperation _ _ _) 3 2000); lia.
Qed.

Lemma returnsWithin_getRealWorldReferences style category description count :
  returnsWithin 0 0
    (getRealWorldReferences style category description count).
Proof.
  intros w.
  destruct (referencesOperation_returns style category description count w)
    as (urls & w1 & t & Hop & _).
  pose proof (referencesOperation_trace style category description count w)
    as Ht.
  rewrite Hop in Ht. unfold trace in Ht; cbn [snd] in Ht. subst t.
  unfold getRealWorldReferences, retryDefault.
  rewrite (retryOperation_first_return _ _ _ _ _ _ _ Hop).
  split; [now exists urls | cbn; lia].
Qed.

Lemma returnsWithin_pausesWithin {A} (a b : Z) (m : M W A) :
  returnsWithin a b m -> pausesWithin a b m.
Proof. intros Hm w. apply Hm. Qed.

Lemma pacing_step delay i n :
  pacing delay i (S n)
  = (if (0 <? i)%nat then delay else 0) + pacing delay (S i) n.
Proof.
  unfold pacing. cbn [Nat.pred]. change (0 <? S i)%nat with true.
  destruct (0 <? i)%nat; cbv iota; [| lia].
  rewrite Nat2Z.inj_succ. lia.
Qed.

Lemma returnsWithin_inspirationLoop style category description references
    views : forall i results,
  returnsWithin (pacing 2000 i (List.length views))
    (pacing 2000 i (List.length views) + 14000 * Z.of_nat (List.length views))
    (inspirationLoop style category description references i views results).
Proof.
  induction views as [| view rest IH]; intros i results.
  - cbn [inspirationLoop List.length].
    apply returnsWithin_mono with (a := 0) (b := 0);
      [unfold pacing; destruct (0 <? i)%nat; cbn; lia
      | unfold pacing; destruct (0 <? i)%nat; cbn; lia
      | apply returnsWithin_ret].
  - cbn [inspirationLoop List.length]. rewrite pacing_step.
    set (first := if (0 <? i)%nat then 2000 else 0).
    apply returnsWithin_mono
      with (a := first + (0 + pacing 2000 (S i) (List.length rest)))
           (b := first + (14000 + (pacing 2000 (S i) (List.length rest)
                                   + 14000 * Z.of_nat (List.length rest))));
      [lia | lia |].
    apply returnsWithin_bind.
    + subst first. destruct (0 <? i)%nat;
        [apply returnsWithin_wait | apply returnsWithin_ret].
    + intros _. apply returnsWithin_bind; [| intros results0; apply IH].
      apply returnsWithin_try_catch.
      * apply pausesWithin_mono with (a := 0) (b := 14000 + 0); [lia | lia |].
        apply pausesWithin_bind;
          [lia | apply pausesWithin_generateSingleImage |].
        intros img. apply pausesWithin_ret.
      * intros e. apply returnsWithin_mono with (a := 0 + 0) (b := 0 + 0);
          [lia | lia |].
        apply returnsWithin_bind; [apply returnsWithin_console |].
        intros _. apply returnsWithin_ret.
Qed.

Lemma returnsWithin_generateInspirationImages style category description
    customViews :
  let n := List.length match customViews with
                       | Some vs => vs
                       | None => defaultViews
                       end in
  returnsWithin (2000 * Z.of_nat (Nat.pred n))
    (2000 * Z.of_nat (Nat.pred n) + 14000 * Z.of_nat n)
    (generateInspirationImages style category description customViews).
Proof.
  cbv zeta. unfold generateInspirationImages.
  eapply returnsWithin_mono;
    [| | apply returnsWithin_bind;
         [apply returnsWithin_getRealWorldReferences
         | intros references; apply returnsWithin_inspirationLoop]];
    unfold pacing; cbn [Nat.ltb Nat.leb]; lia.
Qed.

Lemma returnsWithin_surpriseLoop category description styles :
  forall i results,
  returnsWithin (pacing 3000 i (List.length styles))
    (pacing 3000 i (List.length styles)
     + 14000 * Z.of_nat (List.length styles))
    (surpriseLoop category description i styles results).
Proof.
  induction styles as [| style rest IH]; intros i results.
  - cbn [surpriseLoop List.length].
    apply returnsWithin_mono with (a := 0) (b := 0);
      [unfold pacing; destruct (0 <? i)%nat; cbn; lia
      | unfold pacing; destruct (0 <? i)%nat; cbn; lia
      | apply returnsWithin_ret].
  - cbn [surpriseLoop List.length]. rewrite pacing_step.
    set (first := if (0 <? i)%nat then 3000 else 0).
    apply returnsWithin_mono
      with (a := first + (0 + pacing 3000 (S i) (List.length rest)))
           (b := first + (14000 + (pacing 3000 (S i) (List.length rest)
                                   + 14000 * Z.of_nat (List.length rest))));
      [lia | lia |].
    apply returnsWithin_bind.
    + subst first. destruct (0 <? i)%nat;
        [apply returnsWithin_wait | apply returnsWithin_ret].
    + intros _. apply returnsWithin_bind; [| intros results0; apply IH].
      apply returnsWithin_try_catch.
      * apply pausesWithin_mono with (a := 0) (b := 0 + (14000 + 0));
          [lia | lia |].
        apply pausesWithin_bind;
          [lia
          | apply returnsWithin_pausesWithin,
              returnsWithin_getRealWorldReferences |].
        intros refs.
        apply pausesWithin_bind;
          [lia | apply pausesWithin_generateSingleImage |].
        intros image. apply pausesWithin_ret.
      * intros e. apply returnsWithin_mono with (a := 0 + 0) (b := 0 + 0);
          [lia | lia |].
        apply returnsWithin_bind; [apply returnsWithin_console |].
        intros _. apply returnsWithin_ret.
Qed.

(** X25.  A batch of inspiration images always returns, and the time it
    spends waiting is known: two seconds between one view and the next,
    and at most fourteen seconds of backoff for each view.  For the three
    default views that is between 4 and 46 seconds. *)
Theorem generateInspirationImages_pacing style category description
    customViews w :
  let n := List.length match customViews with
                       | Some vs => vs
                       | None => defaultViews
                       end in
  let r := generateInspirationImages style category description
             customViews w in
  (exists images, outcome r = Return images) /\
  2000 * Z.of_nat (Nat.pred n) <= pauses (trace r)
  <= 2000 * Z.of_nat (Nat.pred n) + 14000 * Z.of_nat n.
Proof.
  exact (returnsWithin_generateInspirationImages style category description
           customViews w).
Qed.

(** X26.  A surprise batch always returns, after three seconds of waiting
    between one style and the next and at most fourteen seconds of backoff
    for each style. *)
Theorem generateSurpriseImages_pacing styles category description w :
  let n := List.length styles in
  let r := generateSurpriseImages styles category description w in
  (exists suggestions, outcome r = Return suggestions) /\
  3000 * Z.of_nat (Nat.pred n) <= pauses (trace r)
  <= 3000 * Z.of_nat (Nat.pred n) + 14000 * Z.of_nat n.
Proof.
  exact (returnsWithin_surpriseLoop category description styles 0 [] w).
Qed.

Lemma pausesWithin_property (plan : Json) key :
  pausesWithin 0 0 (property (W := W) plan key).
Proof.
  unfold property.
  destruct plan; first [apply pausesWithin_throw | apply pausesWithin_ret].
Qed.

Lemma pausesWithin_generateFullPlan style initialImage app :
  pausesWithin 0 60000 (generateFullPlan style initialImage app).
Proof.
  unfold generateFullPlan.
  destruct (whenTruthy (selectedImage app)) as [selected |];
    [| apply pausesWithin_mono with (a := 0) (b := 0);
       [lia | lia | apply pausesWithin_ret]].
  apply pausesWithin_mono with (a := 0) (b := (14000 + (46000 + 0)) + (0 + 0));
    [lia | lia |].
  apply pausesWithin_try_catch; [lia | |].
  - apply pausesWithin_bind;
      [lia | apply pausesWithin_generateProjectPlan |].
    intros plan.
    apply pausesWithin_bind; [lia | | intros images; apply pausesWithin_ret].
    destruct (whenTruthy initialImage) as [initial |].
    + apply pausesWithin_mono with (a := 0) (b := 0 + (30000 + 0));
        [lia | lia |].
      apply pausesWithin_bind; [lia | apply pausesWithin_property |].
      intros description.
      apply pausesWithin_bind;
        [lia | | intros additional; apply pausesWithin_ret].
      apply pausesWithin_mono with (a := 2000) (b := 30000); [lia | lia |].
      apply returnsWithin_pausesWithin.
      exact (returnsWithin_generateInspirationImages _ _ _
               (Some ["slightly angled view"; "detail focused view"])).
    + apply pausesWithin_mono with (a := 0) (b := 0 + 46000); [lia | lia |].
      apply pausesWithin_bind; [lia | apply pausesWithin_property |].
      intros description.
      apply pausesWithin_mono with (a := 4000) (b := 46000); [lia | lia |].
      apply returnsWithin_pausesWithin.
      exact (returnsWithin_generateInspirationImages _ _ _ None).
  - intros e.
    apply (pausesWithin_bind 0 0); [lia | apply pausesWithin_console |].
    intros _. apply pausesWithin_ret.
Qed.

(** X27.  From the click to the result or the error, [generateFullPlan]
    spends at most one minute waiting: fourteen seconds of backoff for the
    plan, four seconds between the three views and fourteen seconds of
    backoff for each of them. *)
Theorem generateFullPlan_pauses style initialImage app w :
  0 <= pauses (trace (generateFullPlan style initialImage app w)) <= 60000.
Proof. exact (pausesWithin_generateFullPlan style initialImage app w). Qed.
End ServicePauses.

Lemma skipDigits_number number rest :
  forallb JSON.digit number = true ->
  skipDigits (number ++ "."%char :: rest) = "."%char :: rest.
Proof.
  induction number as [| d number IH]; intros Hnumber; [reflexivity |].
  cbn [forallb] in Hnumber. apply andb_true_iff in Hnumber as [Hd Hnumber].
  cbn [List.app skipDigits]. rewrite Hd. now apply IH.
Qed.

(** X28.  A number and a dot at the start of a step are removed with the
    white space behind them, whatever follows: the numbering of a list,
    and the integer part of a decimal number as well. *)
Theorem removeMarker_numbered (number rest : string) :
  number <> ""%string ->
  forallb JSON.digit (list_ascii_of_string number) = true ->
  removeMarker (number ++ "." ++ rest)
  = string_of_list_ascii (trimStart (list_ascii_of_string rest)).
Proof.
  intros Hsome Hnumber. unfold removeMarker. cbv zeta.
  rewrite list_ascii_of_string_app. cbn [String.append list_ascii_of_string].
  destruct number as [| d number]; [contradiction |].
  cbn [list_ascii_of_string forallb] in *.
  apply andb_true_iff in Hnumber as [Hd Hnumber].
  unfold matchMarker, matchDigits. cbn [List.app]. rewrite Hd.
  rewrite (skipDigits_number _ _ Hnumber). reflexivity.
Qed.

Lemma upper_dash c : Ascii.eqb (upper "-") (upper c) = Ascii.eqb "-" c.
Proof. destruct c as [[] [] [] [] [] [] [] []]; reflexivity. Qed.

Lemma upper_star c : Ascii.eqb (upper "*") (upper c) = Ascii.eqb "*" c.
Proof. destruct c as [[] [] [] [] [] [] [] []]; reflexivity. Qed.

(** X29.  A step that the model has written as the prompt asks, without a
    number or a bullet, is shown as it is: a text that starts neither with
    a digit, nor with a dash or an asterisk, nor with the word Step in any
    case, is left unchanged, the white space it starts with included. *)
Theorem removeMarker_plain (c : ascii) (text : string) :
  JSON.digit c = false ->
  c <> "-"%char -> c <> "*"%char ->
  lit true "Step" (c :: list_ascii_of_string text) = None ->
  removeMarker (String c text) = String c text.
Proof.
  intros Hdigit Hdash Hstar Hstep. unfold removeMarker. cbv zeta.
  cbn [list_ascii_of_string]. unfold matchMarker, matchDigits.
  rewrite Hdigit, Hstep. unfold orElse, lit.
  cbn [list_ascii_of_string matchLiteral].
  rewrite upper_dash, upper_star.
  destruct (Ascii.eqb "-" c) eqn:Hd;
    [apply Ascii.eqb_eq in Hd; congruence |].
  destruct (Ascii.eqb "*" c) eqn:Hs;
    [apply Ascii.eqb_eq in Hs; congruence |].
  cbn [string_of_list_ascii]. now rewrite string_of_list_ascii_of_string.
Qed.

(* ===================================================================== *)
(** * Worked instances *)
(* ===================================================================== *)

#[local] Existing Instance demoMorePrompts.

(** Two refusals and a success under the default budget: six seconds. *)
Lemma retryOperation_waited_witness :
  0 <= waited (trace (retryOperation (flaky 2 tooManyRequests "done") 3 2000
                        0%nat))
    <= 14000.
Proof.
  apply (@retryOperation_waited nat string timeless
           (flaky 2 tooManyRequests "done") 3 2000 0%nat); lia.
Defined.

(** A service that refuses four image requests with status 429. *)
Lemma generateSingleImage_throws_exhausted_witness :
  let r := generateSingleImage "Japandi" FurnitureFlipping
             "A small oak side table" "straight on view" None
             (repeat (Throw tooManyRequests) 4) in
  outcome r = Throw tooManyRequests /\
  invocations (trace r) = 4%nat /\
  waits (trace r) = [2000; 4000; 8000].
Proof.
  cbv zeta.
  destruct (@generateSingleImage_throws_exhausted _ timeless scripted
              demoPrompts "Japandi" FurnitureFlipping
              "A small oak side table" "straight on view" None
              (repeat (Throw tooManyRequests) 4) tooManyRequests
              ltac:(vm_compute; reflexivity))
    as (_ & _ & Hcalls & Hwaits).
  split; [vm_compute; reflexivity | split; assumption].
Defined.

(** One refusal with status 429, then the image. *)
Lemma generateSingleImage_retries_once_witness :
  let r := generateSingleImage "Japandi" FurnitureFlipping
             "A small oak side table" "straight on view" None
             [Throw tooManyRequests; Return (imageResponse "aW1hZ2U=")] in
  outcome r = Return (Some "aW1hZ2U=") /\
  waits (trace r) = [2000] /\ requests (trace r) = 2%nat.
Proof.
  cbv zeta.
  destruct (@generateSingleImage_retries_once _ timeless scripted
              demoPrompts "Japandi" FurnitureFlipping
              "A small oak side table" "straight on view" None
              [Throw tooManyRequests; Return (imageResponse "aW1hZ2U=")]
              tooManyRequests [Return (imageResponse "aW1hZ2U=")]
              (imageResponse "aW1hZ2U=") [] eq_refl eq_refl eq_refl)
    as (Ho & _ & Hwaits & Hrequests).
  split; [exact Ho | split; assumption].
Defined.

(** A photo, and a service that answers the plan request with prose. *)
Lemma generateFullPlan_settles_witness :
  let r := generateFullPlan "Japandi" None photoApp
             [Return (textResponse "Sorry, no plan today.")] in
  exists final,
    outcome r = Return final /\
    selectedImage final = Some "cGhvdG8=" /\
    (requests (trace r) <= 17)%nat.
Proof.
  cbv zeta.
  destruct (@generateFullPlan_settles _ timeless scripted demoPrompts
              demoEngine "Japandi" None photoApp "cGhvdG8="
              [Return (textResponse "Sorry, no plan today.")] eq_refl)
    as (final & Ho & Himage & _ & _ & Hbudget).
  exists final. split; [exact Ho | split; [exact Himage | exact Hbudget]].
Defined.

(** The refusal that [generateSingleImage] swallows, a quota message
    without a status, is retried for the image of a step. *)
Lemma generateStepImage_retries_once_witness :
  let r := generateStepImage "sanding the top" "Japandi"
             [Throw quotaExhausted; Return (imageResponse "c3RlcA==")] in
  outcome r = Return (Some "c3RlcA==") /\
  waits (trace r) = [3000] /\ requests (trace r) = 2%nat.
Proof.
  cbv zeta.
  destruct (proj1 (@generateStepImage_retries_once _ timeless scripted
                     demoMorePrompts "sanding the top" "Japandi"
                     [Throw quotaExhausted;
                      Return (imageResponse "c3RlcA==")]
                     quotaExhausted [Return (imageResponse "c3RlcA==")]
                     eq_refl)
              ltac:(vm_compute; reflexivity)
              (imageResponse "c3RlcA==") [] eq_refl)
    as (Ho & _ & Hwaits & Hrequests).
  split; [exact Ho | split; assumption].
Defined.

(** An analysis with one style is returned as it is. *)
Lemma generateSurpriseAnalysis_answer_witness :
  outcome (generateSurpriseAnalysis "cGhvdG8=" FurnitureFlipping
             [Return (textResponse shortAnalysisText)])
  = Return shortAnalysisJson.
Proof.
  exact (proj1 (proj1 (@generateSurpriseAnalysis_answer _ timeless scripted
                         demoMorePrompts demoEngine "cGhvdG8="
                         FurnitureFlipping
                         [Return (textResponse shortAnalysisText)]
                         (textResponse shortAnalysisText) [] eq_refl)
                  shortAnalysisText shortAnalysisJson
                  ltac:(vm_compute; reflexivity)
                  ltac:(vm_compute; reflexivity))).
Defined.

(** An answer with white space around the style. *)
Lemma analyzeStyleFromImage_answer_witness :
  let r := analyzeStyleFromImage "aW5zcA=="
             [Return (textResponse "  Warm oak and linen. ")] in
  outcome r = Return "Warm oak and linen." /\
  world r = [] /\ requests (trace r) = 1%nat.
Proof.
  cbv zeta.
  destruct (@analyzeStyleFromImage_answer _ timeless scripted
              demoMorePrompts "aW5zcA=="
              [Return (textResponse "  Warm oak and linen. ")]
              (textResponse "  Warm oak and linen. ") [] eq_refl)
    as (_ & _ & Hworld & Hrequests & _).
  split; [vm_compute; reflexivity | split; assumption].
Defined.

(** A question, and the answer of the service. *)
Lemma handleSend_reply_witness :
  outcome (handleSend fullPlanJson openChat
             [Return (textResponse "About two hours.")])
  = Return (mkChat [chatGreeting;
                    mkMessage RoleUser "How long does it dry?";
                    mkMessage RoleModel "About two hours."] "" false).
Proof.
  exact (proj1 (proj1 (@handleSend_reply _ timeless scripted demoPrompts
                         demoEngine fullPlanJson openChat
                         [Return (textResponse "About two hours.")]
                         ltac:(vm_compute; reflexivity) eq_refl)
                  (textResponse "About two hours.") [] eq_refl)).
Defined.

(** A callout in the middle of a step. *)
Lemma extractStepResources_decodes_witness :
  extractStepResources "Cut the board with a **TOOL: Miter saw ** and sand it."
  = mkResource TOOL (trim " Miter saw ")
    :: extractStepResources " and sand it.".
Proof.
  exact (extractStepResources_decodes TOOL "Cut the board with a "
           " Miter saw " " and sand it." eq_refl eq_refl eq_refl).
Defined.

Lemma extractStepResources_sound_witness :
  exists before item rest : string,
    "Fix it with **MATERIAL:Screws**"%string
    = (before ++ callout MATERIAL item ++ rest)%string /\
    "Screws"%string = trim item.
Proof.
  exact (extractStepResources_sound "Fix it with **MATERIAL:Screws**"
           (mkResource MATERIAL "Screws")
           ltac:(vm_compute; left; reflexivity)).
Defined.

(** The first step of the sample plan, in the format of the prompt. *)
Lemma extractStepResources_prompt_format_witness :
  extractStepResources
    "Sand the top. **TOOL:** Orbital sander (e.g., Bosch ROS20VSC)"
  = [mkResource TOOL ""].
Proof.
  exact (extractStepResources_prompt_format TOOL "Sand the top. "
           "Orbital sander (e.g., Bosch ROS20VSC)" eq_refl eq_refl).
Defined.

(** A step that starts with its tool. *)
Lemma leading_callout_dropped_witness :
  extractStepResources "**TOOL: Saw** Cut the board."
  = [mkResource TOOL "Saw"] /\
  stepViews ["**TOOL: Saw** Cut the board."]
  = [Numbered 1 "*TOOL: Saw** Cut the board." []] /\
  removeMarker "*TOOL: Saw** Cut the board."
  = "TOOL: Saw** Cut the board."%string.
Proof.
  pose proof (leading_callout_dropped TOOL " Saw" " Cut the board."
                eq_refl eq_refl eq_refl) as Hstep.
  cbv zeta in Hstep. vm_compute in Hstep. vm_compute. exact Hstep.
Defined.

(** The numbering of a list, and a measure in inches. *)
Lemma removeMarker_numbered_witness :
  removeMarker "12.  Sand the top." = "Sand the top."%string /\
  removeMarker "2.5 inch screws hold the frame." =
  "5 inch screws hold the frame."%string.
Proof.
  split.
  - exact (removeMarker_numbered "12" "  Sand the top."
             ltac:(discriminate) eq_refl).
  - exact (removeMarker_numbered "2" "5 inch screws hold the frame."
             ltac:(discriminate) eq_refl).
Defined.

(** A step that starts with the letter S. *)
Lemma removeMarker_plain_witness :
  removeMarker "Sand the top." = "Sand the top."%string.
Proof.
  exact (removeMarker_plain "S" "and the top." eq_refl
           ltac:(discriminate) ltac:(discriminate) eq_refl).
Defined.
